(** * Composer UI automator (work.py): model and verified properties

    The Python module drives a desktop application through image template
    matching and synthetic input.  The model below follows the source
    function by function.  Everything the program obtains from the outside
    (enumerated monitors, screen contents, template files, the OpenCV
    matcher, window lookups, spawned processes) is read from an environment
    record, indexed by the number of earlier requests of the same kind, so
    that successive captures may see different screens.  Everything the
    program does to the outside is appended to a trace of events.  Console
    [print] calls are diagnostics only and are left out of the trace; log
    records are kept.

    Time is counted in milliseconds.  The state keeps the time slept so
    far; the wall clock that [time.time] reads is that time plus the time
    taken by everything the program has done besides sleeping, which the
    environment gives event by event.  Numbers in the configuration are
    Python ints (seconds). *)

From Stdlib Require Import ZArith QArith Lia.
From stdpp Require Import base gmap strings list pretty.

Local Open Scope Z_scope.

(** ** Exceptions and results *)

Inductive exn :=
| ValueError (msg : string)
| KeyError (key : string)
| IndexError (msg : string)
| TypeError (msg : string)
| TimeoutError (msg : string)
| OtherError (name msg : string).

(** [str(e)] *)
Definition str_exn (e : exn) : string :=
  match e with
  | ValueError m | IndexError m | TypeError m | TimeoutError m => m
  | KeyError k => "'" +:+ k +:+ "'"
  | OtherError _ m => m
  end.

Inductive result (A : Type) :=
| Ok (a : A)
| Err (e : exn).
Arguments Ok {A} a.
Arguments Err {A} e.

(** ** Configuration values

    [config] is a Python dict with string keys; its values are scalars,
    lists of key names, or one further level of dict. *)

Inductive atom :=
| AStr (s : string)
| AInt (n : Z)
| AList (l : list string).

Inductive cval :=
| CAtom (a : atom)
| CDict (d : gmap string atom).

(** [d[k]] on the top-level dict *)
Definition config_get (c : gmap string cval) (k : string) : result cval :=
  match c !! k with
  | Some v => Ok v
  | None => Err (KeyError k)
  end.

(** [v[k]] on a configuration value *)
Definition subscript (v : cval) (k : string) : result atom :=
  match v with
  | CDict d =>
      match d !! k with
      | Some a => Ok a
      | None => Err (KeyError k)
      end
  | CAtom (AStr _) => Err (TypeError "string indices must be integers")
  | CAtom (AInt _) => Err (TypeError "'int' object is not subscriptable")
  | CAtom (AList _) => Err (TypeError "list indices must be integers or slices, not str")
  end.

(** [keys_list.copy()]: a list has the method, a str or an int has not. *)
Definition as_keys (a : atom) : result (list string) :=
  match a with
  | AList l => Ok l
  | AStr _ => Err (OtherError "AttributeError" "'str' object has no attribute 'copy'")
  | AInt _ => Err (OtherError "AttributeError" "'int' object has no attribute 'copy'")
  end.

(** The operand of [time.time() - start < timeout]. *)
Definition as_timeout (a : atom) : result Z :=
  match a with
  | AInt n => Ok n
  | AStr _ =>
      Err (TypeError "'<' not supported between instances of 'float' and 'str'")
  | AList _ =>
      Err (TypeError "'<' not supported between instances of 'float' and 'list'")
  end.

(** [l[i]] with Python's negative indices *)
Definition py_index {A : Type} (l : list A) (i : Z) : result A :=
  let len := Z.of_nat (length l) in
  let j := if i <? 0 then len + i else i in
  if (0 <=? j) && (j <? len) then
    match l !! Z.to_nat j with
    | Some x => Ok x
    | None => Err (IndexError "list index out of range")
    end
  else Err (IndexError "list index out of range").

(** ** Images, the outside world, and the trace *)

Record monitor := Monitor {
  mon_left : Z; mon_top : Z; mon_width : Z; mon_height : Z }.

(** What [sct.grab] returns. *)
Record screenshot := Screenshot {
  shot_size : Z * Z;
  shot_rgb : list Z }.

(** A PIL image. *)
Record image := Image {
  img_mode : string;
  img_size : Z * Z;
  img_data : list Z }.

(** A template read by [cv2.imread]; [shape[:2]] is (height, width). *)
Record template := Template {
  tpl_h : Z;
  tpl_w : Z;
  tpl_bgr : list Z }.

(** The four values of [cv2.minMaxLoc]. *)
Record match_stats := MatchStats {
  min_val : Q;
  max_val : Q;
  min_loc : Z * Z;
  max_loc : Z * Z }.

Record window := Window { win_title : string }.

(** The values of [platform.system()]. *)
Inductive platform := Windows | Darwin | Linux.

Definition is_darwin (p : platform) : bool :=
  match p with Darwin => true | _ => false end.

Definition is_windows (p : platform) : bool :=
  match p with Windows => true | _ => false end.

(** What is handed to [subprocess.run].  Where the source builds the
    command with an f-string around a configuration value, the command
    keeps the value: [ShellCursor v] is the shell line [cursor {v}], and
    [OsaRaise proc v] the AppleScript that raises the window of [proc]
    whose title contains [{v}]. *)
Inductive command :=
| ShellCursor (project : cval)
| Exec (argv : list string)
| OsaActivate (app : string)
| OsaRaise (proc : string) (title : cval).

Inductive level := INFO | WARNING | ERROR.

(** [Traceback e] is the error record that holds
    [traceback.format_exc()] for [e]; its text, the stack frames, is not
    spelled out. *)
Inductive event :=
| Log (lvl : level) (msg : string)
| Traceback (e : exn)
| Grab (m : monitor)
| SaveDebug (stamp : Z)
| Click (pos : option (Z * Z))
| KeyDown (k : string)
| KeyUp (k : string)
| Press (k : string)
| Hotkey (keys : list string)
| Typewrite (text : string)
| ClipCopy (text : string)
| Run (c : command)
| Activate (w : window).

Record env := Env {
  env_platform : platform;
  env_monitors : nat -> list monitor;
  env_grab : nat -> monitor -> screenshot;
  env_imread : string -> option template;
  env_match : image -> template -> result match_stats;
  env_windows : nat -> string -> list window;
  env_activate : nat -> window -> option exn;
  env_run : nat -> command -> result string;
  env_expandvars : string -> string;
  env_path_exists : string -> bool;
  (** how long the event at a given position of the trace took, in
      milliseconds; what leaves no event (matching, reading a template,
      looking up a window) is counted with the event before it *)
  env_cost : nat -> event -> N;
  (** [repr] of a string: Python's quoting and escapes *)
  env_repr : string -> string;
  (** the exception a library function (named by the first argument)
      raises when it is handed a value of a type it does not take *)
  env_reject : string -> cval -> exn }.

(** The state of a run: the time slept so far, the numbers of calls made
    so far of [capture_screen], of [focus_window] and of
    [subprocess.run] (the environment's answers are numbered by them), and
    the trace. *)
Record state := State {
  clock : Z;
  captures : nat;
  focus_calls : nat;
  runs : nat;
  trace : list event }.

(** ** The monad of effects *)

Inductive outcome (A : Type) :=
| Ret (a : A)
| Raise (e : exn)
| OutOfFuel.
Arguments Ret {A} a.
Arguments Raise {A} e.
Arguments OutOfFuel {A}.

Definition M (A : Type) : Type := state -> outcome A * state.

Definition ret {A} (a : A) : M A := fun s => (Ret a, s).

Definition raise {A} (e : exn) : M A := fun s => (Raise e, s).

Definition bind {A B} (m : M A) (k : A -> M B) : M B :=
  fun s =>
    match m s with
    | (Ret a, s') => k a s'
    | (Raise e, s') => (Raise e, s')
    | (OutOfFuel, s') => (OutOfFuel, s')
    end.

Declare Scope py_scope.
Delimit Scope py_scope with py.
Notation "x <- m ;; k" := (bind m (fun x => k))
  (at level 100, m at next level, right associativity) : py_scope.
Notation "m ;; k" := (bind m (fun _ => k))
  (at level 100, right associativity) : py_scope.
Local Open Scope py_scope.

(** [try: m except Exception as e: h e] *)
Definition try_except {A} (m : M A) (h : exn -> M A) : M A :=
  fun s =>
    match m s with
    | (Raise e, s') => h e s'
    | r => r
    end.

Definition lift {A} (r : result A) : M A :=
  match r with
  | Ok a => ret a
  | Err e => raise e
  end.

Definition with_event (s : state) (ev : event) : state :=
  State (clock s) (captures s) (focus_calls s) (runs s) (trace s ++ [ev]).

Definition advanced (s : state) (ms : Z) : state :=
  State (clock s + ms) (captures s) (focus_calls s) (runs s) (trace s).

Definition emit (ev : event) : M unit :=
  fun s => (Ret tt, with_event s ev).

(** The time taken by the events of [l], the first of which stands at
    position [i] of the trace. *)
Fixpoint busy_from (cost : nat -> event -> N) (i : nat) (l : list event) : Z :=
  match l with
  | [] => 0
  | ev :: rest => Z.of_N (cost i ev) + busy_from cost (S i) rest
  end.

(** The wall clock: time slept plus time spent otherwise. *)
Definition wall (E : env) (s : state) : Z :=
  clock s + busy_from (env_cost E) 0 (trace s).

(** [time.sleep], argument in milliseconds *)
Definition time_sleep (ms : Z) : M unit :=
  fun s =>
    if ms <? 0 then (Raise (ValueError "sleep length must be non-negative"), s)
    else (Ret tt, advanced s ms).

Definition seconds (n : Z) : Z := 1000 * n.

Definition next_capture : M nat :=
  fun s => (Ret (captures s),
            State (clock s) (S (captures s)) (focus_calls s) (runs s) (trace s)).

Definition next_focus : M nat :=
  fun s => (Ret (focus_calls s),
            State (clock s) (captures s) (S (focus_calls s)) (runs s) (trace s)).

Definition next_run : M nat :=
  fun s => (Ret (runs s),
            State (clock s) (captures s) (focus_calls s) (S (runs s)) (trace s)).

Definition default_confidence : Q := 8 # 10.

Section Program.

Variable E : env.

(** [time.time()], in milliseconds *)
Definition now : M Z := fun s => (Ret (wall E s), s).

(** A value passed where the library function [callee] takes a string. *)
Definition as_str (callee : string) (v : cval) : result string :=
  match v with
  | CAtom (AStr s) => Ok s
  | _ => Err (env_reject E callee v)
  end.

(** The argument of [time.sleep]. *)
Definition as_seconds (a : atom) : result Z :=
  match a with
  | AInt n => Ok n
  | _ => Err (env_reject E "time.sleep" (CAtom a))
  end.

(** [str(a)], as an f-string renders a configuration value *)
Definition py_str_atom (a : atom) : string :=
  match a with
  | AStr s => s
  | AInt n => pretty n
  | AList l => "[" +:+ String.concat ", " (env_repr E <$> l) +:+ "]"
  end.

(** [ctrl_key], chosen per platform when the module is loaded *)
Definition ctrl_key : string :=
  match env_platform E with
  | Darwin => "command"
  | _ => "ctrl"
  end.

Definition Image_frombytes (mode : string) (size : Z * Z) (data : list Z) : image :=
  Image mode size data.

Definition capture_screen (monitor_id : Z) : M image :=
  n <- next_capture ;;
  let monitors := env_monitors E n in
  if Z.of_nat (length monitors) <=? monitor_id then
    raise (ValueError ("显示器 " +:+ pretty monitor_id +:+ " 不存在"))
  else
    mon <- lift (py_index monitors monitor_id) ;;
    emit (Grab mon) ;;
    let shot := env_grab E n mon in
    ret (Image_frombytes "RGB" (shot_size shot) (shot_rgb shot)).

(** Module-level [check_element_exist]: one capture, one match. *)
Definition check_element_exist (image_path : atom) (confidence : Q)
  : M (bool * option (Z * Z)) :=
  shot <- capture_screen 1 ;;
  t <- now ;;
  emit (SaveDebug t) ;;
  path <- lift (as_str "cv2.imread" (CAtom image_path)) ;;
  match env_imread E path with
  | None => raise (ValueError ("无法读取目标图像: " +:+ path))
  | Some tpl =>
      st <- lift (env_match E shot tpl) ;;
      if Qle_bool confidence (max_val st) then
        let h := tpl_h tpl in
        let w := tpl_w tpl in
        let center_x := fst (max_loc st) + w / 2 in
        let center_y := snd (max_loc st) + h / 2 in
        ret (true, Some (center_x, center_y))
      else ret (false, None)
  end.

(** ** BaseUIAutomator *)

Record automator := Automator {
  config : gmap string cval }.

Definition logger (lvl : level) (msg : string) : M unit := emit (Log lvl msg).

Definition BaseUIAutomator_init (cfg : gmap string cval) : M automator :=
  ret (Automator cfg).

Definition pyautogui_click (pos : option (Z * Z)) : M unit := emit (Click pos).

(** One pass through the body of the [for] loop of [safe_click], up to but
    excluding the sleep: [Some v] when the function returns [v], [None]
    when control falls through to the sleep. *)
Definition safe_click_attempt (image_path : atom) : M (option bool) :=
  try_except
    (r <- check_element_exist image_path default_confidence ;;
     if fst r then
       pyautogui_click (snd r) ;;
       ret (Some true)
     else ret None)
    (fun e =>
       logger WARNING ("定位图像时出错: " +:+ str_exn e) ;;
       ret None).

Fixpoint safe_click_loop (image_path : atom) (n : nat) : M bool :=
  match n with
  | O =>
      logger ERROR ("未找到目标图像：" +:+ py_str_atom image_path) ;;
      ret false
  | S n' =>
      r <- safe_click_attempt image_path ;;
      match r with
      | Some v => ret v
      | None =>
          time_sleep 1000 ;;
          safe_click_loop image_path n'
      end
  end.

Definition safe_click (self : automator) (image_path : atom) (retry : Z) : M bool :=
  safe_click_loop image_path (Z.to_nat retry).

Definition exist_attempt (image_path : atom) : M (option bool) :=
  try_except
    (r <- check_element_exist image_path default_confidence ;;
     if fst r then ret (Some true) else ret None)
    (fun e =>
       logger WARNING ("元素不存在: " +:+ str_exn e) ;;
       ret None).

Fixpoint exist_loop (image_path : atom) (interval : Z) (n : nat) : M bool :=
  match n with
  | O => ret false
  | S n' =>
      r <- exist_attempt image_path ;;
      match r with
      | Some v => ret v
      | None =>
          time_sleep (seconds interval) ;;
          exist_loop image_path interval n'
      end
  end.

(** The method [BaseUIAutomator.check_element_exist]. *)
Definition self_check_element_exist (self : automator) (image_path : atom)
    (retry : Z) (interval : Z) : M bool :=
  exist_loop image_path interval (Z.to_nat retry).

Definition input_text (self : automator) (text : string) (lang : string) : M unit :=
  (if String.eqb lang "zh" || is_darwin (env_platform E) then
     emit (ClipCopy text) ;;
     time_sleep 500 ;;
     emit (KeyDown ctrl_key) ;;
     time_sleep 500 ;;
     emit (Press "v") ;;
     time_sleep 500 ;;
     emit (KeyUp ctrl_key) ;;
     time_sleep 500
   else emit (Typewrite text)) ;;
  time_sleep 500.

Fixpoint hotkey_darwin_keys (keys : list string) : M unit :=
  match keys with
  | [] => ret tt
  | key :: rest =>
      emit (KeyDown key) ;;
      time_sleep 300 ;;
      emit (KeyUp key) ;;
      time_sleep 300 ;;
      hotkey_darwin_keys rest
  end.

Fixpoint hotkey_press_keys (keys : list string) : M unit :=
  match keys with
  | [] => ret tt
  | key :: rest =>
      emit (Press key) ;;
      time_sleep 500 ;;
      hotkey_press_keys rest
  end.

Definition _hotkey (self : automator) (keys_list : atom) : M unit :=
  copy <- lift (as_keys keys_list) ;;
  match copy with
  | [] => raise (IndexError "pop from empty list")
  | first_key :: keys =>
      match env_platform E with
      | Darwin =>
          emit (KeyDown first_key) ;;
          time_sleep 500 ;;
          hotkey_darwin_keys keys ;;
          time_sleep 500 ;;
          emit (KeyUp first_key) ;;
          time_sleep 500
      | _ =>
          emit (KeyDown first_key) ;;
          time_sleep 1000 ;;
          hotkey_press_keys keys ;;
          emit (KeyUp first_key)
      end
  end.

(** ** ComposerAutomator *)

Definition required_keys : list string := ["hotkeys"; "wait_timeouts"; "ui_elements"].

Fixpoint validate_keys (cfg : gmap string cval) (keys : list string) : M unit :=
  match keys with
  | [] => ret tt
  | key :: rest =>
      match cfg !! key with
      | None => raise (ValueError ("Missing required config key: " +:+ key))
      | Some _ => validate_keys cfg rest
      end
  end.

Definition validate_config (self : automator) : M unit :=
  validate_keys (config self) required_keys.

Definition ComposerAutomator_init (cfg : gmap string cval) : M automator :=
  self <- BaseUIAutomator_init cfg ;;
  validate_config self ;;
  ret self.

(** [self.config[k]] and [self.config[k1][k2]] *)
Definition cfg1 (self : automator) (k : string) : M cval :=
  lift (config_get (config self) k).

Definition cfg2 (self : automator) (k1 k2 : string) : M atom :=
  v <- lift (config_get (config self) k1) ;;
  lift (subscript v k2).

Definition subprocess_run (c : command) : M string :=
  n <- next_run ;;
  emit (Run c) ;;
  lift (env_run E n c).

Definition win_activate (n : nat) (w : window) : M unit :=
  emit (Activate w) ;;
  match env_activate E n w with
  | Some e => raise e
  | None => ret tt
  end.

Definition focus_window (self : automator) : M bool :=
  try_except
    (n <- next_focus ;;
     (match env_platform E with
      | Darwin =>
          subprocess_run (OsaActivate "Cursor") ;;
          time_sleep 1000 ;;
          window_title <- cfg1 self "window_title" ;;
          subprocess_run (OsaRaise "Cursor" window_title) ;;
          ret tt
      | _ =>
          v <- cfg1 self "window_title" ;;
          window_title <- lift (as_str "pygetwindow.getWindowsWithTitle" v) ;;
          win <- lift (py_index (env_windows E n window_title) 0) ;;
          win_activate n win
      end) ;;
     time_sleep 1500 ;;
     ret true)
    (fun e =>
       logger ERROR ("激活目标窗口失败: " +:+ str_exn e) ;;
       ret false).

(** [time.sleep(v)] for a configured number of seconds *)
Definition sleep_atom (a : atom) : M unit :=
  n <- lift (as_seconds a) ;;
  time_sleep (seconds n).

Definition cursor_paths : list string :=
  ["C:\Program Files\Cursor\Cursor.exe";
   "C:\Users\%USERNAME%\AppData\Local\Programs\Cursor\Cursor.exe"].

(** The [for ... else] over the candidate install paths. *)
Fixpoint open_project_search (self : automator) (paths : list string) : M unit :=
  match paths with
  | [] => logger ERROR "无法找到Cursor可执行文件，请手动设置正确的路径"
  | path :: rest =>
      let expanded_path := env_expandvars E path in
      if env_path_exists E expanded_path then
        v <- cfg1 self "project_path" ;;
        project <- lift (as_str "subprocess.run" v) ;;
        subprocess_run (Exec [expanded_path; project]) ;;
        ret tt
      else open_project_search self rest
  end.

Definition open_project (self : automator) : M unit :=
  (if is_windows (env_platform E) then
     try_except
       (project <- cfg1 self "project_path" ;;
        subprocess_run (ShellCursor project) ;;
        ret tt)
       (fun e =>
          logger WARNING ("使用shell方式打开项目失败: " +:+ str_exn e) ;;
          open_project_search self cursor_paths)
   else
     v <- cfg1 self "project_path" ;;
     project <- lift (as_str "subprocess.run" v) ;;
     subprocess_run (Exec ["cursor"; project]) ;;
     ret tt) ;;
  time_sleep 2000.

Fixpoint open_composer_loop (self : automator) (retry : nat) : M bool :=
  match retry with
  | O =>
      logger WARNING "打开Composer失败，可能需要手动干预" ;;
      ret false
  | S retry' =>
      img <- cfg2 self "ui_elements" "agent_mode" ;;
      found <- self_check_element_exist self img 1 1 ;;
      if found then
        logger INFO "Composer已成功打开" ;;
        ret true
      else
        logger INFO ("未检测到Composer界面，重试中 (剩余" +:+ pretty retry' +:+ "次)...") ;;
        focus_window self ;;
        keys <- cfg2 self "hotkeys" "open_composer" ;;
        _hotkey self keys ;;
        pause <- cfg2 self "wait_timeouts" "after_open" ;;
        sleep_atom pause ;;
        open_composer_loop self retry'
  end.

Definition open_composer (self : automator) : M bool :=
  logger INFO "正在打开Composer..." ;;
  focus_window self ;;
  keys <- cfg2 self "hotkeys" "open_composer" ;;
  _hotkey self keys ;;
  pause <- cfg2 self "wait_timeouts" "after_open" ;;
  sleep_atom pause ;;
  open_composer_loop self 3.

Definition new_session (self : automator) : M bool :=
  logger INFO "正在新建会话..." ;;
  focus_window self ;;
  time_sleep 1000 ;;
  keys <- cfg2 self "hotkeys" "new_session" ;;
  _hotkey self keys ;;
  time_sleep 1000 ;;
  focus_window self ;;
  time_sleep 1000 ;;
  (if is_darwin (env_platform E) then emit (Hotkey ["command"; "a"])
   else emit (Hotkey ["ctrl"; "a"])) ;;
  time_sleep 500 ;;
  emit (Press "delete") ;;
  time_sleep 500 ;;
  emit (Press "delete") ;;
  time_sleep 500 ;;
  logger INFO "新会话创建完成，输入区域正常" ;;
  ret true.

Fixpoint link_files_loop (self : automator) (file_paths : list string) : M unit :=
  match file_paths with
  | [] => ret tt
  | path :: rest =>
      logger INFO ("正在关联文件: " +:+ path) ;;
      emit (Press " ") ;;
      time_sleep 300 ;;
      emit (Press "@") ;;
      time_sleep 500 ;;
      (if is_darwin (env_platform E) then
         emit (ClipCopy path) ;;
         time_sleep 300 ;;
         stdout <- subprocess_run (Exec ["pbpaste"]) ;;
         logger INFO ("剪贴板内容: " +:+ stdout) ;;
         emit (KeyDown "command") ;;
         time_sleep 300 ;;
         emit (KeyDown "v") ;;
         time_sleep 300 ;;
         emit (KeyUp "v") ;;
         time_sleep 300 ;;
         emit (KeyUp "command") ;;
         time_sleep 500
       else
         emit (ClipCopy path) ;;
         time_sleep 500 ;;
         emit (Hotkey ["ctrl"; "v"])) ;;
      time_sleep 1000 ;;
      emit (Press "enter") ;;
      time_sleep 500 ;;
      pause <- cfg2 self "wait_timeouts" "per_file" ;;
      sleep_atom pause ;;
      link_files_loop self rest
  end.

Definition link_files (self : automator) (file_paths : list string) : M unit :=
  logger INFO ("正在关联 " +:+ pretty (length file_paths) +:+ " 个文件...") ;;
  focus_window self ;;
  time_sleep 1000 ;;
  link_files_loop self file_paths.

Definition send_message (self : automator) : M bool :=
  logger INFO "点击发送按钮..." ;;
  img <- cfg2 self "ui_elements" "send_button" ;;
  clicked <- safe_click self img 3 ;;
  if clicked then
    logger INFO "成功点击发送按钮" ;;
    ret true
  else
    logger INFO "尝试使用快捷键发送..." ;;
    (if is_darwin (env_platform E) then emit (Hotkey ["command"; "enter"])
     else emit (Hotkey ["ctrl"; "enter"])) ;;
    time_sleep 500 ;;
    ret true.

Definition input_prompt (self : automator) (prompt : string) : M unit :=
  logger INFO "输入业务提示..." ;;
  input_text self prompt "zh" ;;
  time_sleep 500 ;;
  send_message self ;;
  ret tt.

(** The expression polled by [wait_execution]:
    [self.check_element_exist(self.config['ui_elements']['generating'])]. *)
Definition poll_generating (self : automator) : M bool :=
  img <- cfg2 self "ui_elements" "generating" ;;
  self_check_element_exist self img 3 2.

(** The [while] loop of [wait_execution]; [fuel] bounds the number of
    passes, and [OutOfFuel] is returned when it is used up with the
    deadline still ahead. *)
Fixpoint wait_execution_loop (self : automator) (start timeout : Z) (fuel : nat)
  : M bool :=
  t <- now ;;
  if t - start <? seconds timeout then
    match fuel with
    | O => fun s => (OutOfFuel, s)
    | S fuel' =>
        r <- try_except
               (busy <- poll_generating self ;;
                if busy then
                  time_sleep 5000 ;;
                  ret None
                else
                  logger INFO "执行已完成" ;;
                  ret (Some true))
               (fun e =>
                  logger ERROR ("等待执行完成失败: " +:+ str_exn e) ;;
                  ret (Some false)) ;;
        match r with
        | Some v => ret v
        | None => wait_execution_loop self start timeout fuel'
        end
    end
  else raise (TimeoutError "执行超时").

(** [timeout or self.config['wait_timeouts']['execution']] *)
Definition effective_timeout (self : automator) (timeout : option Z) : M Z :=
  match timeout with
  | Some t => if t =? 0 then a <- cfg2 self "wait_timeouts" "execution" ;; lift (as_timeout a)
              else ret t
  | None => a <- cfg2 self "wait_timeouts" "execution" ;; lift (as_timeout a)
  end.

Definition wait_execution (self : automator) (timeout : option Z) (fuel : nat) : M bool :=
  timeout <- effective_timeout self timeout ;;
  start <- now ;;
  wait_execution_loop self start timeout fuel.

Definition accept_changes (self : automator) : M bool :=
  emit (Hotkey [ctrl_key; "enter"]) ;;
  time_sleep 500 ;;
  ret true.

Definition execute_workflow_body (self : automator) (task : string)
    (files : list string) (fuel : nat) : M bool :=
  logger INFO "开始自动化工作流..." ;;
  open_project self ;;
  time_sleep 3000 ;;
  success <- focus_window self ;;
  if negb success then
    logger ERROR "无法获取窗口焦点，工作流中断" ;;
    ret false
  else
    logger INFO "步骤1: 打开Composer界面" ;;
    composer_opened <- open_composer self ;;
    if negb composer_opened then
      logger ERROR "无法打开Composer，工作流中断" ;;
      ret false
    else
      time_sleep 1000 ;;
      logger INFO "步骤2: 创建新会话" ;;
      new_session self ;;
      time_sleep 1000 ;;
      logger INFO "步骤3: 关联文件" ;;
      link_files self files ;;
      if negb (String.eqb task "") then
        logger INFO "步骤4: 输入任务提示" ;;
        focus_window self ;;
        time_sleep 1000 ;;
        input_prompt self task ;;
        logger INFO "步骤5: 等待执行完成" ;;
        wait_execution self None fuel ;;
        logger INFO "步骤6: 接受更改" ;;
        accept_changes self
      else ret true.

Definition execute_workflow (self : automator) (task : string)
    (files : list string) (fuel : nat) : M bool :=
  try_except
    (execute_workflow_body self task files fuel)
    (fun e =>
       logger ERROR ("流程执行失败: " +:+ str_exn e) ;;
       emit (Traceback e) ;;
       ret false).

(** The script at the end of the module: construct, then run. *)
Definition main (cfg : gmap string cval) (task : string) (files : list string)
    (fuel : nat) : M bool :=
  automator <- ComposerAutomator_init cfg ;;
  execute_workflow automator task files fuel.

End Program.

(** ** Reading outcomes *)

(** A state that has seen [n] captures and nothing else. *)
Definition blank (n : nat) : state := State 0 n 0 0 [].

(** What a locate returns when it is the capture numbered [n]. *)
Definition locate_at (E : env) (n : nat) (image_path : atom) (c : Q)
  : outcome (bool * option (Z * Z)) :=
  fst (check_element_exist E image_path c (blank n)).

Definition found {A} (r : outcome (bool * A)) : bool :=
  match r with
  | Ret (b, _) => b
  | _ => false
  end.

Definition is_input (ev : event) : bool :=
  match ev with
  | Click _ | KeyDown _ | KeyUp _ | Press _ | Hotkey _ | Typewrite _ | ClipCopy _ => true
  | _ => false
  end.

(** ** How a computation moves the state *)

(** [evolves P s s']: the clock and the counters did not go back, and the
    trace grew by events that all satisfy [P]. *)
Definition evolves (P : event -> Prop) (s s' : state) : Prop :=
  clock s <= clock s' /\
  (captures s <= captures s')%nat /\
  exists added, trace s' = trace s ++ added /\ Forall P added.

Definition emits {A} (P : event -> Prop) (m : M A) : Prop :=
  forall s, evolves P s (snd (m s)).

Definition fuel_free {A} (m : M A) : Prop :=
  forall s, fst (m s) <> OutOfFuel.

(** The log record that announces step 6 of the workflow. *)
Definition is_step6 (ev : event) : bool :=
  match ev with
  | Log INFO msg => String.eqb msg "步骤6: 接受更改"
  | _ => false
  end.

Definition before_step6 (ev : event) : Prop := is_step6 ev = false.
Definition no_input (ev : event) : Prop := is_input ev = false.

(** ** A concrete world for examples

    Two monitors; three template files; the matcher's best score is given
    by [scene], a function of the capture number and of the template. *)

Definition two_monitors : list monitor :=
  [Monitor 0 0 3840 1080; Monitor 0 0 1920 1080].

Definition tpl_agent_mode : template := Template 20 40 [1].
Definition tpl_send_button : template := Template 24 61 [2].
Definition tpl_generating : template := Template 16 80 [3].

Definition demo_imread (path : string) : option template :=
  if String.eqb path "./images/windows/agent_mode.png" then Some tpl_agent_mode
  else if String.eqb path "./images/windows/send_button.png" then Some tpl_send_button
  else if String.eqb path "./images/windows/generating.png" then Some tpl_generating
  else None.

Definition demo_match (scene : Z -> Z -> Q) (img : image) (tpl : template)
  : result match_stats :=
  match img_data img, tpl_bgr tpl with
  | [n], [code] => Ok (MatchStats 0 (scene n code) (0, 0) (100, 200))
  | _, _ => Err (OtherError "cv2.error" "bad image")
  end.

Definition demo_env (plat : platform) (scene : Z -> Z -> Q) (has_window : nat -> bool)
  : env :=
  {| env_platform := plat;
     env_monitors := fun _ => two_monitors;
     env_grab := fun n mon => Screenshot (mon_width mon, mon_height mon) [Z.of_nat n];
     env_imread := demo_imread;
     env_match := demo_match scene;
     env_windows := fun n title => if has_window n then [Window title] else [];
     env_activate := fun _ _ => None;
     env_run := fun _ _ => Ok "";
     env_expandvars := fun p => p;
     env_path_exists := fun _ => false;
     env_cost := fun _ _ => 0%N;
     env_repr := fun t => "'" +:+ t +:+ "'";
     env_reject := fun callee _ => TypeError ("bad argument for " +:+ callee) |}.

(** The [CONFIG] example of the module, for a platform whose control key
    is [ctrl]. *)
Definition CONFIG_ui : gmap string atom :=
  <["agent_mode" := AStr "./images/windows/agent_mode.png"]>
  (<["send_button" := AStr "./images/windows/send_button.png"]>
  (<["generating" := AStr "./images/windows/generating.png"]> ∅)).

Definition CONFIG_hotkeys : gmap string atom :=
  <["open_composer" := AList ["ctrl"; "i"]]>
  (<["new_session" := AList ["ctrl"; "n"]]> ∅).

Definition CONFIG_timeouts : gmap string atom :=
  <["after_open" := AInt 1]> (<["per_file" := AInt 1]> (<["execution" := AInt 300]> ∅)).

Definition CONFIG_with (ui : gmap string atom) : gmap string cval :=
  <["window_title" := CAtom (AStr "fastapi-demo")]>
  (<["project_path" := CAtom (AStr "D:/fastapi-demo")]>
  (<["hotkeys" := CDict CONFIG_hotkeys]>
  (<["wait_timeouts" := CDict CONFIG_timeouts]>
  (<["ui_elements" := CDict ui]> ∅)))).

Definition CONFIG : gmap string cval := CONFIG_with CONFIG_ui.

Definition s0 : state := State 0 0 0 0 [].

(** Every element is on screen with score 0.95, except the busy
    indicator (template 3), which scores 0.5. *)
Definition scene_idle (n code : Z) : Q :=
  if code =? 3 then 5 # 10 else 95 # 100.

(** The busy indicator stays on screen for ever. *)
Definition scene_busy (n code : Z) : Q := 95 # 100.

(** Whether the attempt that uses capture number [n] finds the element. *)
Definition attempt_ok (E : env) (p : atom) (n : nat) : bool :=
  found (locate_at E n p default_confidence).

(** What a bounded-count retry must satisfy, as a relation between the
    starting capture count [c0], the bound [n], and the result. *)
Definition retry_result (E : env) (p : atom) (c0 n : nat) (r : outcome bool * state)
  : Prop :=
  (exists k, (k < n)%nat /\
     (forall j, (j < k)%nat -> attempt_ok E p (c0 + j) = false) /\
     attempt_ok E p (c0 + k) = true /\
     fst r = Ret true /\ captures (snd r) = (c0 + k + 1)%nat) \/
  ((forall j, (j < n)%nat -> attempt_ok E p (c0 + j) = false) /\
   fst r = Ret false /\ captures (snd r) = (c0 + n)%nat).

(** Nothing matches on the first two captures; everything does from the
    third on. *)
Definition scene_late (n code : Z) : Q :=
  if n <? 2 then 1 # 10 else 95 # 100.

(** A world in which the matcher fails on the first capture and sees
    every element from the second on. *)
Definition flaky_match (img : image) (tpl : template) : result match_stats :=
  match img_data img with
  | [0] => Err (OtherError "cv2.error" "matchTemplate failed")
  | _ => demo_match scene_busy img tpl
  end.

Definition flaky_env : env :=
  {| env_platform := Windows;
     env_monitors := fun _ => two_monitors;
     env_grab := fun n mon => Screenshot (mon_width mon, mon_height mon) [Z.of_nat n];
     env_imread := demo_imread;
     env_match := flaky_match;
     env_windows := fun n title => [Window title];
     env_activate := fun _ _ => None;
     env_run := fun _ _ => Ok "";
     env_expandvars := fun p => p;
     env_path_exists := fun _ => false;
     env_cost := fun _ _ => 0%N;
     env_repr := fun t => "'" +:+ t +:+ "'";
     env_reject := fun callee _ => TypeError ("bad argument for " +:+ callee) |}.

(** A world in which the busy indicator stays on screen and every grab
    of the screen takes a hundred seconds. *)
Definition slow_env : env :=
  {| env_platform := Windows;
     env_monitors := fun _ => two_monitors;
     env_grab := fun n mon => Screenshot (mon_width mon, mon_height mon) [Z.of_nat n];
     env_imread := demo_imread;
     env_match := demo_match scene_busy;
     env_windows := fun n title => [Window title];
     env_activate := fun _ _ => None;
     env_run := fun _ _ => Ok "";
     env_expandvars := fun p => p;
     env_path_exists := fun _ => false;
     env_cost := fun _ ev => match ev with Grab _ => 100000%N | _ => 0%N end;
     env_repr := fun t => "'" +:+ t +:+ "'";
     env_reject := fun callee _ => TypeError ("bad argument for " +:+ callee) |}.

(** A configuration without the [generating] element: the polled
    expression raises [KeyError]. *)
Definition CONFIG_no_generating : gmap string cval :=
  CONFIG_with (delete "generating" CONFIG_ui).

(** The specification's reading of the poll: a raising poll before the
    deadline counts as one failed attempt and the loop continues with the
    next pass. *)
Definition poll_exception_is_retried : Prop :=
  forall E self start timeout fuel s e s1,
    wall E s - start < seconds timeout ->
    poll_generating E self s = (Raise e, s1) ->
    exists s2,
      wait_execution_loop E self start timeout (S fuel) s =
      wait_execution_loop E self start timeout fuel s2.

(** [fails_with P m s]: run from [s], [m] returns False or raises, having
    added only events that satisfy [P]. *)
Definition fails_with (P : event -> Prop) (m : M bool) (s : state) : Prop :=
  evolves P s (snd (m s)) /\
  (fst (m s) = Ret false \/ exists e, fst (m s) = Raise e).

(** Passes of the poll loop that fit in [timeout] seconds: every pass
    that goes round again sleeps five seconds. *)
Definition poll_budget (timeout : Z) : nat := (Z.to_nat (timeout / 5) + 1)%nat.

(** [begins l m s]: the trace left by [m] run from [s] begins with [l]. *)
Definition begins {A} (l : list event) (m : M A) (s : state) : Prop :=
  exists rest, trace (snd (m s)) = l ++ rest.

(** The specification's reading of a step, for the first one: when focus
    cannot be established, [open_composer] injects no input. *)
Definition focus_failure_blocks_input : Prop :=
  forall E self s,
    (forall s', fst (focus_window E self s') = Ret false) ->
    evolves no_input s (snd (open_composer E self s)).

(** The part of [execute_workflow] that precedes the wait, for a
    non-empty task: [Some v] when the function has returned [v], [None]
    when step 5 has been announced and the wait is next. *)
Definition workflow_until_wait (E : env) (self : automator) (task : string)
    (files : list string) : M (option bool) :=
  logger INFO "开始自动化工作流..." ;;
  open_project E self ;;
  time_sleep 3000 ;;
  success <- focus_window E self ;;
  if negb success then
    logger ERROR "无法获取窗口焦点，工作流中断" ;;
    ret (Some false)
  else
    logger INFO "步骤1: 打开Composer界面" ;;
    composer_opened <- open_composer E self ;;
    if negb composer_opened then
      logger ERROR "无法打开Composer，工作流中断" ;;
      ret (Some false)
    else
      time_sleep 1000 ;;
      logger INFO "步骤2: 创建新会话" ;;
      new_session E self ;;
      time_sleep 1000 ;;
      logger INFO "步骤3: 关联文件" ;;
      link_files E self files ;;
      logger INFO "步骤4: 输入任务提示" ;;
      focus_window E self ;;
      time_sleep 1000 ;;
      input_prompt E self task ;;
      logger INFO "步骤5: 等待执行完成" ;;
      ret None.

(** The rest of [execute_workflow]: the wait, then step 6. *)
Definition workflow_from_wait (E : env) (self : automator) (fuel : nat) : M bool :=
  wait_execution E self None fuel ;;
  logger INFO "步骤6: 接受更改" ;;
  accept_changes E self.

(** ** Kinds of events

    Every event has a kind; the six records that announce the steps of the
    workflow are set apart from the other log records. *)

Inductive ekind :=
| KLog
| KStep (n : nat)
| KGrab
| KSave
| KClick
| KKeyDown
| KKeyUp
| KPress
| KHotkey
| KTypewrite
| KClipCopy
| KRun
| KActivate.

Definition step_announcements : list (nat * string) :=
  [(1%nat, "步骤1: 打开Composer界面");
   (2%nat, "步骤2: 创建新会话");
   (3%nat, "步骤3: 关联文件");
   (4%nat, "步骤4: 输入任务提示");
   (5%nat, "步骤5: 等待执行完成");
   (6%nat, "步骤6: 接受更改")].

Fixpoint step_lookup (msg : string) (l : list (nat * string)) : option nat :=
  match l with
  | [] => None
  | (n, text) :: rest => if String.eqb msg text then Some n else step_lookup msg rest
  end.

Definition kind (ev : event) : ekind :=
  match ev with
  | Log INFO msg =>
      match step_lookup msg step_announcements with
      | Some n => KStep n
      | None => KLog
      end
  | Log _ _ => KLog
  | Traceback _ => KLog
  | Grab _ => KGrab
  | SaveDebug _ => KSave
  | Click _ => KClick
  | KeyDown _ => KKeyDown
  | KeyUp _ => KKeyUp
  | Press _ => KPress
  | Hotkey _ => KHotkey
  | Typewrite _ => KTypewrite
  | ClipCopy _ => KClipCopy
  | Run _ => KRun
  | Activate _ => KActivate
  end.

Definition kind_code (k : ekind) : nat :=
  match k with
  | KLog => 0
  | KGrab => 1
  | KSave => 2
  | KClick => 3
  | KKeyDown => 4
  | KKeyUp => 5
  | KPress => 6
  | KHotkey => 7
  | KTypewrite => 8
  | KClipCopy => 9
  | KRun => 10
  | KActivate => 11
  | KStep n => 12 + n
  end.

Definition kind_in (k : ekind) (K : list ekind) : bool :=
  existsb (fun k' => Nat.eqb (kind_code k') (kind_code k)) K.

Definition kinds_sub (K1 K2 : list ekind) : bool :=
  forallb (fun k => kind_in k K2) K1.

(** [only K ev]: the kind of [ev] is one of [K]. *)
Definition only (K : list ekind) (ev : event) : Prop :=
  kind_in (kind ev) K = true.

(** The kinds of events each group of operations may produce. *)
Definition K_locate : list ekind := [KGrab; KSave].
Definition K_check : list ekind := [KGrab; KSave; KLog].
Definition K_click : list ekind := [KGrab; KSave; KLog; KClick].
Definition K_send : list ekind := [KGrab; KSave; KLog; KClick; KHotkey].
Definition K_keys : list ekind := [KKeyDown; KKeyUp; KPress].
Definition K_text : list ekind := [KClipCopy; KKeyDown; KKeyUp; KPress; KTypewrite].
Definition K_paste : list ekind := [KClipCopy; KKeyDown; KKeyUp; KPress].
Definition K_window : list ekind := [KRun; KActivate; KLog].
Definition K_session : list ekind :=
  [KRun; KActivate; KLog; KKeyDown; KKeyUp; KPress; KHotkey].
Definition K_link : list ekind :=
  [KRun; KActivate; KLog; KKeyDown; KKeyUp; KPress; KHotkey; KClipCopy].
Definition K_composer : list ekind :=
  [KRun; KActivate; KLog; KKeyDown; KKeyUp; KPress; KGrab; KSave].
Definition K_prompt : list ekind :=
  [KClipCopy; KKeyDown; KKeyUp; KPress; KGrab; KSave; KLog; KClick; KHotkey].

(** [keeps_captures m]: [m] never asks for a screen capture. *)
Definition keeps_captures {A} (m : M A) : Prop :=
  forall s, captures (snd (m s)) = captures s.

Definition K_workflow : list ekind :=
  [KRun; KActivate; KLog; KKeyDown; KKeyUp; KPress; KHotkey; KClipCopy;
   KGrab; KSave; KClick;
   KStep 1; KStep 2; KStep 3; KStep 4; KStep 5; KStep 6].

(** The positions clicked, in order. *)
Fixpoint clicks_of (l : list event) : list (option (Z * Z)) :=
  match l with
  | [] => []
  | Click pos :: rest => pos :: clicks_of rest
  | _ :: rest => clicks_of rest
  end.

(** Nothing on the screen ever matches. *)
Definition scene_blank (n code : Z) : Q := 1 # 10.

(** A world with a single enumerated monitor: monitor 1 does not exist. *)
Definition one_monitor_env : env :=
  {| env_platform := Windows;
     env_monitors := fun _ => [Monitor 0 0 1920 1080];
     env_grab := fun n mon => Screenshot (mon_width mon, mon_height mon) [Z.of_nat n];
     env_imread := demo_imread;
     env_match := demo_match scene_busy;
     env_windows := fun n title => [Window title];
     env_activate := fun _ _ => None;
     env_run := fun _ _ => Ok "";
     env_expandvars := fun p => p;
     env_path_exists := fun _ => false;
     env_cost := fun _ _ => 0%N;
     env_repr := fun t => "'" +:+ t +:+ "'";
     env_reject := fun callee _ => TypeError ("bad argument for " +:+ callee) |}.

(** The key events of a chord: the first key is held while the others are
    struck one after the other, then released. *)
Definition chord_events (darwin : bool) (first_key : string) (keys : list string)
  : list event :=
  [KeyDown first_key] ++
  (if darwin then flat_map (fun key => [KeyDown key; KeyUp key]) keys
   else Press <$> keys) ++
  [KeyUp first_key].

Definition chord_millis (darwin : bool) (keys : list string) : Z :=
  if darwin then 1500 + 600 * Z.of_nat (length keys)
  else 1000 + 500 * Z.of_nat (length keys).

(** The texts put on the clipboard, and the keys struck, in order. *)
Fixpoint clip_texts (l : list event) : list string :=
  match l with
  | [] => []
  | ClipCopy text :: rest => text :: clip_texts rest
  | _ :: rest => clip_texts rest
  end.

Fixpoint presses_of (l : list event) : list string :=
  match l with
  | [] => []
  | Press key :: rest => key :: presses_of rest
  | _ :: rest => presses_of rest
  end.

(** The modifier of the select-all, paste and send chords. *)
Definition modifier (E : env) : string :=
  if is_darwin (env_platform E) then "command" else "ctrl".

(** What the run may leave in the trace when the Composer panel never
    shows up. *)
Definition K_step1 : list ekind :=
  [KRun; KActivate; KLog; KKeyDown; KKeyUp; KPress; KGrab; KSave; KStep 1].

(** The example configuration without the per-file settle time. *)
Definition CONFIG_timeouts_no_per_file : gmap string atom :=
  delete "per_file" CONFIG_timeouts.

Definition CONFIG_no_per_file : gmap string cval :=
  <["wait_timeouts" := CDict CONFIG_timeouts_no_per_file]> CONFIG.

(** The timeout that [wait_execution] finds in the configuration, if any. *)
Definition configured_timeout (self : automator) : option Z :=
  match config self !! "wait_timeouts" with
  | Some (CDict tm) =>
      match tm !! "execution" with
      | Some (AInt t) => Some t
      | _ => None
      end
  | _ => None
  end.

(** What the run may leave in the trace when the task is empty. *)
Definition K_no_task : list ekind :=
  [KRun; KActivate; KLog; KKeyDown; KKeyUp; KPress; KHotkey; KClipCopy;
   KGrab; KSave; KStep 1; KStep 2; KStep 3].

(** The example configuration with no element under [ui_elements]. *)
Definition CONFIG_empty_ui : gmap string cval := CONFIG_with ∅.

(** The chords sent through [pyautogui.hotkey], in order. *)
Fixpoint hotkeys_of (l : list event) : list (list string) :=
  match l with
  | [] => []
  | Hotkey keys :: rest => keys :: hotkeys_of rest
  | _ :: rest => hotkeys_of rest
  end.

(** The numbers of the steps announced, in order. *)
Fixpoint steps_of (l : list event) : list nat :=
  match l with
  | [] => []
  | ev :: rest =>
      match kind ev with
      | KStep n => n :: steps_of rest
      | _ => steps_of rest
      end
  end.

(** The kinds of all events except step announcements. *)
Definition K_silent : list ekind :=
  [KLog; KGrab; KSave; KClick; KKeyDown; KKeyUp; KPress; KHotkey; KTypewrite;
   KClipCopy; KRun; KActivate].

(** [announces l m]: the steps that [m] announces, in order, are the first
    few of [l]. *)
Definition announces {A} (l : list nat) (m : M A) : Prop :=
  forall s, exists added,
    trace (snd (m s)) = trace s ++ added /\ steps_of added `prefix_of` l.

(** The key events (down, up, press), in order. *)
Fixpoint keys_of (l : list event) : list event :=
  match l with
  | [] => []
  | KeyDown key :: rest => KeyDown key :: keys_of rest
  | KeyUp key :: rest => KeyUp key :: keys_of rest
  | Press key :: rest => Press key :: keys_of rest
  | _ :: rest => keys_of rest
  end.

(** 1 for the result True, 0 for anything else. *)
Definition success_count (r : outcome bool) : nat :=
  match r with
  | Ret true => 1
  | _ => 0
  end.

(** The part of [execute_workflow] that precedes the focus check. *)
Definition workflow_until_gate (E : env) (self : automator) : M unit :=
  logger INFO "开始自动化工作流..." ;;
  open_project E self ;;
  time_sleep 3000.

(** The part that follows the opening of the Composer panel: steps 2
    to 6. *)
Definition workflow_after_open (E : env) (self : automator) (task : string)
    (files : list string) (fuel : nat) : M bool :=
  time_sleep 1000 ;;
  logger INFO "步骤2: 创建新会话" ;;
  new_session E self ;;
  time_sleep 1000 ;;
  logger INFO "步骤3: 关联文件" ;;
  link_files E self files ;;
  if negb (String.eqb task "") then
    logger INFO "步骤4: 输入任务提示" ;;
    focus_window E self ;;
    time_sleep 1000 ;;
    input_prompt E self task ;;
    logger INFO "步骤5: 等待执行完成" ;;
    wait_execution E self None fuel ;;
    logger INFO "步骤6: 接受更改" ;;
    accept_changes E self
  else ret true.

(** The part that follows a successful focus check: steps 1 to 6. *)
Definition workflow_after_gate (E : env) (self : automator) (task : string)
    (files : list string) (fuel : nat) : M bool :=
  logger INFO "步骤1: 打开Composer界面" ;;
  composer_opened <- open_composer E self ;;
  if negb composer_opened then
    logger ERROR "无法打开Composer，工作流中断" ;;
    ret false
  else workflow_after_open E self task files fuel.

(** The steps announced by a run that is not stopped: the last three
    only when there is a task. *)
Definition steps_announced (task : string) : list nat :=
  if String.eqb task "" then [1; 2; 3]%nat else [1; 2; 3; 4; 5; 6]%nat.

(** The Composer panel shows up at the third capture; the busy indicator
    (template 3) never does. *)
Definition scene_late_panel (n code : Z) : Q :=
  if code =? 3 then 5 # 10 else if n <? 2 then 1 # 10 else 95 # 100.

(** [runs_to l v m]: from every state [m] returns [v], and the steps it
    announces are exactly [l]. *)
Definition runs_to {A} (l : list nat) (v : A) (m : M A) : Prop :=
  forall s, exists s' added,
    m s = (Ret v, s') /\ trace s' = trace s ++ added /\ steps_of added = l.

(** [runs_quietly m]: from every state [m] returns, and announces no
    step. *)
Definition runs_quietly {A} (m : M A) : Prop :=
  forall s, exists a s' added,
    m s = (Ret a, s') /\ trace s' = trace s ++ added /\ steps_of added = [].

(** The workflow parameters that section 6 of the specification lists as
    supplied at construction: the window title, the hotkey chords, the
    timeouts and the template set. *)
Definition spec_required_keys : list string :=
  ["window_title"; "hotkeys"; "wait_timeouts"; "ui_elements"].

(** The specification's reading of the check: a configuration that lacks
    one of them is refused by the constructor. *)
Definition validates_workflow_keys : Prop :=
  forall cfg k s,
    k ∈ spec_required_keys -> cfg !! k = None ->
    exists e, fst (ComposerAutomator_init cfg s) = Raise e.

(** The example configuration without the window title. *)
Definition CONFIG_no_title : gmap string cval := delete "window_title" CONFIG.

(** * Properties *)

Section Framework.

Context (P : event -> Prop).

Lemma evolves_intro s s' added :
  clock s <= clock s' -> (captures s <= captures s')%nat ->
  trace s' = trace s ++ added -> Forall P added -> evolves P s s'.
Proof. intros Hc Hn Ht Hf. split; [exact Hc|]. split; [exact Hn|]. eauto. Qed.

Lemma evolves_refl s : evolves P s s.
Proof. apply (evolves_intro s s []); auto; try lia. by rewrite app_nil_r. Qed.

Lemma evolves_trans s1 s2 s3 :
  evolves P s1 s2 -> evolves P s2 s3 -> evolves P s1 s3.
Proof.
  intros (Hc1 & Hn1 & a1 & Ht1 & Hf1) (Hc2 & Hn2 & a2 & Ht2 & Hf2).
  apply (evolves_intro s1 s3 (a1 ++ a2)); try lia.
  - by rewrite Ht2, Ht1, app_assoc.
  - apply Forall_app; auto.
Qed.

Lemma emits_ret {A} (a : A) : emits P (ret a).
Proof. intros s. apply evolves_refl. Qed.

Lemma emits_raise {A} e : emits P (@raise A e).
Proof. intros s. apply evolves_refl. Qed.

Lemma emits_lift {A} (r : result A) : emits P (lift r).
Proof. destruct r; [apply emits_ret | apply emits_raise]. Qed.

Lemma emits_now E : emits P (now E).
Proof. intros s. apply evolves_refl. Qed.

Lemma emits_bind {A B} (m : M A) (k : A -> M B) :
  emits P m -> (forall a, emits P (k a)) -> emits P (bind m k).
Proof.
  intros Hm Hk s. unfold bind. specialize (Hm s).
  destruct (m s) as [[a|e|] s1]; simpl in *; auto.
  eapply evolves_trans; [exact Hm | apply Hk].
Qed.

Lemma emits_try {A} (m : M A) (h : exn -> M A) :
  emits P m -> (forall e, emits P (h e)) -> emits P (try_except m h).
Proof.
  intros Hm Hh s. unfold try_except. specialize (Hm s).
  destruct (m s) as [[a|e|] s1]; simpl in *; auto.
  eapply evolves_trans; [exact Hm | apply Hh].
Qed.

Lemma emits_emit ev : P ev -> emits P (emit ev).
Proof.
  intros Hev s. unfold emit; simpl.
  apply (evolves_intro _ _ [ev]); simpl; auto; lia.
Qed.

Lemma emits_sleep ms : emits P (time_sleep ms).
Proof.
  intros s. unfold time_sleep. destruct (ms <? 0) eqn:Hms; simpl.
  - apply evolves_refl.
  - apply Z.ltb_ge in Hms.
    apply (evolves_intro _ _ []); simpl; auto; try lia. by rewrite app_nil_r.
Qed.

Lemma emits_next_capture : emits P next_capture.
Proof.
  intros s. apply (evolves_intro _ _ []); simpl; auto; try lia. by rewrite app_nil_r.
Qed.

Lemma emits_next_focus : emits P next_focus.
Proof.
  intros s. apply (evolves_intro _ _ []); simpl; auto; try lia. by rewrite app_nil_r.
Qed.

Lemma emits_next_run : emits P next_run.
Proof.
  intros s. apply (evolves_intro _ _ []); simpl; auto; try lia. by rewrite app_nil_r.
Qed.

End Framework.

Lemma fuel_free_ret {A} (a : A) : fuel_free (ret a).
Proof. intros s; discriminate. Qed.

Lemma fuel_free_raise {A} e : fuel_free (@raise A e).
Proof. intros s; discriminate. Qed.

Lemma fuel_free_lift {A} (r : result A) : fuel_free (lift r).
Proof. destruct r; intros s; discriminate. Qed.

Lemma fuel_free_now E : fuel_free (now E).
Proof. intros s; discriminate. Qed.

Lemma fuel_free_emit ev : fuel_free (emit ev).
Proof. intros s; discriminate. Qed.

Lemma fuel_free_sleep ms : fuel_free (time_sleep ms).
Proof. intros s. unfold time_sleep. destruct (ms <? 0); discriminate. Qed.

Lemma fuel_free_next_capture : fuel_free next_capture.
Proof. intros s; discriminate. Qed.

Lemma fuel_free_next_focus : fuel_free next_focus.
Proof. intros s; discriminate. Qed.

Lemma fuel_free_next_run : fuel_free next_run.
Proof. intros s; discriminate. Qed.

Lemma fuel_free_bind {A B} (m : M A) (k : A -> M B) :
  fuel_free m -> (forall a, fuel_free (k a)) -> fuel_free (bind m k).
Proof.
  intros Hm Hk s. unfold bind. specialize (Hm s).
  destruct (m s) as [[a|e|] s1]; simpl in *; [apply Hk | discriminate | done].
Qed.

Lemma fuel_free_try {A} (m : M A) (h : exn -> M A) :
  fuel_free m -> (forall e, fuel_free (h e)) -> fuel_free (try_except m h).
Proof.
  intros Hm Hh s. unfold try_except. specialize (Hm s).
  destruct (m s) as [[a|e|] s1]; simpl in *; [discriminate | apply Hh | done].
Qed.

Create HintDb steps.

Ltac emits_step :=
  lazymatch goal with
  | |- emits _ (bind _ _) => apply emits_bind; [|intros ?]
  | |- emits _ (try_except _ _) => apply emits_try; [|intros ?]
  | |- emits _ (ret _) => apply emits_ret
  | |- emits _ (raise _) => apply emits_raise
  | |- emits _ (lift _) => apply emits_lift
  | |- emits _ (now _) => apply emits_now
  | |- emits _ (time_sleep _) => apply emits_sleep
  | |- emits _ next_capture => apply emits_next_capture
  | |- emits _ next_focus => apply emits_next_focus
  | |- emits _ next_run => apply emits_next_run
  | |- emits _ (emit _) => apply emits_emit; reflexivity
  | |- emits _ (if ?b then _ else _) => destruct b
  | |- emits _ (match ?x with _ => _ end) => destruct x
  | |- _ => first [ solve [auto with steps nocore] | progress cbv zeta ]
  end.

Ltac emits_auto := repeat emits_step.

Ltac fuel_step :=
  lazymatch goal with
  | |- fuel_free (bind _ _) => apply fuel_free_bind; [|intros ?]
  | |- fuel_free (try_except _ _) => apply fuel_free_try; [|intros ?]
  | |- fuel_free (ret _) => apply fuel_free_ret
  | |- fuel_free (raise _) => apply fuel_free_raise
  | |- fuel_free (lift _) => apply fuel_free_lift
  | |- fuel_free (now _) => apply fuel_free_now
  | |- fuel_free (time_sleep _) => apply fuel_free_sleep
  | |- fuel_free next_capture => apply fuel_free_next_capture
  | |- fuel_free next_focus => apply fuel_free_next_focus
  | |- fuel_free next_run => apply fuel_free_next_run
  | |- fuel_free (emit _) => apply fuel_free_emit
  | |- fuel_free (if ?b then _ else _) => destruct b
  | |- fuel_free (match ?x with _ => _ end) => destruct x
  | |- _ => first [ solve [auto with steps nocore] | progress cbv zeta ]
  end.

Ltac fuel_auto := repeat fuel_step.

Lemma capture_screen_b6 E i : emits before_step6 (capture_screen E i).
Proof. unfold capture_screen. emits_auto. Qed.
#[global] Hint Resolve capture_screen_b6 : steps.

Lemma check_element_exist_b6 E p c : emits before_step6 (check_element_exist E p c).
Proof. unfold check_element_exist. emits_auto. Qed.
#[global] Hint Resolve check_element_exist_b6 : steps.

Lemma safe_click_attempt_b6 E p : emits before_step6 (safe_click_attempt E p).
Proof. unfold safe_click_attempt, logger, pyautogui_click. emits_auto. Qed.
#[global] Hint Resolve safe_click_attempt_b6 : steps.

Lemma safe_click_b6 E self p n : emits before_step6 (safe_click E self p n).
Proof.
  unfold safe_click. induction (Z.to_nat n) as [|k IH]; simpl; unfold logger; emits_auto.
Qed.
#[global] Hint Resolve safe_click_b6 : steps.

Lemma exist_attempt_b6 E p : emits before_step6 (exist_attempt E p).
Proof. unfold exist_attempt, logger. emits_auto. Qed.
#[global] Hint Resolve exist_attempt_b6 : steps.

Lemma self_check_b6 E self p n i :
  emits before_step6 (self_check_element_exist E self p n i).
Proof.
  unfold self_check_element_exist. induction (Z.to_nat n) as [|k IH]; simpl; emits_auto.
Qed.
#[global] Hint Resolve self_check_b6 : steps.

Lemma input_text_b6 E self text lang : emits before_step6 (input_text E self text lang).
Proof. unfold input_text. emits_auto. Qed.
#[global] Hint Resolve input_text_b6 : steps.

Lemma hotkey_darwin_keys_b6 keys : emits before_step6 (hotkey_darwin_keys keys).
Proof. induction keys as [|k ks IH]; simpl; emits_auto. Qed.
#[global] Hint Resolve hotkey_darwin_keys_b6 : steps.

Lemma hotkey_press_keys_b6 keys : emits before_step6 (hotkey_press_keys keys).
Proof. induction keys as [|k ks IH]; simpl; emits_auto. Qed.
#[global] Hint Resolve hotkey_press_keys_b6 : steps.

Lemma _hotkey_b6 E self keys : emits before_step6 (_hotkey E self keys).
Proof. unfold _hotkey. emits_auto. Qed.
#[global] Hint Resolve _hotkey_b6 : steps.

Lemma cfg1_emits P self k : emits P (cfg1 self k).
Proof. unfold cfg1. apply emits_lift. Qed.
#[global] Hint Resolve cfg1_emits : steps.

Lemma cfg2_emits P self k1 k2 : emits P (cfg2 self k1 k2).
Proof. unfold cfg2. apply emits_bind; [apply emits_lift | intros; apply emits_lift]. Qed.
#[global] Hint Resolve cfg2_emits : steps.

Lemma sleep_atom_emits P E a : emits P (sleep_atom E a).
Proof. unfold sleep_atom. apply emits_bind; [apply emits_lift | intros; apply emits_sleep]. Qed.
#[global] Hint Resolve sleep_atom_emits : steps.

Lemma subprocess_run_b6 E c : emits before_step6 (subprocess_run E c).
Proof. unfold subprocess_run. emits_auto. Qed.
#[global] Hint Resolve subprocess_run_b6 : steps.

Lemma win_activate_b6 E n w : emits before_step6 (win_activate E n w).
Proof. unfold win_activate. emits_auto. Qed.
#[global] Hint Resolve win_activate_b6 : steps.

Lemma focus_window_b6 E self : emits before_step6 (focus_window E self).
Proof. unfold focus_window, logger. emits_auto. Qed.
#[global] Hint Resolve focus_window_b6 : steps.

Lemma open_project_search_b6 E self paths :
  emits before_step6 (open_project_search E self paths).
Proof. induction paths as [|p ps IH]; simpl; unfold logger; emits_auto. Qed.
#[global] Hint Resolve open_project_search_b6 : steps.

Lemma open_project_b6 E self : emits before_step6 (open_project E self).
Proof. unfold open_project, logger. emits_auto. Qed.
#[global] Hint Resolve open_project_b6 : steps.

Lemma open_composer_loop_b6 E self n : emits before_step6 (open_composer_loop E self n).
Proof. induction n as [|k IH]; simpl; unfold logger; emits_auto. Qed.
#[global] Hint Resolve open_composer_loop_b6 : steps.

Lemma open_composer_b6 E self : emits before_step6 (open_composer E self).
Proof. unfold open_composer, logger. emits_auto. Qed.
#[global] Hint Resolve open_composer_b6 : steps.

Lemma new_session_b6 E self : emits before_step6 (new_session E self).
Proof. unfold new_session, logger. emits_auto. Qed.
#[global] Hint Resolve new_session_b6 : steps.

Lemma link_files_loop_b6 E self files : emits before_step6 (link_files_loop E self files).
Proof. induction files as [|f fs IH]; simpl; unfold logger; emits_auto. Qed.
#[global] Hint Resolve link_files_loop_b6 : steps.

Lemma link_files_b6 E self files : emits before_step6 (link_files E self files).
Proof. unfold link_files, logger. emits_auto. Qed.
#[global] Hint Resolve link_files_b6 : steps.

Lemma send_message_b6 E self : emits before_step6 (send_message E self).
Proof. unfold send_message, logger. emits_auto. Qed.
#[global] Hint Resolve send_message_b6 : steps.

Lemma input_prompt_b6 E self prompt : emits before_step6 (input_prompt E self prompt).
Proof. unfold input_prompt, logger. emits_auto. Qed.
#[global] Hint Resolve input_prompt_b6 : steps.

Lemma poll_generating_b6 E self : emits before_step6 (poll_generating E self).
Proof. unfold poll_generating. emits_auto. Qed.
#[global] Hint Resolve poll_generating_b6 : steps.

Lemma wait_execution_loop_b6 E self start timeout fuel :
  emits before_step6 (wait_execution_loop E self start timeout fuel).
Proof.
  induction fuel as [|k IH]; simpl; unfold logger.
  - apply emits_bind; [apply emits_now | intros t].
    destruct (t - start <? seconds timeout); [|apply emits_raise].
    intros s. apply evolves_refl.
  - emits_auto.
Qed.
#[global] Hint Resolve wait_execution_loop_b6 : steps.

Lemma effective_timeout_emits P self t : emits P (effective_timeout self t).
Proof. unfold effective_timeout. emits_auto. Qed.
#[global] Hint Resolve effective_timeout_emits : steps.

Lemma wait_execution_b6 E self t fuel : emits before_step6 (wait_execution E self t fuel).
Proof. unfold wait_execution. emits_auto. Qed.
#[global] Hint Resolve wait_execution_b6 : steps.

(** None of the steps before the poll can run out of fuel. *)

Lemma capture_screen_fuel_free E i : fuel_free (capture_screen E i).
Proof. unfold capture_screen. fuel_auto. Qed.
#[global] Hint Resolve capture_screen_fuel_free : steps.

Lemma check_element_exist_fuel_free E p c : fuel_free (check_element_exist E p c).
Proof. unfold check_element_exist. fuel_auto. Qed.
#[global] Hint Resolve check_element_exist_fuel_free : steps.

Lemma safe_click_attempt_fuel_free E p : fuel_free (safe_click_attempt E p).
Proof. unfold safe_click_attempt, logger, pyautogui_click. fuel_auto. Qed.
#[global] Hint Resolve safe_click_attempt_fuel_free : steps.

Lemma safe_click_fuel_free E self p n : fuel_free (safe_click E self p n).
Proof. unfold safe_click. induction (Z.to_nat n) as [|k IH]; simpl; unfold logger; fuel_auto. Qed.
#[global] Hint Resolve safe_click_fuel_free : steps.

Lemma exist_attempt_fuel_free E p : fuel_free (exist_attempt E p).
Proof. unfold exist_attempt, logger. fuel_auto. Qed.
#[global] Hint Resolve exist_attempt_fuel_free : steps.

Lemma self_check_fuel_free E self p n i : fuel_free (self_check_element_exist E self p n i).
Proof. unfold self_check_element_exist. induction (Z.to_nat n) as [|k IH]; simpl; fuel_auto. Qed.
#[global] Hint Resolve self_check_fuel_free : steps.

Lemma input_text_fuel_free E self text lang : fuel_free (input_text E self text lang).
Proof. unfold input_text. fuel_auto. Qed.
#[global] Hint Resolve input_text_fuel_free : steps.

Lemma hotkey_darwin_keys_fuel_free keys : fuel_free (hotkey_darwin_keys keys).
Proof. induction keys as [|k ks IH]; simpl; fuel_auto. Qed.
#[global] Hint Resolve hotkey_darwin_keys_fuel_free : steps.

Lemma hotkey_press_keys_fuel_free keys : fuel_free (hotkey_press_keys keys).
Proof. induction keys as [|k ks IH]; simpl; fuel_auto. Qed.
#[global] Hint Resolve hotkey_press_keys_fuel_free : steps.

Lemma _hotkey_fuel_free E self keys : fuel_free (_hotkey E self keys).
Proof. unfold _hotkey. fuel_auto. Qed.
#[global] Hint Resolve _hotkey_fuel_free : steps.

Lemma cfg1_fuel_free self k : fuel_free (cfg1 self k).
Proof. unfold cfg1. fuel_auto. Qed.
#[global] Hint Resolve cfg1_fuel_free : steps.

Lemma cfg2_fuel_free self k1 k2 : fuel_free (cfg2 self k1 k2).
Proof. unfold cfg2. fuel_auto. Qed.
#[global] Hint Resolve cfg2_fuel_free : steps.

Lemma sleep_atom_fuel_free E a : fuel_free (sleep_atom E a).
Proof. unfold sleep_atom. fuel_auto. Qed.
#[global] Hint Resolve sleep_atom_fuel_free : steps.

Lemma subprocess_run_fuel_free E c : fuel_free (subprocess_run E c).
Proof. unfold subprocess_run. fuel_auto. Qed.
#[global] Hint Resolve subprocess_run_fuel_free : steps.

Lemma win_activate_fuel_free E n w : fuel_free (win_activate E n w).
Proof. unfold win_activate. fuel_auto. Qed.
#[global] Hint Resolve win_activate_fuel_free : steps.

Lemma focus_window_fuel_free E self : fuel_free (focus_window E self).
Proof. unfold focus_window, logger. fuel_auto. Qed.
#[global] Hint Resolve focus_window_fuel_free : steps.

Lemma open_project_search_fuel_free E self paths : fuel_free (open_project_search E self paths).
Proof. induction paths as [|p ps IH]; simpl; unfold logger; fuel_auto. Qed.
#[global] Hint Resolve open_project_search_fuel_free : steps.

Lemma open_project_fuel_free E self : fuel_free (open_project E self).
Proof. unfold open_project, logger. fuel_auto. Qed.
#[global] Hint Resolve open_project_fuel_free : steps.

Lemma open_composer_loop_fuel_free E self n : fuel_free (open_composer_loop E self n).
Proof. induction n as [|k IH]; simpl; unfold logger; fuel_auto. Qed.
#[global] Hint Resolve open_composer_loop_fuel_free : steps.

Lemma open_composer_fuel_free E self : fuel_free (open_composer E self).
Proof. unfold open_composer, logger. fuel_auto. Qed.
#[global] Hint Resolve open_composer_fuel_free : steps.

Lemma new_session_fuel_free E self : fuel_free (new_session E self).
Proof. unfold new_session, logger. fuel_auto. Qed.
#[global] Hint Resolve new_session_fuel_free : steps.

Lemma link_files_loop_fuel_free E self files : fuel_free (link_files_loop E self files).
Proof. induction files as [|f fs IH]; simpl; unfold logger; fuel_auto. Qed.
#[global] Hint Resolve link_files_loop_fuel_free : steps.

Lemma link_files_fuel_free E self files : fuel_free (link_files E self files).
Proof. unfold link_files, logger. fuel_auto. Qed.
#[global] Hint Resolve link_files_fuel_free : steps.

Lemma send_message_fuel_free E self : fuel_free (send_message E self).
Proof. unfold send_message, logger. fuel_auto. Qed.
#[global] Hint Resolve send_message_fuel_free : steps.

Lemma input_prompt_fuel_free E self prompt : fuel_free (input_prompt E self prompt).
Proof. unfold input_prompt, logger. fuel_auto. Qed.
#[global] Hint Resolve input_prompt_fuel_free : steps.

Lemma poll_generating_fuel_free E self : fuel_free (poll_generating E self).
Proof. unfold poll_generating. fuel_auto. Qed.
#[global] Hint Resolve poll_generating_fuel_free : steps.

Lemma effective_timeout_fuel_free self t : fuel_free (effective_timeout self t).
Proof. unfold effective_timeout. fuel_auto. Qed.
#[global] Hint Resolve effective_timeout_fuel_free : steps.

Lemma accept_changes_fuel_free E self : fuel_free (accept_changes E self).
Proof. unfold accept_changes. fuel_auto. Qed.
#[global] Hint Resolve accept_changes_fuel_free : steps.

(** Opening the project and focusing the window inject no input. *)

Lemma subprocess_run_no_input E c : emits no_input (subprocess_run E c).
Proof. unfold subprocess_run. emits_auto. Qed.
#[global] Hint Resolve subprocess_run_no_input : steps.

Lemma win_activate_no_input E n w : emits no_input (win_activate E n w).
Proof. unfold win_activate. emits_auto. Qed.
#[global] Hint Resolve win_activate_no_input : steps.

Lemma focus_window_no_input E self : emits no_input (focus_window E self).
Proof. unfold focus_window, logger. emits_auto. Qed.
#[global] Hint Resolve focus_window_no_input : steps.

Lemma open_project_search_no_input E self paths :
  emits no_input (open_project_search E self paths).
Proof. induction paths as [|p ps IH]; simpl; unfold logger; emits_auto. Qed.
#[global] Hint Resolve open_project_search_no_input : steps.

Lemma open_project_no_input E self : emits no_input (open_project E self).
Proof. unfold open_project, logger. emits_auto. Qed.
#[global] Hint Resolve open_project_no_input : steps.

(** ** The locator *)

Lemma Qle_bool_false (x y : Q) : (y < x)%Q -> Qle_bool x y = false.
Proof.
  intros Hlt. destruct (Qle_bool x y) eqn:Hb; [|reflexivity].
  apply Qle_bool_iff in Hb. exfalso. exact (Qlt_not_le _ _ Hlt Hb).
Qed.

(** C1: given a captured screen image, a readable template and the
    matcher's statistics for them, the locate operation returns
    (True, centre) with centre = best-match offset plus half the template's
    width and height (floor division) when the best score is at least the
    confidence [c], and (False, None) when the score is below [c]. *)
Theorem check_element_exist_threshold E path c s img s1 tpl st :
  capture_screen E 1 s = (Ret img, s1) ->
  env_imread E path = Some tpl ->
  env_match E img tpl = Ok st ->
  ((c <= max_val st)%Q ->
   fst (check_element_exist E (AStr path) c s) =
     Ret (true, Some (fst (max_loc st) + tpl_w tpl / 2,
                      snd (max_loc st) + tpl_h tpl / 2))) /\
  ((max_val st < c)%Q ->
   fst (check_element_exist E (AStr path) c s) = Ret (false, None)).
Proof.
  intros Hcap Hread Hmatch.
  unfold check_element_exist, bind. rewrite Hcap. cbn.
  rewrite Hread, Hmatch. cbn. split; intros Hc.
  - apply Qle_bool_iff in Hc. rewrite Hc. reflexivity.
  - rewrite (Qle_bool_false _ _ Hc). reflexivity.
Qed.

(** Scenario A of the specification: score 0.95 against the default
    confidence 0.8 yields the centre of the send button. *)
Lemma check_element_exist_threshold_witness :
  fst (check_element_exist (demo_env Windows scene_idle (fun _ => true))
         (AStr "./images/windows/send_button.png") default_confidence s0)
  = Ret (true, Some (130, 212)).
Proof.
  refine (proj1 (check_element_exist_threshold
                   (demo_env Windows scene_idle (fun _ => true))
                   "./images/windows/send_button.png" default_confidence s0
                   (Image "RGB" (1920, 1080) [0])
                   (State 0 1 0 0 [Grab (Monitor 0 0 1920 1080)])
                   tpl_send_button
                   (MatchStats 0 (95 # 100) (0, 0) (100, 200))
                   eq_refl eq_refl eq_refl) _).
  unfold default_confidence, Qle; simpl; lia.
Defined.

(** Scenario B: score 0.5 is below 0.8, the element is absent. *)
Example locate_absent :
  fst (check_element_exist (demo_env Windows scene_idle (fun _ => true))
         (AStr "./images/windows/generating.png") default_confidence s0)
  = Ret (false, None).
Proof. reflexivity. Qed.

(** C9: for a fixed screen, template and score, a match that is found at
    the higher threshold [c2] is also found at any lower threshold [c1]. *)
Theorem threshold_monotone E p c1 c2 s :
  (c1 < c2)%Q ->
  found (fst (check_element_exist E p c2 s)) = true ->
  found (fst (check_element_exist E p c1 s)) = true.
Proof.
  intros Hlt. unfold check_element_exist, bind.
  destruct (capture_screen E 1 s) as [[img|e|] s1]; cbn; try discriminate.
  destruct p as [path|n|l]; cbn; try discriminate.
  destruct (env_imread E path) as [tpl|]; cbn; try discriminate.
  destruct (env_match E img tpl) as [st|e]; cbn; try discriminate.
  destruct (Qle_bool c2 (max_val st)) eqn:H2; cbn; try discriminate.
  intros _. apply Qle_bool_iff in H2.
  assert (H1 : Qle_bool c1 (max_val st) = true).
  { apply Qle_bool_iff. apply Qle_trans with c2; [apply Qlt_le_weak; exact Hlt | exact H2]. }
  rewrite H1. reflexivity.
Qed.

Lemma threshold_monotone_witness :
  found (fst (check_element_exist (demo_env Windows scene_idle (fun _ => true))
                (AStr "./images/windows/send_button.png") (5 # 10) s0)) = true.
Proof.
  apply (threshold_monotone _ _ (5 # 10) (9 # 10)).
  - unfold Qlt; simpl; lia.
  - reflexivity.
Defined.

(** ** Screen capture *)

(** X1: for a non-negative index the guard of [capture_screen] is exact: the
    call raises [ValueError] when the index is at least the number of
    enumerated monitors, and otherwise grabs the monitor at that index. *)
Lemma capture_screen_nonneg E (m : Z) s :
  0 <= m ->
  let monitors := env_monitors E (captures s) in
  (Z.of_nat (length monitors) <= m ->
     exists msg, fst (capture_screen E m s) = Raise (ValueError msg)) /\
  (m < Z.of_nat (length monitors) ->
     exists mon, monitors !! Z.to_nat m = Some mon /\
       fst (capture_screen E m s) =
         Ret (Image "RGB" (shot_size (env_grab E (captures s) mon))
                          (shot_rgb (env_grab E (captures s) mon)))).
Proof.
  intros Hm monitors. unfold capture_screen, bind. cbn. fold monitors. split; intros Hr.
  - apply Z.leb_le in Hr. rewrite Hr. eexists; reflexivity.
  - assert (Hl : (Z.of_nat (length monitors) <=? m) = false) by (apply Z.leb_gt; lia).
    rewrite Hl. unfold py_index.
    assert (Hneg : (m <? 0) = false) by (apply Z.ltb_ge; lia).
    rewrite Hneg.
    assert (H0 : (0 <=? m) = true) by (apply Z.leb_le; lia).
    assert (H1 : (m <? Z.of_nat (length monitors)) = true) by (apply Z.ltb_lt; lia).
    rewrite H0, H1. cbn.
    destruct (monitors !! Z.to_nat m) as [mon|] eqn:Hlook.
    + exists mon. split; [reflexivity|]. reflexivity.
    + apply lookup_ge_None in Hlook. lia.
Qed.

(** C8 (divergence): with two monitors enumerated, index -1 is not
    rejected but captures the last monitor, and index -3 fails with
    [IndexError] instead of the [ValueError] of the range check. *)
Theorem capture_screen_negative_index :
  let E := demo_env Windows scene_idle (fun _ => true) in
  fst (capture_screen E (-1) s0) = Ret (Image "RGB" (1920, 1080) [0]) /\
  fst (capture_screen E (-3) s0) = Raise (IndexError "list index out of range") /\
  (exists msg, fst (capture_screen E 2 s0) = Raise (ValueError msg)).
Proof.
  cbv zeta. split; [reflexivity|]. split; [reflexivity|].
  eexists. reflexivity.
Qed.

(** ** Bounded-count retry *)

(** The outcome of a locate depends on the state only through the number
    of earlier captures, and every locate consumes exactly one capture. *)
Lemma check_element_exist_at E p c s :
  fst (check_element_exist E p c s) = locate_at E (captures s) p c /\
  captures (snd (check_element_exist E p c s)) = S (captures s) /\
  clock (snd (check_element_exist E p c s)) = clock s.
Proof.
  unfold locate_at, check_element_exist, capture_screen, bind, blank. cbn.
  destruct (Z.of_nat (length (env_monitors E (captures s))) <=? 1); cbn; [done|].
  destruct (py_index (env_monitors E (captures s)) 1) as [mon|e]; cbn; [|done].
  destruct p as [path|n|l]; cbn; [|done|done].
  destruct (env_imread E path) as [tpl|]; cbn; [|done].
  destruct (env_match E _ tpl) as [st|e]; cbn; [|done].
  destruct (Qle_bool c (max_val st)); done.
Qed.

Lemma safe_click_attempt_spec E p s :
  fst (safe_click_attempt E p s) =
    Ret (if attempt_ok E p (captures s) then Some true else None) /\
  captures (snd (safe_click_attempt E p s)) = S (captures s) /\
  clock (snd (safe_click_attempt E p s)) = clock s.
Proof.
  destruct (check_element_exist_at E p default_confidence s) as (Hr & Hn & Hc).
  unfold attempt_ok. rewrite <- Hr.
  pose proof (check_element_exist_fuel_free E p default_confidence s) as Hff.
  unfold safe_click_attempt, try_except, bind, logger, pyautogui_click.
  destruct (check_element_exist E p default_confidence s) as [[[b pos]|e|] s1];
    cbn in *; try done.
  destruct b; cbn; done.
Qed.

Lemma exist_attempt_spec E p s :
  fst (exist_attempt E p s) =
    Ret (if attempt_ok E p (captures s) then Some true else None) /\
  captures (snd (exist_attempt E p s)) = S (captures s) /\
  clock (snd (exist_attempt E p s)) = clock s.
Proof.
  destruct (check_element_exist_at E p default_confidence s) as (Hr & Hn & Hc).
  unfold attempt_ok. rewrite <- Hr.
  pose proof (check_element_exist_fuel_free E p default_confidence s) as Hff.
  unfold exist_attempt, try_except, bind, logger.
  destruct (check_element_exist E p default_confidence s) as [[[b pos]|e|] s1];
    cbn in *; try done.
  destruct b; cbn; done.
Qed.

Lemma retry_result_step E p c0 n r :
  attempt_ok E p c0 = false ->
  retry_result E p (S c0) n r -> retry_result E p c0 (S n) r.
Proof.
  intros H0 [(k & Hk & Hbefore & Hat & Hr & Hn) | (Hall & Hr & Hn)].
  - left. exists (S k). split; [lia|]. split.
    + intros [|j] Hj; [by rewrite Nat.add_0_r|].
      replace (c0 + S j)%nat with (S c0 + j)%nat by lia. apply Hbefore. lia.
    + replace (c0 + S k)%nat with (S c0 + k)%nat by lia.
      split; [done|]. split; [done|lia].
  - right. split.
    + intros [|j] Hj; [by rewrite Nat.add_0_r|].
      replace (c0 + S j)%nat with (S c0 + j)%nat by lia. apply Hall. lia.
    + split; [done|lia].
Qed.

Lemma safe_click_loop_spec E p n s :
  retry_result E p (captures s) n (safe_click_loop E p n s).
Proof.
  revert s. induction n as [|n IH]; intros s.
  - right. cbn. split; [intros j Hj; lia|]. split; [done|]. cbn. lia.
  - destruct (safe_click_attempt_spec E p s) as (Hr & Hn & Hc).
    cbn [safe_click_loop]. unfold bind at 1.
    destruct (safe_click_attempt E p s) as [o s1]. cbn in Hr, Hn, Hc. subst o.
    destruct (attempt_ok E p (captures s)) eqn:Hok.
    + left. exists 0%nat. split; [lia|]. split; [intros j Hj; lia|].
      rewrite Nat.add_0_r. split; [done|]. cbn. split; [done|lia].
    + apply retry_result_step; [done|].
      unfold bind, time_sleep. cbn.
      rewrite <- Hn. exact (IH (advanced s1 1000)).
Qed.

Lemma exist_loop_spec E p interval n s :
  0 <= interval ->
  retry_result E p (captures s) n (exist_loop E p interval n s).
Proof.
  intros Hi. revert s. induction n as [|n IH]; intros s.
  - right. cbn. split; [intros j Hj; lia|]. split; [done|]. cbn. lia.
  - destruct (exist_attempt_spec E p s) as (Hr & Hn & Hc).
    cbn [exist_loop]. unfold bind at 1.
    destruct (exist_attempt E p s) as [o s1]. cbn in Hr, Hn, Hc. subst o.
    destruct (attempt_ok E p (captures s)) eqn:Hok.
    + left. exists 0%nat. split; [lia|]. split; [intros j Hj; lia|].
      rewrite Nat.add_0_r. split; [done|]. cbn. split; [done|lia].
    + apply retry_result_step; [done|].
      unfold bind, time_sleep, seconds.
      assert (Hs : (1000 * interval <? 0) = false) by (apply Z.ltb_ge; lia).
      rewrite Hs.
      rewrite <- Hn. exact (IH (advanced s1 (1000 * interval))).
Qed.

(** C6: for N >= 1, both bounded-count retries ([safe_click], and the
    method [check_element_exist] with a non-negative interval) invoke the
    locate at most N times, return True at the first attempt that succeeds
    without making another, and return False only after exactly N failed
    attempts. *)
Theorem bounded_count_retry E self p (N interval : Z) s r :
  1 <= N -> 0 <= interval ->
  r = safe_click E self p N s \/ r = self_check_element_exist E self p N interval s ->
  let c0 := captures s in
  let used := (captures (snd r) - c0)%nat in
  Z.of_nat used <= N /\
  (fst r = Ret true \/ fst r = Ret false) /\
  (fst r = Ret true ->
     (1 <= used)%nat /\ attempt_ok E p (c0 + (used - 1)) = true /\
     forall j, (j < used - 1)%nat -> attempt_ok E p (c0 + j) = false) /\
  ((exists k, Z.of_nat k < N /\ attempt_ok E p (c0 + k) = true) -> fst r = Ret true) /\
  (fst r = Ret false ->
     Z.of_nat used = N /\ forall j, (j < used)%nat -> attempt_ok E p (c0 + j) = false).
Proof.
  intros HN Hi Hr c0 used.
  assert (Hspec : retry_result E p c0 (Z.to_nat N) r).
  { destruct Hr as [-> | ->].
    - apply safe_click_loop_spec.
    - apply exist_loop_spec. exact Hi. }
  subst used.
  destruct Hspec as [(k & Hk & Hbefore & Hat & Hres & Hn) | (Hall & Hres & Hn)];
    rewrite Hn, Hres.
  - replace (c0 + k + 1 - c0)%nat with (S k) by lia.
    split; [lia|]. split; [by left|]. split.
    + intros _. split; [lia|].
      replace (S k - 1)%nat with k by lia. split; [done|]. exact Hbefore.
    + split; [done|]. discriminate.
  - replace (c0 + Z.to_nat N - c0)%nat with (Z.to_nat N) by lia.
    split; [lia|]. split; [by right|]. split; [discriminate|]. split.
    + intros (k & Hk & Hok). rewrite Hall in Hok; [discriminate|lia].
    + intros _. split; [lia|]. exact Hall.
Qed.

(** The send button appears on the third capture: three attempts, the
    last one succeeds. *)
Lemma bounded_count_retry_witness :
  let E := demo_env Windows scene_late (fun _ => true) in
  let r := safe_click E (Automator CONFIG) (AStr "./images/windows/send_button.png") 3 s0 in
  Z.of_nat (captures (snd r) - captures s0) <= 3 /\
  (fst r = Ret true \/ fst r = Ret false).
Proof.
  intros E r.
  pose proof (bounded_count_retry E (Automator CONFIG)
                (AStr "./images/windows/send_button.png") 3 2 s0 r
                ltac:(lia) ltac:(lia) (or_introl eq_refl)) as H.
  exact (conj (proj1 H) (proj1 (proj2 H))).
Defined.

Example safe_click_third_attempt :
  let E := demo_env Windows scene_late (fun _ => true) in
  let r := safe_click E (Automator CONFIG) (AStr "./images/windows/send_button.png") 3 s0 in
  fst r = Ret true /\ captures (snd r) = 3%nat.
Proof. split; reflexivity. Qed.

(** ** Bounded-time poll *)

Lemma busy_from_app cost i l1 l2 :
  busy_from cost i (l1 ++ l2) =
  busy_from cost i l1 + busy_from cost (i + length l1) l2.
Proof.
  revert i. induction l1 as [|ev l1 IH]; intros i; cbn.
  - by rewrite Nat.add_0_r.
  - rewrite IH. replace (S i + length l1)%nat with (i + S (length l1))%nat by lia. lia.
Qed.

Lemma busy_from_nonneg cost i l : 0 <= busy_from cost i l.
Proof. revert i. induction l as [|ev l IH]; intros i; cbn; [lia|]. specialize (IH (S i)). lia. Qed.

(** The wall clock runs at least as fast as the program sleeps. *)
Lemma evolves_wall E P s s' :
  evolves P s s' -> clock s' - clock s <= wall E s' - wall E s.
Proof.
  intros (_ & _ & added & Ht & _). unfold wall. rewrite Ht, busy_from_app.
  pose proof (busy_from_nonneg (env_cost E) (0 + length (trace s)) added). lia.
Qed.

Lemma wall_advanced E s ms : wall E (advanced s ms) = wall E s + ms.
Proof. unfold wall, advanced. cbn. lia. Qed.

(** One pass of the [while] loop of [wait_execution]. *)
Lemma wait_execution_loop_unfold E self start timeout fuel s :
  wait_execution_loop E self start timeout fuel s =
  if wall E s - start <? seconds timeout then
    match fuel with
    | O => (OutOfFuel, s)
    | S fuel' =>
        match poll_generating E self s with
        | (Ret true, s1) =>
            wait_execution_loop E self start timeout fuel' (advanced s1 5000)
        | (Ret false, s1) => (Ret true, with_event s1 (Log INFO "执行已完成"))
        | (Raise e, s1) =>
            (Ret false, with_event s1 (Log ERROR ("等待执行完成失败: " +:+ str_exn e)))
        | (OutOfFuel, s1) => (OutOfFuel, s1)
        end
    end
  else (Raise (TimeoutError "执行超时"), s).
Proof.
  destruct fuel as [|fuel']; cbn [wait_execution_loop]; unfold bind at 1; cbn [now].
  - destruct (wall E s - start <? seconds timeout); reflexivity.
  - destruct (wall E s - start <? seconds timeout); [|reflexivity].
    unfold bind at 1, try_except, bind at 1.
    destruct (poll_generating E self s) as [[[|]|e|] s1]; reflexivity.
Qed.

Lemma poll_generating_clock E self s :
  wall E s <= wall E (snd (poll_generating E self s)).
Proof.
  pose proof (evolves_wall E _ _ _ (poll_generating_b6 E self s)) as Hw.
  destruct (poll_generating_b6 E self s) as (Hc & _). lia.
Qed.

(** The poll loop raises nothing but the timeout. *)
Lemma wait_execution_loop_raises E self start timeout fuel s e :
  fst (wait_execution_loop E self start timeout fuel s) = Raise e ->
  e = TimeoutError "执行超时".
Proof.
  revert s. induction fuel as [|fuel IH]; intros s; rewrite wait_execution_loop_unfold.
  - destruct (wall E s - start <? seconds timeout); cbn; congruence.
  - destruct (wall E s - start <? seconds timeout); cbn; [|congruence].
    destruct (poll_generating E self s) as [[[|]|e'|] s1]; cbn; try congruence.
    apply IH.
Qed.

(** Enough fuel: one unit per five seconds of remaining time. *)
Lemma wait_execution_loop_total E self start timeout fuel s :
  seconds timeout - (wall E s - start) <= 5000 * Z.of_nat fuel ->
  fst (wait_execution_loop E self start timeout fuel s) <> OutOfFuel.
Proof.
  revert s. induction fuel as [|fuel IH]; intros s Hf; rewrite wait_execution_loop_unfold.
  - destruct (wall E s - start <? seconds timeout) eqn:Ht; cbn; [|discriminate].
    apply Z.ltb_lt in Ht. lia.
  - destruct (wall E s - start <? seconds timeout) eqn:Ht; cbn; [|discriminate].
    pose proof (poll_generating_clock E self s) as Hc.
    pose proof (poll_generating_fuel_free E self s) as Hff.
    destruct (poll_generating E self s) as [[[|]|e'|] s1]; cbn in *;
      try discriminate; try done.
    apply IH. rewrite wall_advanced. lia.
Qed.

Lemma retry_result_returns E p c0 n r :
  retry_result E p c0 n r -> exists b, fst r = Ret b.
Proof.
  intros [(k & _ & _ & _ & Hr & _) | (_ & Hr & _)]; eauto.
Qed.

Lemma safe_click_loop_raise E p n s e s1 :
  check_element_exist E p default_confidence s = (Raise e, s1) ->
  safe_click_loop E p (S n) s =
    safe_click_loop E p n
      (advanced (with_event s1 (Log WARNING ("定位图像时出错: " +:+ str_exn e))) 1000).
Proof.
  intros Hraise. cbn [safe_click_loop].
  unfold bind at 1, safe_click_attempt, try_except, bind at 1.
  rewrite Hraise. reflexivity.
Qed.

Lemma exist_loop_raise E p interval n s e s1 :
  0 <= interval ->
  check_element_exist E p default_confidence s = (Raise e, s1) ->
  exist_loop E p interval (S n) s =
    exist_loop E p interval n
      (advanced (with_event s1 (Log WARNING ("元素不存在: " +:+ str_exn e)))
         (seconds interval)).
Proof.
  intros Hi Hraise. cbn [exist_loop].
  unfold bind at 1, exist_attempt, try_except, bind at 1.
  rewrite Hraise. unfold logger, bind, emit, ret, time_sleep, seconds.
  assert (Hs : (1000 * interval <? 0) = false) by (apply Z.ltb_ge; lia).
  rewrite Hs. reflexivity.
Qed.

(** The polled expression raises only when the element is not found in
    the configuration: the retry inside it absorbs everything else. *)
Lemma poll_generating_raises E self s e s1 :
  poll_generating E self s = (Raise e, s1) ->
  s1 = s /\ cfg2 self "ui_elements" "generating" s = (Raise e, s).
Proof.
  unfold poll_generating, bind.
  assert (Hcfg : snd (cfg2 self "ui_elements" "generating" s) = s).
  { unfold cfg2, bind, config_get.
    destruct (config self !! "ui_elements") as [v|]; cbn; [|done].
    destruct (subscript v "generating"); done. }
  destruct (cfg2 self "ui_elements" "generating" s) as [[img|e'|] s'] eqn:Hlook;
    cbn in Hcfg; subst s'.
  - intros Hpoll.
    destruct (retry_result_returns _ _ _ _ _
                (exist_loop_spec E img 2 (Z.to_nat 3) s ltac:(lia))) as [b Hb].
    unfold self_check_element_exist in Hpoll. rewrite Hpoll in Hb. discriminate.
  - intros [= -> ->]. done.
  - discriminate.
Qed.

Lemma effective_timeout_state self arg s :
  snd (effective_timeout self arg s) = s.
Proof.
  assert (Hcfg : snd ((a <- cfg2 self "wait_timeouts" "execution" ;; lift (as_timeout a)) s) = s).
  { unfold cfg2, bind, config_get.
    destruct (config self !! "wait_timeouts") as [v|]; cbn; [|done].
    destruct (subscript v "execution") as [a|]; cbn; [|done].
    destruct (as_timeout a); done. }
  unfold effective_timeout. destruct arg as [t|]; [|exact Hcfg].
  destruct (t =? 0); [exact Hcfg|done].
Qed.

(** C2 (as the code has it): in both bounded-count retries an exception
    raised by the locate of one attempt is logged as a warning, is not
    propagated, and after the delay the loop goes on with the remaining
    attempts; the retry always returns a boolean, True whenever one of
    the N attempts finds the element, and False only after N attempts.
    In the bounded-time poll the polled operation is such a retry, so
    the only exception the poll's handler can see is a failed lookup of
    the element in the configuration: it is logged as an error and ends
    the wait at once with False, without polling again.  The exceptions
    that leave [wait_execution] are the timeout and an error of reading
    the timeout from the configuration, which happens before the loop. *)
Theorem retry_exception_handling E self p (N interval : Z) arg fuel s :
  1 <= N -> 0 <= interval ->
  (forall e s1,
     check_element_exist E p default_confidence s = (Raise e, s1) ->
     safe_click E self p N s =
       safe_click E self p (N - 1)
         (advanced (with_event s1 (Log WARNING ("定位图像时出错: " +:+ str_exn e))) 1000) /\
     self_check_element_exist E self p N interval s =
       self_check_element_exist E self p (N - 1) interval
         (advanced (with_event s1 (Log WARNING ("元素不存在: " +:+ str_exn e)))
            (seconds interval))) /\
  (forall r,
     r = safe_click E self p N s \/ r = self_check_element_exist E self p N interval s ->
     (exists b, fst r = Ret b) /\
     ((exists k, Z.of_nat k < N /\ attempt_ok E p (captures s + k) = true) ->
        fst r = Ret true) /\
     (fst r = Ret false -> Z.of_nat (captures (snd r)) = Z.of_nat (captures s) + N)) /\
  (forall e s1,
     poll_generating E self s = (Raise e, s1) ->
     s1 = s /\ cfg2 self "ui_elements" "generating" s = (Raise e, s)) /\
  (forall timeout e,
     effective_timeout self arg s = (Ret timeout, s) -> 0 < timeout ->
     cfg2 self "ui_elements" "generating" s = (Raise e, s) ->
     wait_execution E self arg (S fuel) s =
       (Ret false, with_event s (Log ERROR ("等待执行完成失败: " +:+ str_exn e)))) /\
  (forall e,
     fst (wait_execution E self arg fuel s) = Raise e ->
     fst (effective_timeout self arg s) = Raise e \/ e = TimeoutError "执行超时").
Proof.
  intros HN Hi. split; [|split; [|split; [|split]]].
  - intros e s1 Hraise. unfold safe_click, self_check_element_exist.
    replace (Z.to_nat N) with (S (Z.to_nat (N - 1))) by lia.
    split; [by apply safe_click_loop_raise | by apply exist_loop_raise].
  - intros r Hr.
    assert (Hspec : retry_result E p (captures s) (Z.to_nat N) r).
    { destruct Hr as [-> | ->]; [apply safe_click_loop_spec | by apply exist_loop_spec]. }
    destruct Hspec as [(k & Hk & _ & _ & Hres & _) | (Hall & Hres & Hn)]; rewrite Hres.
    + split; [eauto|]. split; [done|discriminate].
    + split; [eauto|]. split.
      * intros (k & Hk & Hok). rewrite Hall in Hok; [discriminate|lia].
      * intros _. rewrite Hn. lia.
  - apply poll_generating_raises.
  - intros timeout e Heff Hpos Hlook. unfold wait_execution, bind at 1.
    rewrite Heff. unfold bind at 1. cbn [now].
    rewrite wait_execution_loop_unfold.
    assert (Ht : (wall E s - wall E s <? seconds timeout) = true)
      by (apply Z.ltb_lt; unfold seconds; lia).
    rewrite Ht.
    assert (Hpoll : poll_generating E self s = (Raise e, s))
      by (unfold poll_generating, bind; rewrite Hlook; reflexivity).
    rewrite Hpoll. reflexivity.
  - intros e. unfold wait_execution, bind at 1.
    pose proof (effective_timeout_state self arg s) as Hst.
    destruct (effective_timeout self arg s) as [[timeout|e'|] s'] eqn:Heff;
      cbn in Hst; subst s'; cbn.
    + unfold bind. cbn [now]. intros Hraise. right.
      eapply wait_execution_loop_raises. exact Hraise.
    + intros [= ->]. by left.
    + discriminate.
Qed.

(** The matcher fails on the first capture: [safe_click] logs the
    warning, sleeps a second and goes on with the two attempts left. *)
Lemma retry_exception_handling_witness :
  let self := Automator CONFIG in
  let p := AStr "./images/windows/send_button.png" in
  safe_click flaky_env self p 3 s0 =
    safe_click flaky_env self p (3 - 1)
      (advanced
         (with_event (State 0 1 0 0 [Grab (Monitor 0 0 1920 1080); SaveDebug 0])
            (Log WARNING "定位图像时出错: matchTemplate failed")) 1000).
Proof.
  intros self p.
  exact (proj1 (proj1 (retry_exception_handling flaky_env self p 3 2 None 0%nat s0
                         ltac:(lia) ltac:(lia))
                  (OtherError "cv2.error" "matchTemplate failed")
                  (State 0 1 0 0 [Grab (Monitor 0 0 1920 1080); SaveDebug 0])
                  eq_refl)).
Defined.

(** The failed first attempt costs one capture and one second; the
    second attempt clicks. *)
Example safe_click_after_exception :
  let r := safe_click flaky_env (Automator CONFIG)
             (AStr "./images/windows/send_button.png") 3 s0 in
  fst r = Ret true /\ captures (snd r) = 2%nat /\ clock (snd r) = 1000 /\
  last (trace (snd r)) = Some (Click (Some (130, 212))).
Proof. repeat split; reflexivity. Qed.

(** C2 (counterexample): with the [generating] element missing from the
    configuration and a timeout of 300 seconds, the first poll raises
    [KeyError]; the wait returns False at once, at clock 0, without
    retrying and long before the deadline. *)
Lemma poll_stops_on_exception :
  let E := demo_env Windows scene_busy (fun _ => true) in
  let self := Automator CONFIG_no_generating in
  poll_generating E self s0 = (Raise (KeyError "generating"), s0) /\
  wait_execution E self None 100 s0 =
    (Ret false, with_event s0 (Log ERROR "等待执行完成失败: 'generating'")) /\
  ~ poll_exception_is_retried.
Proof.
  intros E self. split; [reflexivity|]. split; [reflexivity|].
  intros Hclaim.
  destruct (Hclaim E self 0 300 0%nat s0 (KeyError "generating") s0
              ltac:(reflexivity) eq_refl) as [s2 Heq].
  rewrite (wait_execution_loop_unfold E self 0 300 0 s2) in Heq.
  change (wait_execution_loop E self 0 300 1 s0)
    with (Ret false, with_event s0 (Log ERROR "等待执行完成失败: 'generating'")) in Heq.
  destruct (wall E s2 - 0 <? seconds 300); discriminate.
Qed.

(** ** Computations that cannot report success *)

Lemma fails_ret_false P s : fails_with P (ret false) s.
Proof. split; [apply evolves_refl | by left]. Qed.

Lemma fails_bind {A} P (m : M A) (k : A -> M bool) s :
  emits P m -> fuel_free m ->
  (forall a s1, fails_with P (k a) s1) ->
  fails_with P (bind m k) s.
Proof.
  intros Hm Hff Hk. unfold fails_with, bind.
  specialize (Hm s). specialize (Hff s).
  destruct (m s) as [[a|e|] s1]; cbn in *.
  - destruct (Hk a s1) as [Hev Hres]. split; [|exact Hres].
    eapply evolves_trans; eauto.
  - split; [exact Hm | right; eauto].
  - done.
Qed.

Lemma fails_bind_ret {A} P (m : M A) (k : A -> M bool) s a :
  fst (m s) = Ret a -> evolves P s (snd (m s)) ->
  fails_with P (k a) (snd (m s)) ->
  fails_with P (bind m k) s.
Proof.
  intros Hr Hev [Hk Hres]. unfold fails_with, bind.
  destruct (m s) as [o s1]; cbn in *. subst o. split; [|exact Hres].
  eapply evolves_trans; eauto.
Qed.

Lemma fails_bind_raise {A} P (m : M A) (k : A -> M bool) s e :
  fst (m s) = Raise e -> evolves P s (snd (m s)) ->
  fails_with P (bind m k) s.
Proof.
  intros Hr Hev. unfold fails_with, bind.
  destruct (m s) as [o s1]; cbn in *. subst o. split; [exact Hev | right; eauto].
Qed.

(** The [except] clause of [execute_workflow] turns every failure of the
    body into the result False, adding two error records. *)
Lemma execute_workflow_fails P E self task files fuel s :
  (forall msg, P (Log ERROR msg)) -> (forall e, P (Traceback e)) ->
  fails_with P (execute_workflow_body E self task files fuel) s ->
  exists s', execute_workflow E self task files fuel s = (Ret false, s') /\
             evolves P s s'.
Proof.
  intros HP HT [Hev Hres]. unfold execute_workflow, try_except.
  destruct (execute_workflow_body E self task files fuel s) as [o s1]; cbn in *.
  destruct Hres as [-> | [e ->]].
  - eauto.
  - unfold bind, logger, emit, ret; cbn. eexists. split; [reflexivity|].
    eapply evolves_trans; [exact Hev|].
    apply (evolves_intro P _ _ [Log ERROR ("流程执行失败: " +:+ str_exn e);
                                Traceback e]); cbn; try lia.
    + by rewrite <- app_assoc.
    + repeat constructor; [apply HP | apply HT].
Qed.

Ltac fails_step :=
  lazymatch goal with
  | |- fails_with _ (ret false) _ => apply fails_ret_false
  | |- fails_with _ (if ?b then _ else _) _ => destruct b eqn:?
  | |- fails_with _ (bind _ _) _ =>
      apply fails_bind; [ solve [emits_auto] | solve [fuel_auto] | intros ? ? ]
  end.

(** ** The wait for completion *)

Section BusyIndicator.

Variable E : env.
Variable self : automator.
Variables (ui tm : gmap string atom) (img : atom) (timeout : Z).
Hypothesis Hui : config self !! "ui_elements" = Some (CDict ui).
Hypothesis Himg : ui !! "generating" = Some img.
Hypothesis Htm : config self !! "wait_timeouts" = Some (CDict tm).
Hypothesis Htimeout : tm !! "execution" = Some (AInt timeout).

(** The polled expression is a retry of three looks at the screen. *)
Lemma poll_generating_result s :
  retry_result E img (captures s) 3 (poll_generating E self s).
Proof.
  unfold poll_generating, cfg2, bind, config_get.
  rewrite Hui. cbn. rewrite Himg. cbn.
  apply (exist_loop_spec E img 2 3 s). lia.
Qed.

Lemma poll_generating_busy s :
  attempt_ok E img (captures s) = true ->
  fst (poll_generating E self s) = Ret true.
Proof.
  intros Hok.
  destruct (poll_generating_result s) as [(k & _ & _ & _ & Hres & _) | (Hall & _ & _)];
    [exact Hres|].
  rewrite <- (Nat.add_0_r (captures s)) in Hok. rewrite Hall in Hok; [discriminate|lia].
Qed.

(** A pass that does not see the indicator in three looks ends the wait
    with True. *)
Lemma wait_pass_clear start fuel s :
  wall E s - start < seconds timeout ->
  (forall j, (j < 3)%nat -> attempt_ok E img (captures s + j) = false) ->
  exists s1,
    wait_execution_loop E self start timeout (S fuel) s =
      (Ret true, with_event s1 (Log INFO "执行已完成")) /\
    captures s1 = (captures s + 3)%nat.
Proof.
  intros Ht Hclear. apply Z.ltb_lt in Ht.
  rewrite wait_execution_loop_unfold, Ht.
  destruct (poll_generating_result s) as [(k & Hk & _ & Hat & _) | (_ & Hres & Hn)].
  - rewrite Hclear in Hat; [discriminate|exact Hk].
  - destruct (poll_generating E self s) as [o s1]. cbn in Hres, Hn. subst o.
    exists s1. by split.
Qed.

(** A pass that sees the indicator sleeps five seconds and polls again. *)
Lemma wait_pass_busy start fuel s k :
  wall E s - start < seconds timeout ->
  (k < 3)%nat ->
  (forall j, (j < k)%nat -> attempt_ok E img (captures s + j) = false) ->
  attempt_ok E img (captures s + k) = true ->
  exists s1,
    captures s1 = (captures s + k + 1)%nat /\
    wait_execution_loop E self start timeout (S fuel) s =
      wait_execution_loop E self start timeout fuel (advanced s1 5000).
Proof.
  intros Ht Hk Hbefore Hat. apply Z.ltb_lt in Ht.
  rewrite wait_execution_loop_unfold, Ht.
  destruct (poll_generating_result s)
    as [(k' & Hk' & Hbefore' & Hat' & Hres & Hn) | (Hall & _ & _)].
  - assert (k' = k).
    { destruct (Nat.lt_trichotomy k' k) as [Hlt | [Heq | Hgt]]; [|exact Heq|].
      - rewrite Hbefore in Hat'; [discriminate|exact Hlt].
      - rewrite Hbefore' in Hat; [discriminate|exact Hgt]. }
    subst k'.
    destruct (poll_generating E self s) as [o s1]. cbn in Hres, Hn. subst o.
    exists s1. by split.
  - rewrite Hall in Hat; [discriminate|exact Hk].
Qed.

(** The wait reports True only right after three looks that did not show
    the indicator, and never reports False. *)
Lemma wait_execution_loop_true start fuel s :
  let r := wait_execution_loop E self start timeout fuel s in
  fst r <> Ret false /\
  (fst r = Ret true ->
     (captures s + 3 <= captures (snd r))%nat /\
     forall j, (j < 3)%nat -> attempt_ok E img (captures (snd r) - 3 + j) = false).
Proof.
  cbv zeta. revert s. induction fuel as [|fuel IH]; intros s;
    rewrite wait_execution_loop_unfold.
  - destruct (wall E s - start <? seconds timeout); cbn; split; discriminate.
  - destruct (wall E s - start <? seconds timeout); cbn; [|split; discriminate].
    destruct (poll_generating_result s)
      as [(k & Hk & _ & _ & Hres & Hn) | (Hall & Hres & Hn)];
      destruct (poll_generating E self s) as [o s1]; cbn in Hres, Hn; subst o.
    + destruct (IH (advanced s1 5000)) as [Hnf Htrue]. split; [exact Hnf|].
      intros Hr. destruct (Htrue Hr) as [Hle Hlast]. cbn in Hle.
      split; [lia|exact Hlast].
    + cbn. split; [discriminate|]. intros _. rewrite Hn. split; [lia|].
      intros j Hj. replace (captures s + 3 - 3 + j)%nat with (captures s + j)%nat by lia.
      by apply Hall.
Qed.

Hypothesis Hvisible : forall n, attempt_ok E img n = true.

Lemma wait_execution_loop_busy start fuel s :
  seconds timeout - (wall E s - start) <= 5000 * Z.of_nat fuel ->
  exists s', wait_execution_loop E self start timeout fuel s =
               (Raise (TimeoutError "执行超时"), s') /\
             seconds timeout <= wall E s' - start /\
             (wall E s - start < seconds timeout -> (captures s < captures s')%nat) /\
             evolves before_step6 s s'.
Proof.
  revert s. induction fuel as [|fuel IH]; intros s Hf; rewrite wait_execution_loop_unfold.
  - destruct (wall E s - start <? seconds timeout) eqn:Ht.
    + apply Z.ltb_lt in Ht. lia.
    + apply Z.ltb_ge in Ht. exists s.
      split; [done|]. split; [lia|]. split; [lia|apply evolves_refl].
  - destruct (wall E s - start <? seconds timeout) eqn:Ht.
    + pose proof (poll_generating_busy s (Hvisible _)) as Hbusy.
      pose proof (poll_generating_b6 E self s) as Hev.
      pose proof (poll_generating_clock E self s) as Hw.
      destruct (poll_generating_result s)
        as [(k & _ & _ & _ & _ & Hn) | (_ & Hres & _)];
        [|rewrite Hbusy in Hres; discriminate].
      destruct (poll_generating E self s) as [o s1]. cbn in Hbusy, Hev, Hw, Hn. subst o.
      destruct (IH (advanced s1 5000)) as (s' & Heq & Hle & _ & Hev').
      { rewrite wall_advanced. lia. }
      exists s'. split; [exact Heq|]. split; [exact Hle|]. split.
      * intros _. destruct Hev' as (_ & Hcap & _). cbn in Hcap. lia.
      * eapply evolves_trans; [exact Hev|].
        eapply evolves_trans; [|exact Hev'].
        apply (emits_sleep before_step6 5000 s1).
    + apply Z.ltb_ge in Ht. exists s.
      split; [done|]. split; [lia|]. split; [lia|apply evolves_refl].
Qed.

Lemma wait_execution_busy fuel s :
  (poll_budget timeout <= fuel)%nat ->
  exists s', wait_execution E self None fuel s = (Raise (TimeoutError "执行超时"), s') /\
             seconds timeout <= wall E s' - wall E s /\
             (0 < timeout -> (captures s < captures s')%nat) /\
             evolves before_step6 s s'.
Proof.
  intros Hfuel. unfold wait_execution, effective_timeout, cfg2, bind, config_get.
  rewrite Htm. cbn. rewrite Htimeout. cbn.
  destruct (wait_execution_loop_busy (wall E s) fuel s) as (s' & Heq & Hle & Hcap & Hev).
  { unfold poll_budget, seconds in *.
    pose proof (Z.div_mod timeout 5 ltac:(lia)) as Hdiv.
    pose proof (Z.mod_pos_bound timeout 5 ltac:(lia)) as Hmod.
    lia. }
  exists s'. split; [exact Heq|]. split; [exact Hle|]. split; [|exact Hev].
  intros Hpos. apply Hcap. unfold seconds. lia.
Qed.

Lemma execute_workflow_body_busy task files fuel s :
  (poll_budget timeout <= fuel)%nat ->
  task <> "" ->
  fails_with before_step6 (execute_workflow_body E self task files fuel) s.
Proof.
  intros Hfuel Htask. unfold execute_workflow_body, logger.
  apply String.eqb_neq in Htask. rewrite Htask. cbn [negb].
  repeat fails_step.
  match goal with
  | |- fails_with _ _ ?st =>
      destruct (wait_execution_busy fuel st Hfuel) as (s' & Heq & _ & _ & Hev)
  end.
  apply (fails_bind_raise _ _ _ _ (TimeoutError "执行超时")); rewrite Heq; [done|exact Hev].
Qed.

End BusyIndicator.

(** ** The workflow around the wait *)

Lemma execute_workflow_body_split E self task files fuel s :
  task <> "" ->
  execute_workflow_body E self task files fuel s =
  bind (workflow_until_wait E self task files)
       (fun r => match r with
                 | Some v => ret v
                 | None => workflow_from_wait E self fuel
                 end) s.
Proof.
  intros Htask. apply String.eqb_neq in Htask.
  unfold execute_workflow_body, workflow_until_wait, workflow_from_wait.
  rewrite Htask. cbn [negb]. unfold bind, logger, emit, time_sleep. cbn [Z.ltb Z.compare].
  repeat match goal with
         | |- context [match ?f ?x with (_, _) => _ end] =>
             lazymatch f with
             | context [with_event] => fail
             | _ => destruct (f x) as [[?|?|] ?]; cbn [negb]; try reflexivity
             end
         | |- context [if ?b then _ else _] => destruct b; cbn [negb]; try reflexivity
         end.
Qed.

(** Once the wait has raised [TimeoutError] the run is over: two error
    records are logged and the result is False. *)
Lemma timeout_is_fatal E self task files fuel s s1 s2 msg :
  task <> "" ->
  workflow_until_wait E self task files s = (Ret None, s1) ->
  wait_execution E self None fuel s1 = (Raise (TimeoutError msg), s2) ->
  execute_workflow E self task files fuel s =
    (Ret false,
     with_event (with_event s2 (Log ERROR ("流程执行失败: " +:+ msg)))
       (Traceback (TimeoutError msg))).
Proof.
  intros Htask Hpre Hwait. unfold execute_workflow, try_except.
  rewrite execute_workflow_body_split by exact Htask.
  unfold bind at 1. rewrite Hpre. unfold workflow_from_wait, bind at 1.
  rewrite Hwait. reflexivity.
Qed.

(** A wait that returns, with either result, is followed by step 6, and
    the run returns True. *)
Lemma wait_result_is_dropped E self task files fuel s s1 s2 (b : bool) :
  task <> "" ->
  workflow_until_wait E self task files s = (Ret None, s1) ->
  wait_execution E self None fuel s1 = (Ret b, s2) ->
  execute_workflow E self task files fuel s =
    (Ret true,
     advanced
       (with_event (with_event s2 (Log INFO "步骤6: 接受更改"))
          (Hotkey [ctrl_key E; "enter"]))
       500).
Proof.
  intros Htask Hpre Hwait. unfold execute_workflow, try_except.
  rewrite execute_workflow_body_split by exact Htask.
  unfold bind at 1. rewrite Hpre. unfold workflow_from_wait, bind at 1.
  rewrite Hwait. reflexivity.
Qed.


(** With the configured timeout and enough fuel the wait always ends:
    with a result, or with the timeout. *)
Lemma wait_execution_total E self tm timeout fuel s :
  config self !! "wait_timeouts" = Some (CDict tm) ->
  tm !! "execution" = Some (AInt timeout) ->
  (poll_budget timeout <= fuel)%nat ->
  fst (wait_execution E self None fuel s) <> OutOfFuel.
Proof.
  intros Htm Htimeout Hfuel.
  unfold wait_execution, effective_timeout, cfg2, bind, config_get.
  rewrite Htm. cbn. rewrite Htimeout. cbn.
  apply wait_execution_loop_total.
  unfold poll_budget, seconds in *.
  pose proof (Z.div_mod timeout 5 ltac:(lia)) as Hdiv.
  pose proof (Z.mod_pos_bound timeout 5 ltac:(lia)) as Hmod.
  lia.
Qed.



Example wait_execution_times_out :
  let r := wait_execution (demo_env Windows scene_busy (fun _ => true))
             (Automator CONFIG) None 100 s0 in
  fst r = Raise (TimeoutError "执行超时") /\ clock (snd r) = 300000 /\
  captures (snd r) = 60%nat.
Proof. repeat split; reflexivity. Qed.

(** The indicator is gone when the wait starts: three looks, six seconds,
    and the wait is over. *)
Example wait_execution_done :
  let r := wait_execution (demo_env Windows scene_idle (fun _ => true))
             (Automator CONFIG) None 100 s0 in
  fst r = Ret true /\ captures (snd r) = 3%nat /\ clock (snd r) = 6000.
Proof. repeat split; reflexivity. Qed.

(** ** Configuration check *)

(** C4 (as the code has it): the constructor checks the three top-level
    keys [hotkeys], [wait_timeouts] and [ui_elements], in that order, and
    nothing else.  If one of them is missing, constructing the automator
    raises [ValueError] (the module's configuration error) naming the
    first missing one, and the script ends there with the state
    untouched: no capture, no window action, no step.  The construction
    succeeds exactly when the three keys are present, and the script then
    goes on to run the workflow. *)
Theorem config_validation E cfg task files fuel s :
  let missing k := ValueError ("Missing required config key: " +:+ k) in
  let present k := is_Some (cfg !! k) in
  (cfg !! "hotkeys" = None ->
     ComposerAutomator_init cfg s = (Raise (missing "hotkeys"), s) /\
     main E cfg task files fuel s = (Raise (missing "hotkeys"), s)) /\
  (present "hotkeys" -> cfg !! "wait_timeouts" = None ->
     ComposerAutomator_init cfg s = (Raise (missing "wait_timeouts"), s) /\
     main E cfg task files fuel s = (Raise (missing "wait_timeouts"), s)) /\
  (present "hotkeys" -> present "wait_timeouts" -> cfg !! "ui_elements" = None ->
     ComposerAutomator_init cfg s = (Raise (missing "ui_elements"), s) /\
     main E cfg task files fuel s = (Raise (missing "ui_elements"), s)) /\
  (present "hotkeys" -> present "wait_timeouts" -> present "ui_elements" ->
     ComposerAutomator_init cfg s = (Ret (Automator cfg), s) /\
     main E cfg task files fuel s =
       execute_workflow E (Automator cfg) task files fuel s) /\
  ((exists a, fst (ComposerAutomator_init cfg s) = Ret a) <->
     present "hotkeys" /\ present "wait_timeouts" /\ present "ui_elements").
Proof.
  cbv zeta.
  unfold main, ComposerAutomator_init, BaseUIAutomator_init, validate_config,
    required_keys, bind, ret. cbn.
  destruct (cfg !! "hotkeys") as [v1|] eqn:H1;
    destruct (cfg !! "wait_timeouts") as [v2|] eqn:H2;
    destruct (cfg !! "ui_elements") as [v3|] eqn:H3; cbn;
    repeat split;
    repeat match goal with
           | |- _ -> _ => intros ?
           | H : is_Some None |- _ => destruct H as [? H]; discriminate H
           | H : None = Some _ |- _ => discriminate H
           | H : Some _ = None |- _ => discriminate H
           | H : _ /\ _ |- _ => destruct H
           | H : exists _, _ |- _ => destruct H
           | H : Raise _ = Ret _ |- _ => discriminate H
           | |- is_Some (Some _) => eexists; reflexivity
           | |- exists _, Ret _ = Ret _ => eexists; reflexivity
           | |- _ => reflexivity
           end.
Qed.

(** Scenario E of the specification: [wait_timeouts] is missing.  With
    [hotkeys] and [ui_elements] both missing, the error names the first
    of them. *)
Lemma config_validation_witness :
  (ComposerAutomator_init (delete "wait_timeouts" CONFIG) s0 =
     (Raise (ValueError "Missing required config key: wait_timeouts"), s0) /\
   main (demo_env Windows scene_idle (fun _ => true))
        (delete "wait_timeouts" CONFIG) "task" [] 100 s0 =
     (Raise (ValueError "Missing required config key: wait_timeouts"), s0)) /\
  ComposerAutomator_init (delete "hotkeys" (delete "ui_elements" CONFIG)) s0 =
    (Raise (ValueError "Missing required config key: hotkeys"), s0).
Proof.
  split.
  - apply (proj1 (proj2 (config_validation (demo_env Windows scene_idle (fun _ => true))
                           (delete "wait_timeouts" CONFIG) "task" [] 100%nat s0))).
    + eexists. reflexivity.
    + reflexivity.
  - apply (proj1 (config_validation (demo_env Windows scene_idle (fun _ => true))
                    (delete "hotkeys" (delete "ui_elements" CONFIG))
                    "task" [] 100%nat s0)).
    reflexivity.
Defined.

(** C4 (counterexample): the window title is a parameter the workflow
    cannot do without, yet a configuration that lacks it passes the
    check.  The constructor returns; the run launches the project, then
    fails to focus the window and returns False. *)
Lemma validation_misses_window_title :
  let E := demo_env Windows scene_idle (fun _ => true) in
  let r := main E CONFIG_no_title "task" [] 100 s0 in
  ComposerAutomator_init CONFIG_no_title s0 = (Ret (Automator CONFIG_no_title), s0) /\
  fst r = Ret false /\
  trace (snd r) =
    [Log INFO "开始自动化工作流...";
     Run (ShellCursor (CAtom (AStr "D:/fastapi-demo")));
     Log ERROR "激活目标窗口失败: 'window_title'";
     Log ERROR "无法获取窗口焦点，工作流中断"] /\
  ~ validates_workflow_keys.
Proof.
  intros E r. split; [reflexivity|]. split; [reflexivity|]. split; [reflexivity|].
  intros Hclaim.
  destruct (Hclaim CONFIG_no_title "window_title" s0) as [e He].
  - repeat constructor.
  - reflexivity.
  - discriminate He.
Qed.

Example config_complete :
  ComposerAutomator_init CONFIG s0 = (Ret (Automator CONFIG), s0).
Proof. reflexivity. Qed.

(** ** Submitting the message *)

Lemma safe_click_returns E self p N s :
  exists b, fst (safe_click E self p N s) = Ret b.
Proof. eapply retry_result_returns, safe_click_loop_spec. Qed.

Lemma input_text_returns E self text lang s :
  fst (input_text E self text lang s) = Ret tt.
Proof.
  unfold input_text, bind, emit, time_sleep.
  destruct (String.eqb lang "zh" || is_darwin (env_platform E)); reflexivity.
Qed.

(** C10: [send_message] never returns False.  With the send button
    configured it returns True whatever the click did; when the click
    failed, the last thing it does is issue the hotkey and sleep, with no
    check of any kind; and [input_prompt], through which the workflow
    calls it, returns normally. *)
Theorem send_message_always_true E self ui img prompt s :
  config self !! "ui_elements" = Some (CDict ui) ->
  ui !! "send_button" = Some img ->
  fst (send_message E self s) = Ret true /\
  (forall s1,
     safe_click E self img 3 (with_event s (Log INFO "点击发送按钮...")) = (Ret false, s1) ->
     snd (send_message E self s) =
       advanced
         (with_event (with_event s1 (Log INFO "尝试使用快捷键发送..."))
            (Hotkey [if is_darwin (env_platform E) then "command" else "ctrl"; "enter"]))
         500) /\
  fst (input_prompt E self prompt s) = Ret tt.
Proof.
  intros Hui Himg.
  assert (Hsend : forall s0,
    fst (send_message E self s0) = Ret true /\
    (forall s1,
       safe_click E self img 3 (with_event s0 (Log INFO "点击发送按钮...")) = (Ret false, s1) ->
       snd (send_message E self s0) =
         advanced
           (with_event (with_event s1 (Log INFO "尝试使用快捷键发送..."))
              (Hotkey [if is_darwin (env_platform E) then "command" else "ctrl"; "enter"]))
           500)).
  { intros s0.
    destruct (safe_click_returns E self img 3 (with_event s0 (Log INFO "点击发送按钮...")))
      as [b Hb].
    unfold send_message, logger, cfg2, config_get, bind, emit.
    rewrite Hui. cbn [lift ret subscript]. rewrite Himg. cbn [lift ret].
    destruct (safe_click E self img 3 (with_event s0 (Log INFO "点击发送按钮...")))
      as [o s1]. cbn in Hb. subst o.
    destruct b, (is_darwin (env_platform E)); (split; [reflexivity|]);
      intros s2 Heq; try discriminate; injection Heq as <-; reflexivity. }
  split; [apply Hsend|]. split; [apply Hsend|].
  unfold input_prompt, logger. unfold bind at 1. cbn [emit]. unfold bind at 1.
  pose proof (input_text_returns E self prompt "zh"
                (with_event s (Log INFO "输入业务提示..."))) as Hin.
  destruct (input_text E self prompt "zh" (with_event s (Log INFO "输入业务提示...")))
    as [o s1]. cbn in Hin. subst o.
  unfold bind at 1. cbn [time_sleep Z.ltb Z.compare]. unfold bind at 1.
  destruct (Hsend (advanced s1 500)) as [Hr _].
  destruct (send_message E self (advanced s1 500)) as [o s2]. cbn in Hr. subst o.
  reflexivity.
Qed.

(** The send button never matches: three failed clicks, then the hotkey,
    and the result is True all the same. *)
Lemma send_message_always_true_witness :
  fst (send_message (demo_env Windows (fun _ _ => 1 # 10) (fun _ => true))
         (Automator CONFIG) s0) = Ret true.
Proof.
  exact (proj1 (send_message_always_true
                  (demo_env Windows (fun _ _ => 1 # 10) (fun _ => true))
                  (Automator CONFIG) CONFIG_ui
                  (AStr "./images/windows/send_button.png") "task" s0
                  eq_refl eq_refl)).
Defined.

Example send_message_fallback :
  let r := send_message (demo_env Windows (fun _ _ => 1 # 10) (fun _ => true))
             (Automator CONFIG) s0 in
  fst r = Ret true /\ captures (snd r) = 3%nat /\
  last (trace (snd r)) = Some (Hotkey ["ctrl"; "enter"]).
Proof. repeat split; reflexivity. Qed.

(** ** The workflow and its steps *)

(** C3 (divergence): with the [generating] element missing from the
    configuration, step 5 fails: [wait_execution] logs the error and
    returns False.  The workflow discards that result, announces step 6,
    issues the accept hotkey and returns True. *)
Theorem workflow_continues_after_failed_wait :
  let E := demo_env Windows scene_idle (fun _ => true) in
  let r := main E CONFIG_no_generating "task" [] 100 s0 in
  fst r = Ret true /\
  (exists pre,
     trace (snd r) =
       pre ++ [Log INFO "步骤5: 等待执行完成";
               Log ERROR "等待执行完成失败: 'generating'";
               Log INFO "步骤6: 接受更改";
               Hotkey ["ctrl"; "enter"]]) /\
  (forall s, fst (wait_execution E (Automator CONFIG_no_generating) None 100 s) = Ret false).
Proof.
  intros E r. split; [reflexivity|]. split.
  - exists (firstn (length (trace (snd r)) - 4) (trace (snd r))). vm_compute. reflexivity.
  - intros s. unfold wait_execution, bind.
    assert (Ht : effective_timeout (Automator CONFIG_no_generating) None s = (Ret 300, s))
      by reflexivity.
    rewrite Ht. cbn [now]. rewrite wait_execution_loop_unfold.
    replace (wall E s - wall E s) with 0 by lia.
    assert (Hp : poll_generating E (Automator CONFIG_no_generating) s =
                 (Raise (KeyError "generating"), s)) by reflexivity.
    rewrite Hp. reflexivity.
Qed.

(** ** Window focus inside the steps *)

Lemma focus_window_returns E self s :
  exists b, fst (focus_window E self s) = Ret b.
Proof.
  pose proof (focus_window_fuel_free E self s) as Hff.
  unfold focus_window, try_except, logger in *.
  match goal with
  | |- context [match ?m s with _ => _ end] => destruct (m s) as [[b|e|] s1]
  end; cbn in *; eauto. done.
Qed.

Lemma cfg2_eval self k1 k2 d a s :
  config self !! k1 = Some (CDict d) -> d !! k2 = Some a ->
  cfg2 self k1 k2 s = (Ret a, s).
Proof.
  intros H1 H2. unfold cfg2, config_get, bind. rewrite H1. cbn. rewrite H2. reflexivity.
Qed.

Lemma begins_step {A B} l (m : M A) (k : A -> M B) s a s1 :
  m s = (Ret a, s1) -> begins l (k a) s1 -> begins l (bind m k) s.
Proof. intros Hm Hk. unfold begins, bind. rewrite Hm. exact Hk. Qed.

Lemma begins_bind {A B} P l (m : M A) (k : A -> M B) s :
  begins l m s -> (forall a, emits P (k a)) -> begins l (bind m k) s.
Proof.
  intros [rest Hm] Hk. unfold begins, bind.
  destruct (m s) as [[a|e|] s1]; cbn in *; eauto.
  destruct (Hk a s1) as (_ & _ & added & Ht & _).
  exists (rest ++ added). by rewrite Ht, Hm, app_assoc.
Qed.

Lemma begins_emits {A} P (m : M A) s :
  emits P m -> begins (trace s) m s.
Proof. intros Hm. destruct (Hm s) as (_ & _ & added & Ht & _). by exists added. Qed.

Lemma _hotkey_begins E self k ks s :
  begins (trace s ++ [KeyDown k]) (_hotkey E self (AList (k :: ks))) s.
Proof.
  unfold _hotkey. eapply begins_step; [reflexivity|].
  destruct (env_platform E);
    (eapply begins_step; [reflexivity|]);
    apply (begins_emits before_step6); emits_auto.
Qed.

Lemma Forall_no_input l :
  Forall no_input l -> forallb (fun ev => negb (is_input ev)) l = true.
Proof.
  induction 1 as [|ev l Hev _ IH]; [reflexivity|].
  cbn. unfold no_input in Hev. rewrite Hev, IH. reflexivity.
Qed.



(** * Further properties of the module *)

(** ** Event kinds *)

Lemma kind_in_sub k K1 K2 :
  kinds_sub K1 K2 = true -> kind_in k K1 = true -> kind_in k K2 = true.
Proof.
  unfold kinds_sub, kind_in. intros Hsub Hin.
  apply existsb_exists in Hin as (k1 & Hk1 & Heq).
  rewrite forallb_forall in Hsub. specialize (Hsub k1 Hk1).
  apply Nat.eqb_eq in Heq. unfold kind_in in Hsub.
  rewrite <- Heq. exact Hsub.
Qed.

Lemma emits_only_sub {A} K1 K2 (m : M A) :
  emits (only K1) m -> kinds_sub K1 K2 = true -> emits (only K2) m.
Proof.
  intros Hm Hsub s. destruct (Hm s) as (Hc & Hn & added & Ht & Hf).
  apply (evolves_intro (only K2) s _ added); auto.
  eapply Forall_impl; [exact Hf|]. intros ev. apply kind_in_sub. exact Hsub.
Qed.

Lemma evolves_only_sub K1 K2 s s' :
  evolves (only K1) s s' -> kinds_sub K1 K2 = true -> evolves (only K2) s s'.
Proof.
  intros (Hc & Hn & added & Ht & Hf) Hsub.
  apply (evolves_intro (only K2) s _ added); auto.
  eapply Forall_impl; [exact Hf|]. intros ev. apply kind_in_sub. exact Hsub.
Qed.

Create HintDb kinds.

Ltac kinds_step :=
  lazymatch goal with
  | |- emits _ (bind _ _) => apply emits_bind; [|intros ?]
  | |- emits _ (try_except _ _) => apply emits_try; [|intros ?]
  | |- emits _ (ret _) => apply emits_ret
  | |- emits _ (raise _) => apply emits_raise
  | |- emits _ (lift _) => apply emits_lift
  | |- emits _ (now _) => apply emits_now
  | |- emits _ (time_sleep _) => apply emits_sleep
  | |- emits _ next_capture => apply emits_next_capture
  | |- emits _ next_focus => apply emits_next_focus
  | |- emits _ next_run => apply emits_next_run
  | |- emits _ (emit _) => apply emits_emit; reflexivity
  | |- emits _ (if ?b then _ else _) => destruct b
  | |- emits _ (match ?x with _ => _ end) => destruct x
  | |- _ =>
      first [ eassumption
            | solve [auto with steps nocore]
            | solve [eapply emits_only_sub; [solve [auto with kinds nocore] | reflexivity]]
            | progress cbv zeta ]
  end.

Ltac kinds_auto := repeat kinds_step.

Lemma capture_screen_kinds E i : emits (only [KGrab]) (capture_screen E i).
Proof. unfold capture_screen. kinds_auto. Qed.
#[global] Hint Resolve capture_screen_kinds : kinds.

Lemma check_element_exist_kinds E p c : emits (only K_locate) (check_element_exist E p c).
Proof. unfold check_element_exist. kinds_auto. Qed.
#[global] Hint Resolve check_element_exist_kinds : kinds.

Lemma safe_click_attempt_kinds E p : emits (only K_click) (safe_click_attempt E p).
Proof. unfold safe_click_attempt, logger, pyautogui_click. kinds_auto. Qed.
#[global] Hint Resolve safe_click_attempt_kinds : kinds.

Lemma safe_click_kinds E self p n : emits (only K_click) (safe_click E self p n).
Proof.
  unfold safe_click. induction (Z.to_nat n) as [|k IH]; simpl; unfold logger; kinds_auto.
Qed.
#[global] Hint Resolve safe_click_kinds : kinds.

Lemma exist_attempt_kinds E p : emits (only K_check) (exist_attempt E p).
Proof. unfold exist_attempt, logger. kinds_auto. Qed.
#[global] Hint Resolve exist_attempt_kinds : kinds.

Lemma self_check_kinds E self p n i :
  emits (only K_check) (self_check_element_exist E self p n i).
Proof.
  unfold self_check_element_exist. induction (Z.to_nat n) as [|k IH]; simpl; kinds_auto.
Qed.
#[global] Hint Resolve self_check_kinds : kinds.

Lemma input_text_kinds E self text lang :
  emits (only K_text) (input_text E self text lang).
Proof. unfold input_text. kinds_auto. Qed.
#[global] Hint Resolve input_text_kinds : kinds.

Lemma input_text_zh_kinds E self text :
  emits (only K_paste) (input_text E self text "zh").
Proof. unfold input_text. change (String.eqb "zh" "zh") with true. cbn [orb]. kinds_auto. Qed.
#[global] Hint Resolve input_text_zh_kinds : kinds.

Lemma hotkey_darwin_keys_kinds keys :
  emits (only K_keys) (hotkey_darwin_keys keys).
Proof. induction keys as [|k ks IH]; simpl; kinds_auto. Qed.
#[global] Hint Resolve hotkey_darwin_keys_kinds : kinds.

Lemma hotkey_press_keys_kinds keys :
  emits (only K_keys) (hotkey_press_keys keys).
Proof. induction keys as [|k ks IH]; simpl; kinds_auto. Qed.
#[global] Hint Resolve hotkey_press_keys_kinds : kinds.

Lemma _hotkey_kinds E self keys :
  emits (only K_keys) (_hotkey E self keys).
Proof. unfold _hotkey. kinds_auto. Qed.
#[global] Hint Resolve _hotkey_kinds : kinds.

Lemma subprocess_run_kinds E c :
  emits (only [KRun]) (subprocess_run E c).
Proof. unfold subprocess_run. kinds_auto. Qed.
#[global] Hint Resolve subprocess_run_kinds : kinds.

Lemma win_activate_kinds E n w :
  emits (only [KActivate]) (win_activate E n w).
Proof. unfold win_activate. kinds_auto. Qed.
#[global] Hint Resolve win_activate_kinds : kinds.

Lemma focus_window_kinds E self :
  emits (only K_window) (focus_window E self).
Proof. unfold focus_window, logger. kinds_auto. Qed.
#[global] Hint Resolve focus_window_kinds : kinds.

Lemma open_project_search_kinds E self paths :
  emits (only K_window) (open_project_search E self paths).
Proof. induction paths as [|p ps IH]; simpl; unfold logger; kinds_auto. Qed.
#[global] Hint Resolve open_project_search_kinds : kinds.

Lemma open_project_kinds E self :
  emits (only K_window) (open_project E self).
Proof. unfold open_project, logger. kinds_auto. Qed.
#[global] Hint Resolve open_project_kinds : kinds.

Lemma open_composer_loop_kinds E self n :
  emits (only K_composer) (open_composer_loop E self n).
Proof. induction n as [|k IH]; simpl; unfold logger; kinds_auto. Qed.
#[global] Hint Resolve open_composer_loop_kinds : kinds.

Lemma open_composer_kinds E self :
  emits (only K_composer) (open_composer E self).
Proof. unfold open_composer, logger. kinds_auto. Qed.
#[global] Hint Resolve open_composer_kinds : kinds.

Lemma new_session_kinds E self :
  emits (only K_session) (new_session E self).
Proof. unfold new_session, logger. kinds_auto. Qed.
#[global] Hint Resolve new_session_kinds : kinds.

Lemma link_files_loop_kinds E self files :
  emits (only K_link) (link_files_loop E self files).
Proof. induction files as [|f fs IH]; simpl; unfold logger; kinds_auto. Qed.
#[global] Hint Resolve link_files_loop_kinds : kinds.

Lemma link_files_kinds E self files :
  emits (only K_link) (link_files E self files).
Proof. unfold link_files, logger. kinds_auto. Qed.
#[global] Hint Resolve link_files_kinds : kinds.

Lemma send_message_kinds E self :
  emits (only K_send) (send_message E self).
Proof. unfold send_message, logger. kinds_auto. Qed.
#[global] Hint Resolve send_message_kinds : kinds.

Lemma input_prompt_kinds E self prompt :
  emits (only K_prompt) (input_prompt E self prompt).
Proof. unfold input_prompt, logger. kinds_auto. Qed.
#[global] Hint Resolve input_prompt_kinds : kinds.

Lemma poll_generating_kinds E self :
  emits (only K_check) (poll_generating E self).
Proof. unfold poll_generating. kinds_auto. Qed.
#[global] Hint Resolve poll_generating_kinds : kinds.

Lemma wait_execution_loop_kinds E self start timeout fuel :
  emits (only K_check) (wait_execution_loop E self start timeout fuel).
Proof. induction fuel as [|k IH]; simpl; unfold logger; kinds_auto; intros s; apply evolves_refl. Qed.
#[global] Hint Resolve wait_execution_loop_kinds : kinds.

Lemma wait_execution_kinds E self t fuel :
  emits (only K_check) (wait_execution E self t fuel).
Proof. unfold wait_execution. kinds_auto. Qed.
#[global] Hint Resolve wait_execution_kinds : kinds.

Lemma accept_changes_kinds E self :
  emits (only [KHotkey]) (accept_changes E self).
Proof. unfold accept_changes. kinds_auto. Qed.
#[global] Hint Resolve accept_changes_kinds : kinds.

Lemma execute_workflow_body_kinds E self task files fuel :
  emits (only K_workflow) (execute_workflow_body E self task files fuel).
Proof. unfold execute_workflow_body, logger. kinds_auto. Qed.
#[global] Hint Resolve execute_workflow_body_kinds : kinds.

Lemma execute_workflow_kinds E self task files fuel :
  emits (only K_workflow) (execute_workflow E self task files fuel).
Proof. unfold execute_workflow, logger. kinds_auto. Qed.
#[global] Hint Resolve execute_workflow_kinds : kinds.

(** ** Operations that never capture the screen *)

Lemma keeps_ret {A} (a : A) : keeps_captures (ret a).
Proof. intros s; reflexivity. Qed.

Lemma keeps_raise {A} e : keeps_captures (@raise A e).
Proof. intros s; reflexivity. Qed.

Lemma keeps_lift {A} (r : result A) : keeps_captures (lift r).
Proof. destruct r; intros s; reflexivity. Qed.

Lemma keeps_now E : keeps_captures (now E).
Proof. intros s; reflexivity. Qed.

Lemma keeps_emit ev : keeps_captures (emit ev).
Proof. intros s; reflexivity. Qed.

Lemma keeps_sleep ms : keeps_captures (time_sleep ms).
Proof. intros s. unfold time_sleep. destruct (ms <? 0); reflexivity. Qed.

Lemma keeps_next_focus : keeps_captures next_focus.
Proof. intros s; reflexivity. Qed.

Lemma keeps_next_run : keeps_captures next_run.
Proof. intros s; reflexivity. Qed.

Lemma keeps_bind {A B} (m : M A) (k : A -> M B) :
  keeps_captures m -> (forall a, keeps_captures (k a)) -> keeps_captures (bind m k).
Proof.
  intros Hm Hk s. unfold bind. specialize (Hm s).
  destruct (m s) as [[a|e|] s1]; cbn in *; try exact Hm.
  rewrite Hk. exact Hm.
Qed.

Lemma keeps_try {A} (m : M A) (h : exn -> M A) :
  keeps_captures m -> (forall e, keeps_captures (h e)) -> keeps_captures (try_except m h).
Proof.
  intros Hm Hh s. unfold try_except. specialize (Hm s).
  destruct (m s) as [[a|e|] s1]; cbn in *; try exact Hm.
  rewrite Hh. exact Hm.
Qed.

Create HintDb keeps.

Ltac keeps_step :=
  lazymatch goal with
  | |- keeps_captures (bind _ _) => apply keeps_bind; [|intros ?]
  | |- keeps_captures (try_except _ _) => apply keeps_try; [|intros ?]
  | |- keeps_captures (ret _) => apply keeps_ret
  | |- keeps_captures (raise _) => apply keeps_raise
  | |- keeps_captures (lift _) => apply keeps_lift
  | |- keeps_captures (now _) => apply keeps_now
  | |- keeps_captures (time_sleep _) => apply keeps_sleep
  | |- keeps_captures next_focus => apply keeps_next_focus
  | |- keeps_captures next_run => apply keeps_next_run
  | |- keeps_captures (emit _) => apply keeps_emit
  | |- keeps_captures (if ?b then _ else _) => destruct b
  | |- keeps_captures (match ?x with _ => _ end) => destruct x
  | |- _ => first [ eassumption | solve [auto with keeps nocore] | progress cbv zeta ]
  end.

Ltac keeps_auto := repeat keeps_step.

Lemma cfg1_keeps self k : keeps_captures (cfg1 self k).
Proof. unfold cfg1. keeps_auto. Qed.
#[global] Hint Resolve cfg1_keeps : keeps.

Lemma cfg2_keeps self k1 k2 : keeps_captures (cfg2 self k1 k2).
Proof. unfold cfg2. keeps_auto. Qed.
#[global] Hint Resolve cfg2_keeps : keeps.

Lemma sleep_atom_keeps E a : keeps_captures (sleep_atom E a).
Proof. unfold sleep_atom. keeps_auto. Qed.
#[global] Hint Resolve sleep_atom_keeps : keeps.

Lemma subprocess_run_keeps E c : keeps_captures (subprocess_run E c).
Proof. unfold subprocess_run. keeps_auto. Qed.
#[global] Hint Resolve subprocess_run_keeps : keeps.

Lemma win_activate_keeps E n w : keeps_captures (win_activate E n w).
Proof. unfold win_activate. keeps_auto. Qed.
#[global] Hint Resolve win_activate_keeps : keeps.

Lemma focus_window_keeps E self : keeps_captures (focus_window E self).
Proof. unfold focus_window, logger. keeps_auto. Qed.
#[global] Hint Resolve focus_window_keeps : keeps.

Lemma hotkey_darwin_keys_keeps keys : keeps_captures (hotkey_darwin_keys keys).
Proof. induction keys as [|k ks IH]; simpl; keeps_auto. Qed.
#[global] Hint Resolve hotkey_darwin_keys_keeps : keeps.

Lemma hotkey_press_keys_keeps keys : keeps_captures (hotkey_press_keys keys).
Proof. induction keys as [|k ks IH]; simpl; keeps_auto. Qed.
#[global] Hint Resolve hotkey_press_keys_keeps : keeps.

Lemma _hotkey_keeps E self keys : keeps_captures (_hotkey E self keys).
Proof. unfold _hotkey. keeps_auto. Qed.
#[global] Hint Resolve _hotkey_keeps : keeps.

Lemma input_text_keeps E self text lang : keeps_captures (input_text E self text lang).
Proof. unfold input_text. keeps_auto. Qed.
#[global] Hint Resolve input_text_keeps : keeps.

Lemma open_project_search_keeps E self paths : keeps_captures (open_project_search E self paths).
Proof. induction paths as [|p ps IH]; simpl; unfold logger; keeps_auto. Qed.
#[global] Hint Resolve open_project_search_keeps : keeps.

Lemma open_project_keeps E self : keeps_captures (open_project E self).
Proof. unfold open_project, logger. keeps_auto. Qed.
#[global] Hint Resolve open_project_keeps : keeps.

Lemma new_session_keeps E self : keeps_captures (new_session E self).
Proof. unfold new_session, logger. keeps_auto. Qed.
#[global] Hint Resolve new_session_keeps : keeps.

Lemma link_files_loop_keeps E self files : keeps_captures (link_files_loop E self files).
Proof. induction files as [|f fs IH]; simpl; unfold logger; keeps_auto. Qed.
#[global] Hint Resolve link_files_loop_keeps : keeps.

Lemma link_files_keeps E self files : keeps_captures (link_files E self files).
Proof. unfold link_files, logger. keeps_auto. Qed.
#[global] Hint Resolve link_files_keeps : keeps.

Lemma accept_changes_keeps E self : keeps_captures (accept_changes E self).
Proof. unfold accept_changes. keeps_auto. Qed.
#[global] Hint Resolve accept_changes_keeps : keeps.

(** ** Errors of the locator *)

Lemma capture_screen_nonneg_witness :
  exists mon, two_monitors !! Z.to_nat 1 = Some mon /\
    fst (capture_screen (demo_env Windows scene_idle (fun _ => true)) 1 s0) =
      Ret (Image "RGB" (shot_size (Screenshot (mon_width mon, mon_height mon) [0]))
                       (shot_rgb (Screenshot (mon_width mon, mon_height mon) [0]))).
Proof.
  apply (proj2 (capture_screen_nonneg (demo_env Windows scene_idle (fun _ => true))
                  1 s0 ltac:(lia))).
  simpl. lia.
Defined.

(** X3: the two errors of a locate.  With fewer than two monitors
    enumerated the call raises [ValueError] for monitor 1 before anything
    is grabbed or saved.  With an unreadable template it raises
    [ValueError] naming the path, after the screen has been grabbed and
    the debug screenshot saved. *)
Theorem locate_errors E path c s :
  ((length (env_monitors E (captures s)) <= 1)%nat ->
   forall p,
     check_element_exist E p c s =
       (Raise (ValueError "显示器 1 不存在"),
        State (clock s) (S (captures s)) (focus_calls s) (runs s) (trace s))) /\
  (forall img s1,
     capture_screen E 1 s = (Ret img, s1) ->
     env_imread E path = None ->
     check_element_exist E (AStr path) c s =
       (Raise (ValueError ("无法读取目标图像: " +:+ path)),
        with_event s1 (SaveDebug (wall E s1)))).
Proof.
  split.
  - intros Hlen p. unfold check_element_exist, capture_screen, bind. cbn.
    assert (Hle : (Z.of_nat (length (env_monitors E (captures s))) <=? 1) = true)
      by (apply Z.leb_le; lia).
    rewrite Hle. reflexivity.
  - intros img s1 Hcap Hread. unfold check_element_exist, bind.
    rewrite Hcap. cbn. rewrite Hread. reflexivity.
Qed.

Lemma locate_errors_witness :
  check_element_exist one_monitor_env (AStr "./images/windows/generating.png")
    default_confidence s0 =
    (Raise (ValueError "显示器 1 不存在"), State 0 1 0 0 []) /\
  check_element_exist (demo_env Windows scene_idle (fun _ => true))
    (AStr "./images/missing.png") default_confidence s0 =
    (Raise (ValueError "无法读取目标图像: ./images/missing.png"),
     with_event (State 0 1 0 0 [Grab (Monitor 0 0 1920 1080)]) (SaveDebug 0)).
Proof.
  split.
  - apply (proj1 (locate_errors one_monitor_env "" default_confidence s0)).
    simpl. lia.
  - exact (proj2 (locate_errors (demo_env Windows scene_idle (fun _ => true))
                    "./images/missing.png" default_confidence s0)
             (Image "RGB" (1920, 1080) [0])
             (State 0 1 0 0 [Grab (Monitor 0 0 1920 1080)]) eq_refl eq_refl).
Defined.

(** ** What [safe_click] clicks *)

Lemma clicks_of_app l1 l2 : clicks_of (l1 ++ l2) = clicks_of l1 ++ clicks_of l2.
Proof.
  induction l1 as [|ev l1 IH]; [reflexivity|].
  destruct ev; cbn; rewrite ?IH; reflexivity.
Qed.

Lemma clicks_of_only K l :
  kind_in KClick K = false -> Forall (only K) l -> clicks_of l = [].
Proof.
  intros HK. induction 1 as [|ev l Hev _ IH]; [reflexivity|].
  destruct ev; cbn; try exact IH.
  unfold only in Hev. cbn in Hev. congruence.
Qed.

Lemma safe_click_attempt_clicks E p s :
  exists added,
    trace (snd (safe_click_attempt E p s)) = trace s ++ added /\
    match locate_at E (captures s) p default_confidence with
    | Ret (true, pos) =>
        fst (safe_click_attempt E p s) = Ret (Some true) /\
        clicks_of added = [pos] /\ last added = Some (Click pos)
    | _ => fst (safe_click_attempt E p s) = Ret None /\ clicks_of added = []
    end.
Proof.
  destruct (check_element_exist_at E p default_confidence s) as (Hr & _).
  destruct (check_element_exist_kinds E p default_confidence s)
    as (_ & _ & added & Ht & Hf).
  pose proof (check_element_exist_fuel_free E p default_confidence s) as Hff.
  pose proof (clicks_of_only K_locate added eq_refl Hf) as Hno.
  rewrite <- Hr. unfold safe_click_attempt, try_except, bind, logger, pyautogui_click.
  destruct (check_element_exist E p default_confidence s) as [[[b pos]|e|] s1];
    cbn in *; [| |done].
  - destruct b; cbn.
    + exists (added ++ [Click pos]). rewrite Ht, app_assoc. split; [done|].
      split; [done|]. split; [|apply last_snoc].
      rewrite clicks_of_app, Hno. reflexivity.
    + exists added. split; [done|]. split; [done|exact Hno].
  - exists (added ++ [Log WARNING ("定位图像时出错: " +:+ str_exn e)]).
    rewrite Ht, app_assoc. split; [done|]. split; [done|].
    rewrite clicks_of_app, Hno. reflexivity.
Qed.

Lemma safe_click_loop_step E p n s :
  safe_click_loop E p (S n) s =
  match safe_click_attempt E p s with
  | (Ret (Some v), s1) => (Ret v, s1)
  | (Ret None, s1) => safe_click_loop E p n (advanced s1 1000)
  | (Raise e, s1) => (Raise e, s1)
  | (OutOfFuel, s1) => (OutOfFuel, s1)
  end.
Proof.
  cbn [safe_click_loop]. unfold bind at 1.
  destruct (safe_click_attempt E p s) as [[[v|]|e|] s1]; reflexivity.
Qed.

Lemma safe_click_loop_clicks E p n s :
  exists added,
    trace (snd (safe_click_loop E p n s)) = trace s ++ added /\
    (fst (safe_click_loop E p n s) = Ret true ->
       exists k pos, (k < n)%nat /\
         locate_at E (captures s + k) p default_confidence = Ret (true, pos) /\
         clicks_of added = [pos] /\ last added = Some (Click pos)) /\
    (fst (safe_click_loop E p n s) = Ret false -> clicks_of added = []).
Proof.
  revert s. induction n as [|n IH]; intros s.
  - cbn. exists [Log ERROR ("未找到目标图像：" +:+ py_str_atom E p)].
    split; [done|]. split; [discriminate|done].
  - destruct (safe_click_attempt_clicks E p s) as (added1 & Ht1 & Hcase).
    destruct (safe_click_attempt_spec E p s) as (_ & Hn & _).
    rewrite safe_click_loop_step.
    destruct (safe_click_attempt E p s) as [o s1]. cbn in Ht1, Hcase, Hn.
    assert (Hgo : o = Ret None -> clicks_of added1 = [] ->
      exists added,
        trace (snd (safe_click_loop E p n (advanced s1 1000))) = trace s ++ added /\
        (fst (safe_click_loop E p n (advanced s1 1000)) = Ret true ->
           exists k pos, (k < S n)%nat /\
             locate_at E (captures s + k) p default_confidence = Ret (true, pos) /\
             clicks_of added = [pos] /\ last added = Some (Click pos)) /\
        (fst (safe_click_loop E p n (advanced s1 1000)) = Ret false ->
           clicks_of added = [])).
    { intros _ Hclicks.
      destruct (IH (advanced s1 1000)) as (added2 & Ht2 & Htrue & Hfalse).
      exists (added1 ++ added2). cbn in Ht2. rewrite Ht2, Ht1, app_assoc.
      split; [done|]. split.
      - intros Hres. destruct (Htrue Hres) as (k & pos' & Hk & Hloc' & Hc2 & Hl2).
        exists (S k), pos'. split; [lia|]. cbn in Hloc'. rewrite Hn in Hloc'.
        replace (captures s + S k)%nat with (S (captures s) + k)%nat by lia.
        split; [exact Hloc'|]. split.
        + rewrite clicks_of_app, Hclicks, Hc2. reflexivity.
        + rewrite last_app, Hl2. reflexivity.
      - intros Hres. rewrite clicks_of_app, Hclicks, (Hfalse Hres). reflexivity. }
    destruct (locate_at E (captures s) p default_confidence) as [[[|] pos]|e|] eqn:Hloc.
    + destruct Hcase as (-> & Hclicks & Hlast). cbn.
      exists added1. split; [done|]. split; [|discriminate].
      intros _. exists 0%nat, pos. rewrite Nat.add_0_r.
      split; [lia|]. done.
    + destruct Hcase as (-> & Hclicks). apply Hgo; done.
    + destruct Hcase as (-> & Hclicks). apply Hgo; done.
    + destruct Hcase as (-> & Hclicks). apply Hgo; done.
Qed.

(** X4: [safe_click] clicks at most once.  When it returns True, the one
    click is the last thing it did, at the centre returned by the locate
    of the successful attempt; when it returns False it has not clicked at
    all. *)
Theorem safe_click_clicks_once E self p (N : Z) s :
  exists added,
    trace (snd (safe_click E self p N s)) = trace s ++ added /\
    (fst (safe_click E self p N s) = Ret true ->
       exists k pos, Z.of_nat k < N /\
         locate_at E (captures s + k) p default_confidence = Ret (true, pos) /\
         clicks_of added = [pos] /\ last added = Some (Click pos)) /\
    (fst (safe_click E self p N s) = Ret false -> clicks_of added = []).
Proof.
  unfold safe_click.
  destruct (safe_click_loop_clicks E p (Z.to_nat N) s) as (added & Ht & Htrue & Hfalse).
  exists added. split; [exact Ht|]. split; [|exact Hfalse].
  intros Hres. destruct (Htrue Hres) as (k & pos & Hk & Hrest).
  exists k, pos. split; [lia|exact Hrest].
Qed.

(** ** The delay between attempts *)

Lemma safe_click_loop_clock E p n s :
  (fst (safe_click_loop E p n s) = Ret false ->
     clock (snd (safe_click_loop E p n s)) = clock s + 1000 * Z.of_nat n) /\
  (fst (safe_click_loop E p n s) = Ret true ->
     clock (snd (safe_click_loop E p n s)) - clock s =
       1000 * (Z.of_nat (captures (snd (safe_click_loop E p n s)))
               - Z.of_nat (captures s) - 1)).
Proof.
  revert s. induction n as [|n IH]; intros s.
  - cbn. split; [intros _; lia|discriminate].
  - destruct (safe_click_attempt_spec E p s) as (Hr & Hn & Hc).
    rewrite safe_click_loop_step.
    destruct (safe_click_attempt E p s) as [o s1]. cbn in Hr, Hn, Hc. subst o.
    destruct (attempt_ok E p (captures s)).
    + cbn. split; [discriminate|]. intros _. lia.
    + destruct (IH (advanced s1 1000)) as [Hfalse Htrue]. cbn in Hfalse, Htrue.
      split; intros Hres.
      * rewrite (Hfalse Hres). lia.
      * specialize (Htrue Hres). lia.
Qed.

Lemma exist_loop_step E p interval n s :
  0 <= interval ->
  exist_loop E p interval (S n) s =
  match exist_attempt E p s with
  | (Ret (Some v), s1) => (Ret v, s1)
  | (Ret None, s1) => exist_loop E p interval n (advanced s1 (seconds interval))
  | (Raise e, s1) => (Raise e, s1)
  | (OutOfFuel, s1) => (OutOfFuel, s1)
  end.
Proof.
  intros Hi. cbn [exist_loop]. unfold bind at 1.
  destruct (exist_attempt E p s) as [[[v|]|e|] s1]; try reflexivity.
  unfold bind, time_sleep, seconds.
  assert (Hs : (1000 * interval <? 0) = false) by (apply Z.ltb_ge; lia).
  rewrite Hs. reflexivity.
Qed.

Lemma exist_loop_clock E p interval n s :
  0 <= interval ->
  (fst (exist_loop E p interval n s) = Ret false ->
     clock (snd (exist_loop E p interval n s)) = clock s + seconds interval * Z.of_nat n) /\
  (fst (exist_loop E p interval n s) = Ret true ->
     clock (snd (exist_loop E p interval n s)) - clock s =
       seconds interval * (Z.of_nat (captures (snd (exist_loop E p interval n s)))
                           - Z.of_nat (captures s) - 1)).
Proof.
  intros Hi. revert s. induction n as [|n IH]; intros s.
  - cbn. split; [intros _; lia|discriminate].
  - destruct (exist_attempt_spec E p s) as (Hr & Hn & Hc).
    rewrite exist_loop_step by exact Hi.
    destruct (exist_attempt E p s) as [o s1]. cbn in Hr, Hn, Hc. subst o.
    destruct (attempt_ok E p (captures s)).
    + cbn. split; [discriminate|]. intros _. lia.
    + destruct (IH (advanced s1 (seconds interval))) as [Hfalse Htrue].
      cbn in Hfalse, Htrue.
      split; intros Hres.
      * rewrite (Hfalse Hres). lia.
      * specialize (Htrue Hres). lia.
Qed.

(** X5: the delay is fixed and follows every failed attempt, the last one
    included.  A retry that returns False has slept exactly N times the
    delay (one second for [safe_click], [interval] seconds for the
    method); a retry that returns True has slept once per failed attempt
    before the successful one, and not after it. *)
Theorem retry_delays E self p (N interval : Z) s :
  0 <= N -> 0 <= interval ->
  let r1 := safe_click E self p N s in
  let r2 := self_check_element_exist E self p N interval s in
  (fst r1 = Ret false -> clock (snd r1) = clock s + seconds 1 * N) /\
  (fst r1 = Ret true ->
     clock (snd r1) - clock s =
       seconds 1 * (Z.of_nat (captures (snd r1)) - Z.of_nat (captures s) - 1)) /\
  (fst r2 = Ret false -> clock (snd r2) = clock s + seconds interval * N) /\
  (fst r2 = Ret true ->
     clock (snd r2) - clock s =
       seconds interval * (Z.of_nat (captures (snd r2)) - Z.of_nat (captures s) - 1)).
Proof.
  intros HN Hi r1 r2. subst r1 r2. unfold safe_click, self_check_element_exist.
  destruct (safe_click_loop_clock E p (Z.to_nat N) s) as [H1 H2].
  destruct (exist_loop_clock E p interval (Z.to_nat N) s Hi) as [H3 H4].
  rewrite Z2Nat.id in H1, H3 by exact HN.
  change (seconds 1) with 1000.
  split; [exact H1|]. split; [exact H2|]. split; [exact H3|exact H4].
Qed.

(** Three failed clicks take three seconds. *)
Lemma retry_delays_witness :
  clock (snd (safe_click (demo_env Windows scene_blank (fun _ => true))
                (Automator CONFIG) (AStr "./images/windows/send_button.png") 3 s0))
  = clock s0 + seconds 1 * 3.
Proof.
  apply (proj1 (retry_delays (demo_env Windows scene_blank (fun _ => true))
                  (Automator CONFIG) (AStr "./images/windows/send_button.png")
                  3 2 s0 ltac:(lia) ltac:(lia))).
  reflexivity.
Defined.

(** ** Presence checks only look *)

(** X6: the presence checks only look at the screen.  A locate leaves
    nothing but grabs and debug screenshots; the method
    [check_element_exist] and the whole of [wait_execution] add log
    records to that and nothing else: no click, no key, no clipboard, no
    process, no window activation. *)
Theorem presence_checks_only_look E self p c (N interval : Z) timeout fuel :
  emits (only [KGrab; KSave]) (check_element_exist E p c) /\
  emits (only [KGrab; KSave; KLog]) (self_check_element_exist E self p N interval) /\
  emits (only [KGrab; KSave; KLog]) (wait_execution E self timeout fuel).
Proof.
  split; [apply check_element_exist_kinds|].
  split; [apply self_check_kinds|apply wait_execution_kinds].
Qed.

(** ** Key chords *)

Lemma hotkey_press_keys_run keys s :
  hotkey_press_keys keys s =
    (Ret tt, State (clock s + 500 * Z.of_nat (length keys)) (captures s)
               (focus_calls s) (runs s) (trace s ++ (Press <$> keys))).
Proof.
  revert s. induction keys as [|k ks IH]; intros s.
  - cbn. unfold ret. rewrite Z.add_0_r, app_nil_r. by destruct s.
  - cbn [hotkey_press_keys]. unfold bind, emit, time_sleep. cbn [Z.ltb Z.compare].
    rewrite IH. cbn. f_equal. f_equal; [lia|]. by rewrite <- app_assoc.
Qed.

Lemma hotkey_darwin_keys_run keys s :
  hotkey_darwin_keys keys s =
    (Ret tt, State (clock s + 600 * Z.of_nat (length keys)) (captures s)
               (focus_calls s) (runs s)
               (trace s ++ flat_map (fun key => [KeyDown key; KeyUp key]) keys)).
Proof.
  revert s. induction keys as [|k ks IH]; intros s.
  - cbn. unfold ret. rewrite Z.add_0_r, app_nil_r. by destruct s.
  - cbn [hotkey_darwin_keys]. unfold bind, emit, time_sleep. cbn [Z.ltb Z.compare].
    rewrite IH. cbn. f_equal. f_equal; [lia|]. by rewrite <- !app_assoc.
Qed.

Lemma _hotkey_run E self first_key keys s :
  _hotkey E self (AList (first_key :: keys)) s =
    (Ret tt, State (clock s + chord_millis (is_darwin (env_platform E)) keys)
               (captures s) (focus_calls s) (runs s)
               (trace s ++ chord_events (is_darwin (env_platform E)) first_key keys)).
Proof.
  unfold _hotkey, chord_events, chord_millis. unfold bind at 1. cbn [as_keys lift ret].
  destruct (env_platform E); cbn [is_darwin];
    unfold bind, emit, time_sleep; cbn [Z.ltb Z.compare];
    rewrite ?hotkey_press_keys_run, ?hotkey_darwin_keys_run;
    unfold with_event, advanced; cbn;
    (f_equal; f_equal; [lia | by rewrite <- !app_assoc]).
Qed.

(** X7: [_hotkey] on a non-empty key list holds the first key, strikes
    the others in order and releases the first key last, so no key is
    left held; the time it takes is fixed by the number of keys.  On an
    empty list it raises [IndexError], and on a value that is not a list
    it raises too, in both cases before any key event. *)
Theorem hotkey_chord E self first_key keys s :
  let darwin := is_darwin (env_platform E) in
  _hotkey E self (AList (first_key :: keys)) s =
    (Ret tt, State (clock s + chord_millis darwin keys) (captures s)
               (focus_calls s) (runs s)
               (trace s ++ chord_events darwin first_key keys)) /\
  _hotkey E self (AList []) s = (Raise (IndexError "pop from empty list"), s) /\
  (forall n, exists e, _hotkey E self (AInt n) s = (Raise e, s)) /\
  (forall t, exists e, _hotkey E self (AStr t) s = (Raise e, s)).
Proof.
  cbv zeta. split; [apply _hotkey_run|].
  split; [reflexivity|split; intros; eexists; reflexivity].
Qed.

(** ** Entering text *)

(** X8: how text is entered.  [input_text] pastes through the clipboard
    with the platform's control key when the language is zh or the
    platform is macOS, and types the text otherwise, leaving the clipboard
    alone.  [input_prompt] always asks for zh: on every platform the
    prompt is pasted, and nothing in [input_prompt] ever types. *)
Theorem text_entry E self text lang prompt s :
  (String.eqb lang "zh" || is_darwin (env_platform E) = true ->
   input_text E self text lang s =
     (Ret tt, State (clock s + 2500) (captures s) (focus_calls s) (runs s)
                (trace s ++ [ClipCopy text; KeyDown (ctrl_key E); Press "v";
                             KeyUp (ctrl_key E)]))) /\
  (String.eqb lang "zh" || is_darwin (env_platform E) = false ->
   input_text E self text lang s =
     (Ret tt, State (clock s + 500) (captures s) (focus_calls s) (runs s)
                (trace s ++ [Typewrite text]))) /\
  begins (trace s ++ [Log INFO "输入业务提示..."; ClipCopy prompt;
                      KeyDown (ctrl_key E); Press "v"; KeyUp (ctrl_key E)])
    (input_prompt E self prompt) s /\
  emits (only K_prompt) (input_prompt E self prompt).
Proof.
  split; [|split; [|split; [|apply input_prompt_kinds]]].
  - intros Hp. unfold input_text. rewrite Hp.
    unfold bind, emit, time_sleep, with_event, advanced. cbn.
    f_equal. f_equal; [lia|]. by rewrite <- !app_assoc.
  - intros Hp. unfold input_text. rewrite Hp.
    unfold bind, emit, time_sleep, with_event, advanced. cbn. reflexivity.
  - unfold input_prompt, logger.
    eapply begins_step; [reflexivity|].
    eapply (begins_bind (only K_prompt)).
    + unfold input_text. change (String.eqb "zh" "zh") with true. cbn [orb].
      unfold begins, bind, emit, time_sleep, with_event, advanced. cbn.
      exists []. by rewrite <- !app_assoc, app_nil_r.
    + intros ?. kinds_auto.
Qed.

Lemma text_entry_witness :
  input_text (demo_env Linux scene_idle (fun _ => true)) (Automator CONFIG)
    "hello" "en" s0 = (Ret tt, State 500 0 0 0 [Typewrite "hello"]) /\
  input_text (demo_env Linux scene_idle (fun _ => true)) (Automator CONFIG)
    "hello" "zh" s0 =
    (Ret tt, State 2500 0 0 0 [ClipCopy "hello"; KeyDown "ctrl"; Press "v"; KeyUp "ctrl"]).
Proof.
  split.
  - exact (proj1 (proj2 (text_entry (demo_env Linux scene_idle (fun _ => true))
                           (Automator CONFIG) "hello" "en" "task" s0)) eq_refl).
  - exact (proj1 (text_entry (demo_env Linux scene_idle (fun _ => true))
                    (Automator CONFIG) "hello" "zh" "task" s0) eq_refl).
Defined.

(** ** Focusing the window *)

Lemma py_index_head {A} (l : list A) :
  py_index l 0 =
  match head l with
  | Some x => Ok x
  | None => Err (IndexError "list index out of range")
  end.
Proof. destruct l as [|x l]; reflexivity. Qed.

(** X9: off macOS, [focus_window] returns True exactly when the
    configured title is a string, some window carries it and activating
    the first such window raises nothing; it then has waited 1.5 seconds
    and done nothing else than the activation.  In every other case it
    returns False: it never raises. *)
Theorem focus_window_result E self s :
  is_darwin (env_platform E) = false ->
  let n := focus_calls s in
  (forall title w,
     config self !! "window_title" = Some (CAtom (AStr title)) ->
     head (env_windows E n title) = Some w ->
     env_activate E n w = None ->
     focus_window E self s =
       (Ret true, State (clock s + 1500) (captures s) (S n) (runs s)
                    (trace s ++ [Activate w]))) /\
  (fst (focus_window E self s) = Ret true ->
     exists title w,
       config self !! "window_title" = Some (CAtom (AStr title)) /\
       head (env_windows E n title) = Some w /\
       env_activate E n w = None) /\
  (fst (focus_window E self s) = Ret true \/ fst (focus_window E self s) = Ret false).
Proof.
  intros Hplat n. subst n.
  split; [|split].
  - intros title w Hcfg Hhead Hact.
    unfold focus_window, try_except, bind, next_focus, cfg1, config_get, as_str,
      win_activate, emit, time_sleep, with_event, advanced.
    cbn. destruct (env_platform E); try discriminate;
      rewrite Hcfg; cbn; rewrite py_index_head, Hhead; cbn; rewrite Hact; reflexivity.
  - unfold focus_window, try_except, bind, next_focus, logger, cfg1, config_get, as_str,
      win_activate, emit, time_sleep, with_event, advanced.
    cbn. destruct (env_platform E); try discriminate;
      (destruct (config self !! "window_title") as [[[title| |]|]|] eqn:Hcfg; cbn;
       try discriminate;
       rewrite py_index_head;
       destruct (head (env_windows E (focus_calls s) title)) as [w|] eqn:Hhead; cbn;
       try discriminate;
       destruct (env_activate E (focus_calls s) w) as [e|] eqn:Hact; cbn;
       try discriminate;
       intros _; eauto).
  - destruct (focus_window_returns E self s) as [[|] Hb]; [left|right]; exact Hb.
Qed.

Lemma focus_window_result_witness :
  focus_window (demo_env Windows scene_idle (fun _ => true)) (Automator CONFIG) s0 =
    (Ret true, State 1500 0 1 0 [Activate (Window "fastapi-demo")]).
Proof.
  exact (proj1 (focus_window_result (demo_env Windows scene_idle (fun _ => true))
                  (Automator CONFIG) s0 eq_refl)
           "fastapi-demo" (Window "fastapi-demo") eq_refl eq_refl eq_refl).
Defined.

(** X10: on macOS the result of [focus_window] does not depend on any
    window: as soon as a title is configured (a value of any type, which
    the script interpolates) and the two osascript runs start, it returns
    True, after 2.5 seconds of sleep, whether or not a window with that
    title exists. *)
Theorem focus_window_darwin E self v out1 out2 s :
  env_platform E = Darwin ->
  config self !! "window_title" = Some v ->
  env_run E (runs s) (OsaActivate "Cursor") = Ok out1 ->
  env_run E (S (runs s)) (OsaRaise "Cursor" v) = Ok out2 ->
  focus_window E self s =
    (Ret true, State (clock s + 2500) (captures s) (S (focus_calls s)) (S (S (runs s)))
                 (trace s ++ [Run (OsaActivate "Cursor");
                              Run (OsaRaise "Cursor" v)])).
Proof.
  intros Hplat Hcfg Hrun1 Hrun2.
  unfold focus_window, try_except, bind, next_focus, cfg1, config_get,
    subprocess_run, next_run, emit, time_sleep, with_event, advanced.
  cbn. rewrite Hplat. cbn. rewrite Hrun1. cbn. rewrite Hcfg. cbn. rewrite Hrun2. cbn.
  f_equal. f_equal; [lia|]. by rewrite <- !app_assoc.
Qed.

(** No window at all, and the focus is reported as obtained. *)
Lemma focus_window_darwin_witness :
  focus_window (demo_env Darwin scene_idle (fun _ => false)) (Automator CONFIG) s0 =
    (Ret true, State 2500 0 1 2
                 [Run (OsaActivate "Cursor");
                  Run (OsaRaise "Cursor" (CAtom (AStr "fastapi-demo")))]).
Proof.
  exact (focus_window_darwin (demo_env Darwin scene_idle (fun _ => false))
           (Automator CONFIG) (CAtom (AStr "fastapi-demo")) "" "" s0
           eq_refl eq_refl eq_refl eq_refl).
Defined.

(** ** Opening the project *)

Lemma open_project_search_missing E self s :
  (forall p, p ∈ cursor_paths -> env_path_exists E (env_expandvars E p) = false) ->
  open_project_search E self cursor_paths s =
    (Ret tt, with_event s (Log ERROR "无法找到Cursor可执行文件，请手动设置正确的路径")).
Proof.
  intros Hno. unfold cursor_paths in *. cbn [open_project_search].
  rewrite !Hno by (repeat constructor). reflexivity.
Qed.

Lemma open_project_raises E self path e s :
  is_windows (env_platform E) = false ->
  config self !! "project_path" = Some (CAtom (AStr path)) ->
  env_run E (runs s) (Exec ["cursor"; path]) = Err e ->
  open_project E self s =
    (Raise e, State (clock s) (captures s) (focus_calls s) (S (runs s))
                (trace s ++ [Run (Exec ["cursor"; path])])).
Proof.
  intros Hwin Hcfg Hrun.
  unfold open_project, bind, cfg1, config_get, as_str, subprocess_run, next_run, emit,
    with_event.
  rewrite Hwin, Hcfg. cbn. rewrite Hrun. reflexivity.
Qed.

(** X11: a failed launch is handled differently on the two kinds of
    platform.  On Windows, when no candidate install path exists,
    [open_project] never raises: whatever happened to the shell launch
    (even a missing project path), it logs and returns after its
    two-second sleep, and the workflow goes on.  Elsewhere the exception of
    the launch, or the [KeyError] of a missing project path, leaves
    [open_project], and [execute_workflow] returns False. *)
Theorem open_project_failures E self task files fuel s :
  (is_windows (env_platform E) = true ->
   (forall p, p ∈ cursor_paths -> env_path_exists E (env_expandvars E p) = false) ->
   exists s', open_project E self s = (Ret tt, s') /\ clock s' = clock s + 2000) /\
  (is_windows (env_platform E) = false ->
   forall path e,
     config self !! "project_path" = Some (CAtom (AStr path)) ->
     env_run E (runs s) (Exec ["cursor"; path]) = Err e ->
     open_project E self s =
       (Raise e, State (clock s) (captures s) (focus_calls s) (S (runs s))
                   (trace s ++ [Run (Exec ["cursor"; path])])) /\
     fst (execute_workflow E self task files fuel s) = Ret false) /\
  (is_windows (env_platform E) = false ->
   config self !! "project_path" = None ->
   open_project E self s = (Raise (KeyError "project_path"), s) /\
   fst (execute_workflow E self task files fuel s) = Ret false).
Proof.
  split; [|split].
  - intros Hwin Hno. unfold open_project. rewrite Hwin.
    unfold try_except, bind at 1, bind at 1, cfg1, config_get, logger.
    destruct (config self !! "project_path") as [v|]; cbn [lift ret raise].
    + unfold bind at 1, subprocess_run, bind at 1, next_run, bind at 1, emit.
      cbn [runs with_event].
      destruct (env_run E (runs s) (ShellCursor v)) as [out|e];
        cbn [lift ret raise].
      * eexists. split; [reflexivity|]. cbn. lia.
      * unfold bind at 1. cbn [emit]. rewrite open_project_search_missing by exact Hno.
        eexists. split; [reflexivity|]. cbn. lia.
    + unfold bind at 1. cbn [emit]. rewrite open_project_search_missing by exact Hno.
      eexists. split; [reflexivity|]. cbn. lia.
  - intros Hwin path e Hcfg Hrun. split; [by apply open_project_raises|].
    unfold execute_workflow, try_except, execute_workflow_body, logger.
    unfold bind at 1. cbn [emit]. unfold bind at 1.
    rewrite (open_project_raises E self path e) by (cbn; assumption).
    reflexivity.
  - intros Hwin Hcfg.
    assert (Hraise : forall s1, open_project E self s1 = (Raise (KeyError "project_path"), s1)).
    { intros s1. unfold open_project, bind, cfg1, config_get.
      rewrite Hwin, Hcfg. reflexivity. }
    split; [apply Hraise|].
    unfold execute_workflow, try_except, execute_workflow_body, logger.
    unfold bind at 1. cbn [emit]. unfold bind at 1. rewrite Hraise. reflexivity.
Qed.

Lemma open_project_failures_witness :
  (exists s', open_project (demo_env Windows scene_idle (fun _ => true))
                (Automator (delete "project_path" CONFIG)) s0 = (Ret tt, s') /\
              clock s' = clock s0 + 2000) /\
  fst (execute_workflow (demo_env Linux scene_idle (fun _ => true))
         (Automator (delete "project_path" CONFIG)) "task" [] 100 s0) = Ret false.
Proof.
  split.
  - apply (proj1 (open_project_failures (demo_env Windows scene_idle (fun _ => true))
                    (Automator (delete "project_path" CONFIG)) "task" [] 100%nat s0));
      [reflexivity|]. intros p _. reflexivity.
  - apply (proj2 (proj2 (open_project_failures
                           (demo_env Linux scene_idle (fun _ => true))
                           (Automator (delete "project_path" CONFIG))
                           "task" [] 100%nat s0)));
      reflexivity.
Defined.

(** ** Opening the Composer panel *)

Lemma bind_run {A B} (m : M A) (k : A -> M B) s a s1 :
  m s = (Ret a, s1) -> bind m k s = k a s1.
Proof. intros Hm. unfold bind. rewrite Hm. reflexivity. Qed.

Lemma sleep_atom_run E (n : Z) s :
  0 <= n -> sleep_atom E (AInt n) s = (Ret tt, advanced s (seconds n)).
Proof.
  intros Hn. unfold sleep_atom, bind, time_sleep, seconds. cbn.
  assert (Hs : (1000 * n <? 0) = false) by (apply Z.ltb_ge; lia).
  rewrite Hs. reflexivity.
Qed.

Section OpenComposer.

Variable E : env.
Variable self : automator.
Variables (hk tm ui : gmap string atom) (k : string) (ks : list string).
Variables (pause : Z) (img : atom).
Hypothesis Hhk : config self !! "hotkeys" = Some (CDict hk).
Hypothesis Hkeys : hk !! "open_composer" = Some (AList (k :: ks)).
Hypothesis Htm : config self !! "wait_timeouts" = Some (CDict tm).
Hypothesis Hpause : tm !! "after_open" = Some (AInt pause).
Hypothesis Hpos : 0 <= pause.
Hypothesis Hui : config self !! "ui_elements" = Some (CDict ui).
Hypothesis Himg : ui !! "agent_mode" = Some img.

(** Focus, chord, settle: the gesture that opens the panel always goes
    through, and asks for no capture. *)
Lemma open_gesture_then {B} (K : M B) s :
  exists s',
    captures s' = captures s /\
    (focus_window E self ;;
     keys <- cfg2 self "hotkeys" "open_composer" ;;
     _hotkey E self keys ;;
     pause <- cfg2 self "wait_timeouts" "after_open" ;;
     sleep_atom E pause ;;
     K) s = K s'.
Proof.
  destruct (focus_window_returns E self s) as [b Hb].
  pose proof (focus_window_keeps E self s) as Hkeep.
  destruct (focus_window E self s) as [o s1] eqn:Hf. cbn in Hb, Hkeep. subst o.
  rewrite (bind_run _ _ _ _ _ Hf).
  rewrite (bind_run _ _ _ _ _ (cfg2_eval self _ _ _ _ s1 Hhk Hkeys)).
  rewrite (bind_run _ _ _ _ _ (_hotkey_run E self k ks s1)).
  rewrite (bind_run _ _ _ _ _ (cfg2_eval self _ _ _ _ _ Htm Hpause)).
  rewrite (bind_run _ _ _ _ _ (sleep_atom_run E pause _ Hpos)).
  eexists. split; [|reflexivity]. cbn. exact Hkeep.
Qed.

Lemma open_composer_loop_spec n s :
  retry_result E img (captures s) n (open_composer_loop E self n s).
Proof.
  revert s. induction n as [|n IH]; intros s.
  - right. split; [intros j Hj; lia|]. cbn. split; [done|lia].
  - cbn [open_composer_loop].
    rewrite (bind_run _ _ _ _ _ (cfg2_eval self _ _ _ _ s Hui Himg)).
    pose proof (exist_loop_spec E img 1 1 s ltac:(lia)) as Hone.
    unfold bind at 1. unfold self_check_element_exist.
    change (Z.to_nat 1) with 1%nat.
    destruct (exist_loop E img 1 1 s) as [o s1].
    destruct Hone as [(j & Hj & _ & Hok & Hres & Hn) | (Hall & Hres & Hn)];
      cbn in Hres, Hn; subst o.
    + assert (j = 0)%nat by lia. subst j. rewrite Nat.add_0_r in Hok.
      left. exists 0%nat. split; [lia|]. split; [intros i Hi; lia|].
      rewrite Nat.add_0_r. split; [exact Hok|]. cbn. split; [done|lia].
    + apply retry_result_step.
      { specialize (Hall 0%nat ltac:(lia)). by rewrite Nat.add_0_r in Hall. }
      unfold logger. unfold bind at 1. cbn [emit].
      destruct (open_gesture_then (open_composer_loop E self n)
                  (with_event s1
                     (Log INFO ("未检测到Composer界面，重试中 (剩余" +:+ pretty n +:+ "次)..."))))
        as (s2 & Hcap & Heq).
      rewrite Heq.
      replace (S (captures s)) with (captures s2) by (rewrite Hcap; cbn; lia).
      apply IH.
Qed.

Lemma open_composer_spec s :
  retry_result E img (captures s) 3 (open_composer E self s).
Proof.
  unfold open_composer, logger. unfold bind at 1. cbn [emit].
  destruct (open_gesture_then (open_composer_loop E self 3)
              (with_event s (Log INFO "正在打开Composer...")))
    as (s2 & Hcap & Heq).
  rewrite Heq.
  replace (captures s) with (captures s2) by (rewrite Hcap; reflexivity).
  apply open_composer_loop_spec.
Qed.

End OpenComposer.

(** X12: with its three configuration entries in place, [open_composer]
    is a bounded retry on the agent-mode element: it never raises, it
    returns True as soon as one of at most three checks finds the element
    and makes no further check, and it returns False after exactly three
    failed checks. *)
Theorem open_composer_result E self hk tm ui k ks pause img s :
  config self !! "hotkeys" = Some (CDict hk) ->
  hk !! "open_composer" = Some (AList (k :: ks)) ->
  config self !! "wait_timeouts" = Some (CDict tm) ->
  tm !! "after_open" = Some (AInt pause) ->
  0 <= pause ->
  config self !! "ui_elements" = Some (CDict ui) ->
  ui !! "agent_mode" = Some img ->
  let r := open_composer E self s in
  let c0 := captures s in
  (fst r = Ret true \/ fst r = Ret false) /\
  (fst r = Ret true <->
     exists j, (j < 3)%nat /\ attempt_ok E img (c0 + j) = true) /\
  (fst r = Ret true ->
     exists j, (j < 3)%nat /\ captures (snd r) = (c0 + j + 1)%nat /\
       attempt_ok E img (c0 + j) = true /\
       forall i, (i < j)%nat -> attempt_ok E img (c0 + i) = false) /\
  (fst r = Ret false -> captures (snd r) = (c0 + 3)%nat).
Proof.
  intros Hhk Hkeys Htm Hpause Hpos Hui Himg r c0. subst r c0.
  destruct (open_composer_spec E self hk tm ui k ks pause img
              Hhk Hkeys Htm Hpause Hpos Hui Himg s)
    as [(j & Hj & Hbefore & Hok & Hres & Hn) | (Hall & Hres & Hn)];
    rewrite Hres.
  - split; [by left|]. split; [split; [eauto|done]|]. split; [|discriminate].
    intros _. exists j. eauto.
  - split; [by right|]. split; [|split; [discriminate|done]].
    split; [discriminate|]. intros (j & Hj & Hok). rewrite Hall in Hok; [discriminate|lia].
Qed.

(** The panel shows on the second check. *)
Lemma open_composer_result_witness :
  let E := demo_env Windows (fun n _ => if n <? 1 then 1 # 10 else 95 # 100)
             (fun _ => true) in
  fst (open_composer E (Automator CONFIG) s0) = Ret true \/
  fst (open_composer E (Automator CONFIG) s0) = Ret false.
Proof.
  intros E.
  exact (proj1 (open_composer_result E (Automator CONFIG) CONFIG_hotkeys CONFIG_timeouts
                  CONFIG_ui "ctrl" ["i"] 1 (AStr "./images/windows/agent_mode.png") s0
                  eq_refl eq_refl eq_refl eq_refl ltac:(lia) eq_refl eq_refl)).
Defined.

Example open_composer_second_check :
  let E := demo_env Windows (fun n _ => if n <? 1 then 1 # 10 else 95 # 100)
             (fun _ => true) in
  let r := open_composer E (Automator CONFIG) s0 in
  fst r = Ret true /\ captures (snd r) = 2%nat.
Proof. split; reflexivity. Qed.

(** ** Starting a session *)

Lemma focus_then {B} E self (K : bool -> M B) s :
  exists b s', focus_window E self s = (Ret b, s') /\
               bind (focus_window E self) K s = K b s'.
Proof.
  destruct (focus_window_returns E self s) as [b Hb].
  destruct (focus_window E self s) as [o s1] eqn:Hf. cbn in Hb. subst o.
  exists b, s1. split; [reflexivity|]. apply bind_run. exact Hf.
Qed.

Lemma new_session_run E self hk k ks s :
  config self !! "hotkeys" = Some (CDict hk) ->
  hk !! "new_session" = Some (AList (k :: ks)) ->
  exists s3,
    new_session E self s =
      (Ret true,
       with_event
         (advanced
            (with_event
               (advanced
                  (with_event
                     (advanced
                        (with_event (advanced s3 1000) (Hotkey [modifier E; "a"]))
                        500)
                     (Press "delete"))
                  500)
               (Press "delete"))
            500)
         (Log INFO "新会话创建完成，输入区域正常")).
Proof.
  intros Hhk Hkeys. unfold new_session, logger.
  rewrite (bind_run _ _ _ _ _ (eq_refl : emit _ s = (Ret tt, with_event s _))).
  match goal with
  | |- context [bind (focus_window E self) ?K ?st] =>
      destruct (focus_then E self K st) as (b & s1 & _ & ->)
  end.
  rewrite (bind_run _ _ _ _ _ (eq_refl : time_sleep 1000 s1 = (Ret tt, advanced s1 1000))).
  rewrite (bind_run _ _ _ _ _ (cfg2_eval self _ _ _ _ _ Hhk Hkeys)).
  rewrite (bind_run _ _ _ _ _ (_hotkey_run E self k ks _)).
  match goal with
  | |- context [bind (time_sleep 1000) ?K ?st] =>
      rewrite (bind_run (time_sleep 1000) K st tt (advanced st 1000) eq_refl)
  end.
  match goal with
  | |- context [bind (focus_window E self) ?K ?st] =>
      destruct (focus_then E self K st) as (b' & s3 & _ & ->)
  end.
  exists s3. unfold modifier, bind, emit, time_sleep. cbn [Z.ltb Z.compare].
  destruct (is_darwin (env_platform E)); reflexivity.
Qed.

(** X13: with the new-session chord configured, [new_session] always
    returns True.  It never looks at the screen, and the last things it
    does are the select-all chord and two presses of delete: the result
    says nothing about whether a session was opened. *)
Theorem new_session_unverified E self hk k ks s :
  config self !! "hotkeys" = Some (CDict hk) ->
  hk !! "new_session" = Some (AList (k :: ks)) ->
  fst (new_session E self s) = Ret true /\
  captures (snd (new_session E self s)) = captures s /\
  (exists pre,
     trace (snd (new_session E self s)) =
       pre ++ [Hotkey [modifier E; "a"]; Press "delete"; Press "delete";
               Log INFO "新会话创建完成，输入区域正常"]) /\
  emits (only K_session) (new_session E self).
Proof.
  intros Hhk Hkeys.
  split; [|split; [apply new_session_keeps|split; [|apply new_session_kinds]]].
  - destruct (new_session_run E self hk k ks s Hhk Hkeys) as [s3 ->]. reflexivity.
  - destruct (new_session_run E self hk k ks s Hhk Hkeys) as [s3 ->].
    exists (trace s3). cbn. by rewrite <- !app_assoc.
Qed.

Lemma new_session_unverified_witness :
  fst (new_session (demo_env Linux scene_blank (fun _ => false)) (Automator CONFIG) s0)
  = Ret true.
Proof.
  exact (proj1 (new_session_unverified (demo_env Linux scene_blank (fun _ => false))
                  (Automator CONFIG) CONFIG_hotkeys "ctrl" ["n"] s0 eq_refl eq_refl)).
Defined.

(** ** Attaching files *)

Lemma clip_texts_app l1 l2 : clip_texts (l1 ++ l2) = clip_texts l1 ++ clip_texts l2.
Proof.
  induction l1 as [|ev l1 IH]; [reflexivity|].
  destruct ev; cbn; rewrite ?IH; reflexivity.
Qed.

Lemma presses_of_app l1 l2 : presses_of (l1 ++ l2) = presses_of l1 ++ presses_of l2.
Proof.
  induction l1 as [|ev l1 IH]; [reflexivity|].
  destruct ev; cbn; rewrite ?IH; reflexivity.
Qed.

Lemma clip_texts_only K l :
  kind_in KClipCopy K = false -> Forall (only K) l -> clip_texts l = [].
Proof.
  intros HK. induction 1 as [|ev l Hev _ IH]; [reflexivity|].
  destruct ev; cbn; try exact IH.
  unfold only in Hev. cbn in Hev. congruence.
Qed.

Lemma presses_of_only K l :
  kind_in KPress K = false -> Forall (only K) l -> presses_of l = [].
Proof.
  intros HK. induction 1 as [|ev l Hev _ IH]; [reflexivity|].
  destruct ev; cbn; try exact IH.
  unfold only in Hev. cbn in Hev. congruence.
Qed.

Ltac run_bind tac :=
  match goal with
  | |- context [bind ?m ?K ?st] =>
      let H := fresh "Hrun" in
      eassert (H : m st = (Ret _, _)) by tac;
      rewrite (bind_run m K st _ _ H); clear H
  end.

Section LinkFiles.

Variable E : env.
Variable self : automator.
Variables (tm : gmap string atom) (pause : Z).
Hypothesis Htm : config self !! "wait_timeouts" = Some (CDict tm).
Hypothesis Hpause : tm !! "per_file" = Some (AInt pause).
Hypothesis Hpos : 0 <= pause.
Hypothesis Hpbpaste :
  is_darwin (env_platform E) = true ->
  forall n, exists out, env_run E n (Exec ["pbpaste"]) = Ok out.

Lemma link_files_loop_run files s :
  exists s' added,
    link_files_loop E self files s = (Ret tt, s') /\
    trace s' = trace s ++ added /\
    clip_texts added = files /\
    presses_of added = flat_map (fun _ => [" "; "@"; "enter"]) files.
Proof.
  revert s. induction files as [|path rest IH]; intros s.
  - exists s, []. cbn. by rewrite app_nil_r.
  - cbn [link_files_loop]. unfold logger.
    do 5 run_bind ltac:(reflexivity).
    destruct (is_darwin (env_platform E)) eqn:Hd.
    + destruct (Hpbpaste eq_refl (runs s)) as [out Hout].
      run_bind ltac:(unfold bind, emit, time_sleep, subprocess_run, next_run, logger, bind;
                     cbn; rewrite Hout; reflexivity).
      do 3 run_bind ltac:(reflexivity).
      run_bind ltac:(eapply cfg2_eval; eassumption).
      run_bind ltac:(apply sleep_atom_run; assumption).
      match goal with
      | |- context [link_files_loop E self rest ?st] =>
          destruct (IH st) as (s' & added & Heq & Ht & Hclip & Hpress)
      end.
      exists s'. eexists. split; [exact Heq|].
      cbn in Ht. rewrite <- !app_assoc in Ht. cbn in Ht.
      split; [exact Ht|].
      cbn. rewrite ?clip_texts_app, ?presses_of_app, Hclip, Hpress. cbn.
      split; reflexivity.
    + run_bind ltac:(reflexivity).
      do 3 run_bind ltac:(reflexivity).
      run_bind ltac:(eapply cfg2_eval; eassumption).
      run_bind ltac:(apply sleep_atom_run; assumption).
      match goal with
      | |- context [link_files_loop E self rest ?st] =>
          destruct (IH st) as (s' & added & Heq & Ht & Hclip & Hpress)
      end.
      exists s'. eexists. split; [exact Heq|].
      cbn in Ht. rewrite <- !app_assoc in Ht. cbn in Ht.
      split; [exact Ht|].
      cbn. rewrite ?clip_texts_app, ?presses_of_app, Hclip, Hpress. cbn.
      split; reflexivity.
Qed.

End LinkFiles.

Lemma focus_then_trace {B} E self (K : bool -> M B) s :
  exists b s' added,
    bind (focus_window E self) K s = K b s' /\
    captures s' = captures s /\
    trace s' = trace s ++ added /\ Forall (only K_window) added.
Proof.
  destruct (focus_then E self K s) as (b & s1 & Hf & Heq).
  pose proof (focus_window_keeps E self s) as Hkeep.
  destruct (focus_window_kinds E self s) as (_ & _ & added & Ht & Hall).
  rewrite Hf in Hkeep, Ht. cbn in Hkeep, Ht.
  exists b, s1, added. done.
Qed.

(** X14: [link_files] attaches the files in the order given.  With the
    settle time configured (and, on macOS, pbpaste able to run), it
    returns normally; the texts it put on the clipboard are exactly the
    paths, in order; the keys it pressed are space, at-sign and enter,
    once per file; and it never looks at the screen, so nothing is
    verified.  With no file it only focuses the window. *)
Theorem link_files_in_order E self tm pause files s :
  config self !! "wait_timeouts" = Some (CDict tm) ->
  tm !! "per_file" = Some (AInt pause) ->
  0 <= pause ->
  (is_darwin (env_platform E) = true ->
   forall n, exists out, env_run E n (Exec ["pbpaste"]) = Ok out) ->
  exists s' added,
    link_files E self files s = (Ret tt, s') /\
    trace s' = trace s ++ added /\
    clip_texts added = files /\
    presses_of added = flat_map (fun _ => [" "; "@"; "enter"]) files /\
    captures s' = captures s.
Proof.
  intros Htm Hpause Hpos Hpb.
  pose proof (link_files_keeps E self files s) as Hkeep.
  unfold link_files, logger in *.
  rewrite (bind_run _ _ _ _ _ (eq_refl : emit _ s = (Ret tt, with_event s _))) in *.
  match goal with
  | |- context [bind (focus_window E self) ?K ?st] =>
      destruct (focus_then_trace E self K st) as (b & s1 & added1 & Heq & _ & Ht1 & Hall)
  end.
  rewrite Heq in *.
  rewrite (bind_run _ _ _ _ _ (eq_refl : time_sleep 1000 s1 = (Ret tt, advanced s1 1000)))
    in *.
  destruct (link_files_loop_run E self tm pause Htm Hpause Hpos Hpb files
              (advanced s1 1000)) as (s' & added2 & Hrun & Ht2 & Hclip & Hpress).
  rewrite Hrun in *. cbn in Hkeep.
  exists s'. eexists. split; [reflexivity|].
  cbn in Ht1, Ht2. rewrite Ht2, Ht1, <- !app_assoc.
  split; [reflexivity|].
  cbn. rewrite !clip_texts_app, !presses_of_app, Hclip, Hpress.
  rewrite (clip_texts_only K_window added1 eq_refl Hall).
  rewrite (presses_of_only K_window added1 eq_refl Hall).
  split; [reflexivity|]. split; [reflexivity|exact Hkeep].
Qed.

Lemma link_files_in_order_witness :
  exists s' added,
    link_files (demo_env Windows scene_blank (fun _ => true)) (Automator CONFIG)
      ["a.py"; "b.py"] s0 = (Ret tt, s') /\
    trace s' = trace s0 ++ added /\
    clip_texts added = ["a.py"; "b.py"] /\
    presses_of added = flat_map (fun _ => [" "; "@"; "enter"]) ["a.py"; "b.py"] /\
    captures s' = captures s0.
Proof.
  apply (link_files_in_order (demo_env Windows scene_blank (fun _ => true))
           (Automator CONFIG) CONFIG_timeouts 1 ["a.py"; "b.py"] s0
           eq_refl eq_refl ltac:(lia)).
  intros Hd. discriminate Hd.
Defined.

(** X15: the settle time is read once per file, after the file has been
    pasted and confirmed.  When it is missing from the configuration, a
    call without files does not notice, and a call with files (off macOS)
    raises [KeyError] only after the first path has gone to the clipboard
    and enter has been pressed. *)
Theorem link_files_missing_settle E self tm path rest s :
  config self !! "wait_timeouts" = Some (CDict tm) ->
  tm !! "per_file" = None ->
  fst (link_files E self [] s) = Ret tt /\
  (is_darwin (env_platform E) = false ->
   fst (link_files E self (path :: rest) s) = Raise (KeyError "per_file") /\
   exists pre,
     trace (snd (link_files E self (path :: rest) s)) =
       pre ++ [Log INFO ("正在关联文件: " +:+ path); Press " "; Press "@";
               ClipCopy path; Hotkey ["ctrl"; "v"]; Press "enter"]).
Proof.
  intros Htm Hnone. split.
  - unfold link_files, logger.
    rewrite (bind_run _ _ _ _ _ (eq_refl : emit _ s = (Ret tt, with_event s _))).
    match goal with
    | |- context [bind (focus_window E self) ?K ?st] =>
        destruct (focus_then E self K st) as (b & s1 & _ & ->)
    end.
    reflexivity.
  - intros Hd.
    assert (Hcfg : forall st, cfg2 self "wait_timeouts" "per_file" st =
                              (Raise (KeyError "per_file"), st)).
    { intros st. unfold cfg2, config_get, bind. rewrite Htm. cbn. rewrite Hnone.
      reflexivity. }
    assert (Hrun : exists st pre,
      link_files E self (path :: rest) s = (Raise (KeyError "per_file"), st) /\
      trace st = pre ++ [Log INFO ("正在关联文件: " +:+ path); Press " "; Press "@";
                         ClipCopy path; Hotkey ["ctrl"; "v"]; Press "enter"]).
    { unfold link_files, logger.
      rewrite (bind_run _ _ _ _ _ (eq_refl : emit _ s = (Ret tt, with_event s _))).
      match goal with
      | |- context [bind (focus_window E self) ?K ?st] =>
          destruct (focus_then E self K st) as (b & s1 & _ & ->)
      end.
      rewrite (bind_run _ _ _ _ _
                 (eq_refl : time_sleep 1000 s1 = (Ret tt, advanced s1 1000))).
      cbn [link_files_loop]. unfold logger. rewrite Hd.
      do 9 run_bind ltac:(reflexivity).
      unfold bind at 1. rewrite Hcfg.
      eexists. exists (trace s1). split; [reflexivity|].
      cbn. by rewrite <- !app_assoc. }
    destruct Hrun as (st & pre & -> & Ht). split; [reflexivity|].
    exists pre. exact Ht.
Qed.

Lemma link_files_missing_settle_witness :
  fst (link_files (demo_env Windows scene_blank (fun _ => true))
         (Automator CONFIG_no_per_file) ["a.py"] s0) = Raise (KeyError "per_file").
Proof.
  apply (proj2 (link_files_missing_settle (demo_env Windows scene_blank (fun _ => true))
                  (Automator CONFIG_no_per_file) CONFIG_timeouts_no_per_file
                  "a.py" [] s0 eq_refl eq_refl));
    reflexivity.
Defined.

(** ** More on the wait for completion *)

(** X16: the timeout argument of [wait_execution].  Zero is not a
    timeout: like a missing argument it selects the configured value.  A
    non-zero argument is used as it is and the configuration is not read.
    A negative argument, or a configured value of zero, makes the call
    raise [TimeoutError] at once, without looking at the screen. *)
Theorem wait_execution_timeout_argument E self fuel s :
  wait_execution E self (Some 0) fuel s = wait_execution E self None fuel s /\
  (forall t, t <> 0 ->
     wait_execution E self (Some t) fuel s =
       wait_execution_loop E self (wall E s) t fuel s) /\
  (forall t, t < 0 ->
     wait_execution E self (Some t) fuel s = (Raise (TimeoutError "执行超时"), s)) /\
  (forall tm,
     config self !! "wait_timeouts" = Some (CDict tm) ->
     tm !! "execution" = Some (AInt 0) ->
     wait_execution E self None fuel s = (Raise (TimeoutError "执行超时"), s)).
Proof.
  split; [reflexivity|]. split; [|split].
  - intros t Ht. unfold wait_execution, effective_timeout.
    apply Z.eqb_neq in Ht. rewrite Ht. reflexivity.
  - intros t Ht. unfold wait_execution, effective_timeout.
    assert (Hne : (t =? 0) = false) by (apply Z.eqb_neq; lia). rewrite Hne.
    unfold bind, ret, now. rewrite wait_execution_loop_unfold.
    assert (Hlt : (wall E s - wall E s <? seconds t) = false)
      by (apply Z.ltb_ge; unfold seconds; lia).
    rewrite Hlt. reflexivity.
  - intros tm Htm Hzero. unfold wait_execution, effective_timeout, cfg2, config_get, bind.
    rewrite Htm. cbn. rewrite Hzero. cbn. rewrite wait_execution_loop_unfold.
    assert (Hlt : (wall E s - wall E s <? seconds 0) = false)
      by (apply Z.ltb_ge; unfold seconds; lia).
    rewrite Hlt. reflexivity.
Qed.

Lemma wait_execution_timeout_argument_witness :
  wait_execution (demo_env Windows scene_busy (fun _ => true)) (Automator CONFIG)
    (Some (-5)) 0 s0 = (Raise (TimeoutError "执行超时"), s0).
Proof.
  apply (proj1 (proj2 (proj2 (wait_execution_timeout_argument
                                (demo_env Windows scene_busy (fun _ => true))
                                (Automator CONFIG) 0%nat s0)))).
  lia.
Defined.

Lemma cfg2_state self k1 k2 s : snd (cfg2 self k1 k2 s) = s.
Proof.
  unfold cfg2, config_get, bind.
  destruct (config self !! k1) as [v|]; cbn; [|reflexivity].
  destruct (subscript v k2); reflexivity.
Qed.

(** A poll that sees the indicator has slept at most four seconds. *)
Lemma poll_generating_busy_clock E self s :
  fst (poll_generating E self s) = Ret true ->
  clock (snd (poll_generating E self s)) <= clock s + 4000.
Proof.
  unfold poll_generating. unfold bind.
  pose proof (cfg2_state self "ui_elements" "generating" s) as Hst.
  destruct (cfg2 self "ui_elements" "generating" s) as [[img|e|] s1];
    cbn in Hst; subst s1; cbn; try discriminate.
  unfold self_check_element_exist. change (Z.to_nat 3) with 3%nat.
  destruct (exist_loop_clock E img 2 3 s ltac:(lia)) as [_ Htrue].
  pose proof (exist_loop_spec E img 2 3 s ltac:(lia)) as Hspec.
  intros Hres. specialize (Htrue Hres).
  destruct Hspec as [(j & Hj & _ & _ & _ & Hn) | (_ & Hfalse & _)].
  - rewrite Hn in Htrue. unfold seconds in Htrue. lia.
  - rewrite Hres in Hfalse. discriminate.
Qed.

Lemma wait_execution_loop_overshoot E self start c0 timeout fuel s e s' :
  clock s - c0 < seconds timeout + 9000 ->
  clock s - c0 <= wall E s - start ->
  wait_execution_loop E self start timeout fuel s = (Raise e, s') ->
  seconds timeout <= wall E s' - start /\ clock s' - c0 < seconds timeout + 9000.
Proof.
  revert s. induction fuel as [|fuel IH]; intros s Hslept Hinv;
    rewrite wait_execution_loop_unfold.
  - destruct (wall E s - start <? seconds timeout) eqn:Ht; [discriminate|].
    intros Heq. injection Heq as _ <-. apply Z.ltb_ge in Ht. lia.
  - destruct (wall E s - start <? seconds timeout) eqn:Ht.
    + apply Z.ltb_lt in Ht.
      pose proof (poll_generating_busy_clock E self s) as Hclock.
      pose proof (evolves_wall E _ _ _ (poll_generating_b6 E self s)) as Hw.
      destruct (poll_generating E self s) as [[[|]|e'|] s1]; cbn in Hclock, Hw;
        try discriminate.
      specialize (Hclock eq_refl).
      apply IH; rewrite ?wall_advanced; cbn; lia.
    + intros Heq. injection Heq as _ <-. apply Z.ltb_ge in Ht. lia.
Qed.

(** X17: how late the timeout can be.  The deadline is tested on the wall
    clock, between passes.  When [wait_execution] raises, the wall clock
    has advanced by at least the timeout since the call, and the time
    slept since the call is less than the timeout plus nine seconds: one
    pass sleeps at most twice two seconds between its locates and five
    seconds after them.  The time slept may well be less than the
    timeout, since capturing and matching take time too. *)
Theorem wait_execution_overshoot E self arg timeout fuel s e s' :
  effective_timeout self arg s = (Ret timeout, s) ->
  0 <= timeout ->
  wait_execution E self arg fuel s = (Raise e, s') ->
  e = TimeoutError "执行超时" /\
  seconds timeout <= wall E s' - wall E s /\
  clock s' - clock s < seconds timeout + 9000.
Proof.
  intros Heff Hpos. unfold wait_execution, bind. rewrite Heff. cbn [now].
  intros Hrun. split.
  - apply (wait_execution_loop_raises E self (wall E s) timeout fuel s e).
    rewrite Hrun. reflexivity.
  - eapply wait_execution_loop_overshoot; [| |exact Hrun]; unfold seconds; lia.
Qed.

(** Every grab takes a hundred seconds: the timeout of 300 seconds is
    reached on the wall clock after three passes and fifteen seconds of
    sleep. *)
Lemma wait_execution_overshoot_witness :
  let r := wait_execution slow_env (Automator CONFIG) None 100 s0 in
  seconds 300 <= wall slow_env (snd r) - wall slow_env s0 /\
  clock (snd r) - clock s0 < seconds 300 + 9000.
Proof.
  intros r.
  refine (proj2 (wait_execution_overshoot slow_env
                   (Automator CONFIG) None 300 100%nat s0
                   (TimeoutError "执行超时") (snd r) eq_refl ltac:(lia) _)).
  vm_compute. reflexivity.
Defined.

Example wait_execution_slow_grabs :
  let r := wait_execution slow_env (Automator CONFIG) None 100 s0 in
  fst r = Raise (TimeoutError "执行超时") /\ clock (snd r) = 15000 /\
  wall slow_env (snd r) = 315000 /\ captures (snd r) = 3%nat.
Proof. vm_compute. repeat split; reflexivity. Qed.

Lemma effective_timeout_none self tm timeout s :
  config self !! "wait_timeouts" = Some (CDict tm) ->
  tm !! "execution" = Some (AInt timeout) ->
  effective_timeout self None s = (Ret timeout, s).
Proof.
  intros Htm Htimeout. unfold effective_timeout.
  rewrite (bind_run _ _ _ _ _ (cfg2_eval self _ _ _ _ s Htm Htimeout)). reflexivity.
Qed.

(** X18: a locate that fails counts as the indicator being gone.  If the
    three locates of the first poll all fail, by raising or by not
    matching, [wait_execution] reports completion: it returns True after
    three captures and six seconds of sleep. *)
Theorem wait_execution_done_on_failure E self ui tm img timeout fuel s :
  config self !! "ui_elements" = Some (CDict ui) ->
  ui !! "generating" = Some img ->
  config self !! "wait_timeouts" = Some (CDict tm) ->
  tm !! "execution" = Some (AInt timeout) ->
  0 < timeout ->
  (forall j, (j < 3)%nat -> attempt_ok E img (captures s + j) = false) ->
  fst (wait_execution E self None (S fuel) s) = Ret true /\
  clock (snd (wait_execution E self None (S fuel) s)) = clock s + 6000 /\
  captures (snd (wait_execution E self None (S fuel) s)) = (captures s + 3)%nat.
Proof.
  intros Hui Himg Htm Htimeout Hpos Hfail.
  unfold wait_execution.
  rewrite (bind_run _ _ _ _ _ (effective_timeout_none self tm timeout s Htm Htimeout)).
  rewrite (bind_run _ _ _ _ _ (eq_refl : now E s = (Ret (wall E s), s))).
  rewrite wait_execution_loop_unfold.
  assert (Hlt : (wall E s - wall E s <? seconds timeout) = true)
    by (apply Z.ltb_lt; unfold seconds; lia).
  rewrite Hlt.
  unfold poll_generating. rewrite (bind_run _ _ _ _ _ (cfg2_eval self _ _ _ _ s Hui Himg)).
  unfold self_check_element_exist. change (Z.to_nat 3) with 3%nat.
  destruct (exist_loop_clock E img 2 3 s ltac:(lia)) as [Hclock _].
  pose proof (exist_loop_spec E img 2 3 s ltac:(lia)) as Hspec.
  destruct (exist_loop E img 2 3 s) as [o s1].
  destruct Hspec as [(j & Hj & _ & Hok & _) | (_ & Hres & Hn)].
  - rewrite Hfail in Hok by exact Hj. discriminate.
  - cbn in Hres, Hn, Hclock. subst o. cbn. specialize (Hclock eq_refl).
    split; [reflexivity|]. split; [rewrite Hclock; unfold seconds; lia|exact Hn].
Qed.

(** Monitor 1 does not exist: no screen can be captured, and the wait
    reports that the execution has completed. *)
Lemma wait_execution_done_on_failure_witness :
  fst (wait_execution one_monitor_env (Automator CONFIG) None 1 s0) = Ret true.
Proof.
  refine (proj1 (wait_execution_done_on_failure one_monitor_env (Automator CONFIG)
                   CONFIG_ui CONFIG_timeouts (AStr "./images/windows/generating.png")
                   300 0%nat s0 eq_refl eq_refl eq_refl eq_refl ltac:(lia) _)).
  intros j Hj. reflexivity.
Defined.

(** ** The workflow as a whole *)

Lemma wait_execution_fuel_ok E self fuel :
  (forall t, configured_timeout self = Some t -> (poll_budget t <= fuel)%nat) ->
  fuel_free (wait_execution E self None fuel).
Proof.
  intros Hfuel s. unfold configured_timeout in Hfuel.
  destruct (config self !! "wait_timeouts") as [[a|tm]|] eqn:Htm;
    try (unfold wait_execution, effective_timeout, cfg2, config_get, bind;
         rewrite Htm; cbn; try destruct a; discriminate).
  destruct (tm !! "execution") as [[t|t|l]|] eqn:Ht;
    try (unfold wait_execution, effective_timeout, cfg2, config_get, bind;
         rewrite Htm; cbn; rewrite Ht; discriminate).
  eapply wait_execution_total; eauto.
Qed.

(** X19: [execute_workflow] always comes back with a boolean.  Whatever
    the world does and whatever the configuration holds, no exception
    leaves it, and given fuel for the configured timeout it terminates. *)
Theorem execute_workflow_returns_bool E self task files fuel s :
  (forall t, configured_timeout self = Some t -> (poll_budget t <= fuel)%nat) ->
  fst (execute_workflow E self task files fuel s) = Ret true \/
  fst (execute_workflow E self task files fuel s) = Ret false.
Proof.
  intros Hfuel.
  pose proof (wait_execution_fuel_ok E self fuel Hfuel) as Hwait.
  assert (Hbody : fuel_free (execute_workflow_body E self task files fuel)).
  { unfold execute_workflow_body, logger. fuel_auto. }
  specialize (Hbody s).
  unfold execute_workflow, try_except, logger.
  destruct (execute_workflow_body E self task files fuel s) as [[[|]|e|] s1];
    cbn in *; auto. done.
Qed.

Lemma execute_workflow_returns_bool_witness :
  fst (execute_workflow (demo_env Windows scene_late (fun _ => true))
         (Automator CONFIG) "task" ["a.py"] 100 s0) = Ret true \/
  fst (execute_workflow (demo_env Windows scene_late (fun _ => true))
         (Automator CONFIG) "task" ["a.py"] 100 s0) = Ret false.
Proof.
  apply execute_workflow_returns_bool.
  intros t Ht. vm_compute in Ht. injection Ht as <-. vm_compute. lia.
Defined.

(** X20: when the Composer panel never shows up, the run stops there.
    With the entries of [open_composer] configured and the agent-mode
    element found at no capture, [execute_workflow] returns False and the
    only step ever announced is step 1: no session is started, no file
    attached, no prompt sent. *)
Theorem workflow_stops_without_composer
    E self hk tm ui k ks pause img task files fuel s :
  config self !! "hotkeys" = Some (CDict hk) ->
  hk !! "open_composer" = Some (AList (k :: ks)) ->
  config self !! "wait_timeouts" = Some (CDict tm) ->
  tm !! "after_open" = Some (AInt pause) ->
  0 <= pause ->
  config self !! "ui_elements" = Some (CDict ui) ->
  ui !! "agent_mode" = Some img ->
  (forall n, attempt_ok E img n = false) ->
  exists s', execute_workflow E self task files fuel s = (Ret false, s') /\
             evolves (only K_step1) s s'.
Proof.
  intros Hhk Hkeys Htm Hpause Hpos Hui Himg Hnever.
  apply execute_workflow_fails; [reflexivity|reflexivity|].
  unfold execute_workflow_body, logger.
  do 4 (apply fails_bind; [solve [kinds_auto] | solve [fuel_auto] | intros ? ?]).
  match goal with |- fails_with _ (if ?b then _ else _) _ => destruct b end.
  - apply fails_bind; [solve [kinds_auto] | solve [fuel_auto] | intros ? ?].
    apply fails_ret_false.
  - apply fails_bind; [solve [kinds_auto] | solve [fuel_auto] | intros ? ?].
    match goal with
    | |- fails_with _ _ ?st =>
        destruct (open_composer_spec E self hk tm ui k ks pause img
                    Hhk Hkeys Htm Hpause Hpos Hui Himg st)
          as [(j & _ & _ & Hok & _) | (_ & Hres & _)];
        [rewrite Hnever in Hok; discriminate|];
        apply (fails_bind_ret _ _ _ _ false);
          [exact Hres
          | eapply evolves_only_sub; [apply (open_composer_kinds E self)|reflexivity]
          |]
    end.
    cbn [negb].
    apply fails_bind; [solve [kinds_auto] | solve [fuel_auto] | intros ? ?].
    apply fails_ret_false.
Qed.

Lemma workflow_stops_without_composer_witness :
  exists s', execute_workflow (demo_env Windows scene_blank (fun _ => true))
               (Automator CONFIG) "task" ["a.py"] 100 s0 = (Ret false, s') /\
             evolves (only K_step1) s0 s'.
Proof.
  apply (workflow_stops_without_composer (demo_env Windows scene_blank (fun _ => true))
           (Automator CONFIG) CONFIG_hotkeys CONFIG_timeouts CONFIG_ui "ctrl" ["i"] 1
           (AStr "./images/windows/agent_mode.png") "task" ["a.py"] 100%nat s0
           eq_refl eq_refl eq_refl eq_refl ltac:(lia) eq_refl eq_refl).
  intros n. reflexivity.
Defined.

(** X21: with an empty task the run ends after the files are attached.
    It never enters the wait, so its outcome does not depend on the poll;
    it always comes back with a boolean; and it announces no step beyond
    step 3 and never clicks. *)
Theorem workflow_without_task E self files fuel fuel' s :
  execute_workflow E self "" files fuel s = execute_workflow E self "" files fuel' s /\
  (fst (execute_workflow E self "" files fuel s) = Ret true \/
   fst (execute_workflow E self "" files fuel s) = Ret false) /\
  emits (only K_no_task) (execute_workflow E self "" files fuel).
Proof.
  split; [reflexivity|]. split.
  - assert (Hbody : fuel_free (execute_workflow_body E self "" files fuel)).
    { unfold execute_workflow_body, logger.
      change (String.eqb "" "") with true. cbn [negb]. fuel_auto. }
    specialize (Hbody s).
    unfold execute_workflow, try_except, logger.
    destruct (execute_workflow_body E self "" files fuel s) as [[[|]|e|] s1];
      cbn in *; auto. done.
  - unfold execute_workflow, execute_workflow_body, logger.
    change (String.eqb "" "") with true. cbn [negb]. kinds_auto.
Qed.

(** ** Validation is shallow *)

Lemma bind_not_ret {A B} (m : M A) (k : A -> M B) s b :
  (forall a s1, fst (k a s1) <> Ret b) -> fst (bind m k s) <> Ret b.
Proof.
  intros Hk. unfold bind. destruct (m s) as [[a|e|] s1]; cbn; [apply Hk | | ]; discriminate.
Qed.

Lemma fails_bind_no_ret {A} P (m : M A) (k : A -> M bool) s :
  emits P m -> fuel_free m -> (forall a, fst (m s) <> Ret a) ->
  fails_with P (bind m k) s.
Proof.
  intros Hm Hff Hno. unfold fails_with, bind.
  specialize (Hm s). specialize (Hff s).
  destruct (m s) as [[a|e|] s1]; cbn in *.
  - exfalso. exact (Hno a eq_refl).
  - split; [exact Hm | right; eauto].
  - done.
Qed.

Lemma open_composer_no_agent_mode E self ui s b :
  config self !! "ui_elements" = Some (CDict ui) ->
  ui !! "agent_mode" = None ->
  fst (open_composer E self s) <> Ret b.
Proof.
  intros Hui Hnone. unfold open_composer, logger.
  do 6 (apply bind_not_ret; intros ? ?).
  cbn [open_composer_loop]. unfold bind at 1, cfg2, config_get, bind.
  rewrite Hui. cbn. rewrite Hnone. discriminate.
Qed.

(** X22: validation is shallow.  The constructor looks at the three
    top-level keys only, not at what is bound to them: with [hotkeys] and
    [wait_timeouts] bound to anything and the agent-mode element missing
    under [ui_elements], the construction succeeds and the run then
    returns False, the [KeyError] being caught by [execute_workflow]. *)
Theorem validation_is_shallow E cfg v1 v2 ui task files fuel s :
  cfg !! "hotkeys" = Some v1 ->
  cfg !! "wait_timeouts" = Some v2 ->
  cfg !! "ui_elements" = Some (CDict ui) ->
  ui !! "agent_mode" = None ->
  ComposerAutomator_init cfg s = (Ret (Automator cfg), s) /\
  fst (main E cfg task files fuel s) = Ret false.
Proof.
  intros H1 H2 H3 Hnone.
  assert (Hinit : ComposerAutomator_init cfg s = (Ret (Automator cfg), s)).
  { unfold ComposerAutomator_init, BaseUIAutomator_init, validate_config, required_keys,
      bind, ret. cbn. rewrite H1, H2, H3. reflexivity. }
  split; [exact Hinit|].
  unfold main. rewrite (bind_run _ _ _ _ _ Hinit).
  assert (Hfail : fails_with (only K_step1)
                    (execute_workflow_body E (Automator cfg) task files fuel) s).
  { unfold execute_workflow_body, logger.
    do 4 (apply fails_bind; [solve [kinds_auto] | solve [fuel_auto] | intros ? ?]).
    match goal with |- fails_with _ (if ?b then _ else _) _ => destruct b end.
    - apply fails_bind; [solve [kinds_auto] | solve [fuel_auto] | intros ? ?].
      apply fails_ret_false.
    - apply fails_bind; [solve [kinds_auto] | solve [fuel_auto] | intros ? ?].
      apply fails_bind_no_ret; [solve [kinds_auto] | solve [fuel_auto] |].
      intros b. eapply open_composer_no_agent_mode; eauto. }
  destruct (execute_workflow_fails (only K_step1) E (Automator cfg) task files fuel s
              ltac:(reflexivity) ltac:(reflexivity) Hfail) as (s' & Heq & _).
  rewrite Heq. reflexivity.
Qed.

Lemma validation_is_shallow_witness :
  ComposerAutomator_init CONFIG_empty_ui s0 = (Ret (Automator CONFIG_empty_ui), s0) /\
  fst (main (demo_env Windows scene_idle (fun _ => true)) CONFIG_empty_ui
         "task" [] 100 s0) = Ret false.
Proof.
  exact (validation_is_shallow (demo_env Windows scene_idle (fun _ => true))
           CONFIG_empty_ui (CDict CONFIG_hotkeys) (CDict CONFIG_timeouts) ∅
           "task" [] 100%nat s0 eq_refl eq_refl eq_refl eq_refl).
Defined.

(** ** One tier or the other *)

Lemma hotkeys_of_app l1 l2 : hotkeys_of (l1 ++ l2) = hotkeys_of l1 ++ hotkeys_of l2.
Proof.
  induction l1 as [|ev l1 IH]; [reflexivity|].
  destruct ev; cbn; rewrite ?IH; reflexivity.
Qed.

Lemma hotkeys_of_only K l :
  kind_in KHotkey K = false -> Forall (only K) l -> hotkeys_of l = [].
Proof.
  intros HK. induction 1 as [|ev l Hev _ IH]; [reflexivity|].
  destruct ev; cbn; try exact IH.
  unfold only in Hev. cbn in Hev. congruence.
Qed.

(** X23: [send_message] submits once.  With the send button configured,
    either the button was clicked, once, and no chord was sent, or
    nothing was clicked and the send chord was sent, once. *)
Theorem send_message_one_tier E self ui img s :
  config self !! "ui_elements" = Some (CDict ui) ->
  ui !! "send_button" = Some img ->
  exists added,
    trace (snd (send_message E self s)) = trace s ++ added /\
    ((exists pos, clicks_of added = [pos] /\ hotkeys_of added = []) \/
     (clicks_of added = [] /\ hotkeys_of added = [[modifier E; "enter"]])).
Proof.
  intros Hui Himg. unfold send_message, logger.
  rewrite (bind_run _ _ _ _ _ (eq_refl : emit _ s = (Ret tt, with_event s _))).
  rewrite (bind_run _ _ _ _ _ (cfg2_eval self _ _ _ _ _ Hui Himg)).
  set (s1 := with_event s (Log INFO "点击发送按钮...")).
  destruct (safe_click_returns E self img 3 s1) as [b Hb].
  destruct (safe_click_loop_clicks E img (Z.to_nat 3) s1)
    as (added1 & Ht & Htrue & Hfalse).
  destruct (safe_click_kinds E self img 3 s1) as (_ & _ & added1' & Ht' & Hall).
  unfold safe_click in *.
  rewrite Ht in Ht'. apply app_inv_head in Ht'. subst added1'.
  pose proof (hotkeys_of_only K_click added1 eq_refl Hall) as Hnohot.
  unfold bind at 1.
  destruct (safe_click_loop E img (Z.to_nat 3) s1) as [o s2]. cbn in Hb, Ht, Htrue, Hfalse.
  subst o. destruct b.
  - destruct (Htrue eq_refl) as (j & pos & _ & _ & Hclicks & _).
    exists ([Log INFO "点击发送按钮..."] ++ added1 ++ [Log INFO "成功点击发送按钮"]).
    split.
    + cbn. rewrite Ht. subst s1. cbn. by rewrite <- !app_assoc.
    + left. exists pos. cbn. rewrite clicks_of_app, hotkeys_of_app, Hclicks, Hnohot.
      split; reflexivity.
  - specialize (Hfalse eq_refl).
    exists ([Log INFO "点击发送按钮..."] ++ added1 ++
            [Log INFO "尝试使用快捷键发送..."; Hotkey [modifier E; "enter"]]).
    split.
    + unfold modifier, bind, emit, time_sleep. cbn.
      destruct (is_darwin (env_platform E)); cbn; rewrite Ht; subst s1; cbn;
        by rewrite <- !app_assoc.
    + right. cbn. rewrite clicks_of_app, hotkeys_of_app, Hfalse, Hnohot.
      split; reflexivity.
Qed.

Lemma send_message_one_tier_witness :
  exists added,
    trace (snd (send_message (demo_env Windows scene_blank (fun _ => true))
                  (Automator CONFIG) s0)) = trace s0 ++ added /\
    ((exists pos, clicks_of added = [pos] /\ hotkeys_of added = []) \/
     (clicks_of added = [] /\
      hotkeys_of added = [[modifier (demo_env Windows scene_blank (fun _ => true)); "enter"]])).
Proof.
  exact (send_message_one_tier (demo_env Windows scene_blank (fun _ => true))
           (Automator CONFIG) CONFIG_ui (AStr "./images/windows/send_button.png") s0
           eq_refl eq_refl).
Defined.

(** ** The order of the steps *)

Lemma steps_of_app l1 l2 : steps_of (l1 ++ l2) = steps_of l1 ++ steps_of l2.
Proof.
  induction l1 as [|ev l1 IH]; [reflexivity|].
  cbn. destruct (kind ev); rewrite ?IH; reflexivity.
Qed.

Lemma steps_of_silent l : Forall (only K_silent) l -> steps_of l = [].
Proof.
  induction 1 as [|ev l Hev _ IH]; [reflexivity|].
  cbn. unfold only in Hev. destruct (kind ev); try exact IH.
  cbn in Hev. discriminate.
Qed.

Lemma announces_ret {A} l (a : A) : announces l (ret a).
Proof. intros s. exists []. cbn. rewrite app_nil_r. split; [done|apply prefix_nil]. Qed.

Lemma announces_silent {A} l (m : M A) :
  emits (only K_silent) m -> announces l m.
Proof.
  intros Hm s. destruct (Hm s) as (_ & _ & added & Ht & Hall).
  exists added. split; [exact Ht|]. rewrite (steps_of_silent _ Hall). apply prefix_nil.
Qed.

Lemma announces_bind_silent {A B} l (m : M A) (k : A -> M B) :
  emits (only K_silent) m -> (forall a, announces l (k a)) -> announces l (bind m k).
Proof.
  intros Hm Hk s. destruct (Hm s) as (_ & _ & added1 & Ht1 & Hall).
  pose proof (steps_of_silent _ Hall) as Hsil.
  unfold bind. destruct (m s) as [[a|e|] s1]; cbn in *.
  - destruct (Hk a s1) as (added2 & Ht2 & Hpre).
    exists (added1 ++ added2). rewrite Ht2, Ht1, app_assoc. split; [done|].
    rewrite steps_of_app, Hsil. exact Hpre.
  - exists added1. split; [exact Ht1|]. rewrite Hsil. apply prefix_nil.
  - exists added1. split; [exact Ht1|]. rewrite Hsil. apply prefix_nil.
Qed.

Lemma announces_step {B} n l ev (k : M B) :
  kind ev = KStep n -> announces l k -> announces (n :: l) (emit ev ;; k).
Proof.
  intros Hkind Hk s. unfold bind, emit.
  destruct (Hk (with_event s ev)) as (added & Ht & Hpre).
  exists (ev :: added). split.
  - rewrite Ht. cbn. by rewrite <- app_assoc.
  - cbn. rewrite Hkind. by apply prefix_cons.
Qed.

Lemma announces_try {A} l (m : M A) (h : exn -> M A) :
  announces l m -> (forall e, emits (only K_silent) (h e)) -> announces l (try_except m h).
Proof.
  intros Hm Hh s. destruct (Hm s) as (added1 & Ht1 & Hpre).
  unfold try_except. destruct (m s) as [[a|e|] s1]; cbn in *; eauto.
  destruct (Hh e s1) as (_ & _ & added2 & Ht2 & Hall).
  exists (added1 ++ added2). rewrite Ht2, Ht1, app_assoc. split; [done|].
  rewrite steps_of_app, (steps_of_silent _ Hall), app_nil_r. exact Hpre.
Qed.

Ltac announces_step_tac :=
  lazymatch goal with
  | |- announces _ (bind (emit _) _) =>
      first [ apply announces_step; [reflexivity|]
            | apply announces_bind_silent; [solve [kinds_auto] | intros ?] ]
  | |- announces _ (bind _ _) =>
      apply announces_bind_silent; [solve [kinds_auto] | intros ?]
  | |- announces _ (ret _) => apply announces_ret
  | |- announces _ (if ?b then _ else _) => destruct b
  | |- announces _ _ => apply announces_silent; solve [kinds_auto]
  end.

(** X24: the steps are announced in order.  In every run, whatever the
    world does, the step announcements found in the trace are the first
    few of 1, 2, 3, 4, 5, 6: no step is announced twice, out of order, or
    before the one that precedes it. *)
Theorem steps_in_order E self task files fuel :
  announces [1; 2; 3; 4; 5; 6]%nat (execute_workflow E self task files fuel).
Proof.
  unfold execute_workflow. apply announces_try.
  - unfold execute_workflow_body, logger. repeat announces_step_tac.
  - intros e. unfold logger. kinds_auto.
Qed.

(** ** How often the opening chord is sent *)

Lemma keys_of_app l1 l2 : keys_of (l1 ++ l2) = keys_of l1 ++ keys_of l2.
Proof.
  induction l1 as [|ev l1 IH]; [reflexivity|].
  destruct ev; cbn; rewrite ?IH; reflexivity.
Qed.

Lemma keys_of_only K l :
  kind_in KKeyDown K = false -> kind_in KKeyUp K = false -> kind_in KPress K = false ->
  Forall (only K) l -> keys_of l = [].
Proof.
  intros H1 H2 H3. induction 1 as [|ev l Hev _ IH]; [reflexivity|].
  destruct ev; cbn; try exact IH; unfold only in Hev; cbn in Hev; congruence.
Qed.

Lemma keys_of_chord darwin k ks : keys_of (chord_events darwin k ks) = chord_events darwin k ks.
Proof.
  unfold chord_events. cbn. f_equal. rewrite keys_of_app. cbn. f_equal.
  destruct darwin.
  - induction ks as [|key ks IH]; [reflexivity|]. cbn. by rewrite IH.
  - induction ks as [|key ks IH]; [reflexivity|]. cbn. by rewrite IH.
Qed.

Section ChordCount.

Variable E : env.
Variable self : automator.
Variables (hk tm ui : gmap string atom) (k : string) (ks : list string).
Variables (pause : Z) (img : atom).
Hypothesis Hhk : config self !! "hotkeys" = Some (CDict hk).
Hypothesis Hkeys : hk !! "open_composer" = Some (AList (k :: ks)).
Hypothesis Htm : config self !! "wait_timeouts" = Some (CDict tm).
Hypothesis Hpause : tm !! "after_open" = Some (AInt pause).
Hypothesis Hpos : 0 <= pause.
Hypothesis Hui : config self !! "ui_elements" = Some (CDict ui).
Hypothesis Himg : ui !! "agent_mode" = Some img.

Let chord := chord_events (is_darwin (env_platform E)) k ks.

Lemma open_gesture_keys {B} (K : M B) s :
  exists s' added,
    captures s' = captures s /\
    trace s' = trace s ++ added /\
    keys_of added = chord /\
    (focus_window E self ;;
     keys <- cfg2 self "hotkeys" "open_composer" ;;
     _hotkey E self keys ;;
     pause <- cfg2 self "wait_timeouts" "after_open" ;;
     sleep_atom E pause ;;
     K) s = K s'.
Proof.
  match goal with
  | |- context [bind (focus_window E self) ?K0 s] =>
      destruct (focus_then_trace E self K0 s) as (b & s1 & added1 & Heq & Hcap & Ht & Hall)
  end.
  rewrite Heq.
  rewrite (bind_run _ _ _ _ _ (cfg2_eval self _ _ _ _ s1 Hhk Hkeys)).
  rewrite (bind_run _ _ _ _ _ (_hotkey_run E self k ks s1)).
  rewrite (bind_run _ _ _ _ _ (cfg2_eval self _ _ _ _ _ Htm Hpause)).
  rewrite (bind_run _ _ _ _ _ (sleep_atom_run E pause _ Hpos)).
  eexists. exists (added1 ++ chord).
  split; [|split; [|split; [|reflexivity]]].
  - cbn. exact Hcap.
  - cbn. rewrite Ht. by rewrite <- app_assoc.
  - rewrite keys_of_app, (keys_of_only K_window added1 eq_refl eq_refl eq_refl Hall).
    apply keys_of_chord.
Qed.

Lemma open_composer_loop_keys n s :
  exists added c,
    trace (snd (open_composer_loop E self n s)) = trace s ++ added /\
    keys_of added = concat (replicate c chord) /\
    captures (snd (open_composer_loop E self n s)) =
      (captures s + c + success_count (fst (open_composer_loop E self n s)))%nat.
Proof.
  revert s. induction n as [|n IH]; intros s.
  - exists [Log WARNING "打开Composer失败，可能需要手动干预"], 0%nat. cbn.
    split; [done|]. split; [done|lia].
  - cbn [open_composer_loop].
    rewrite (bind_run _ _ _ _ _ (cfg2_eval self _ _ _ _ s Hui Himg)).
    pose proof (exist_loop_spec E img 1 1 s ltac:(lia)) as Hone.
    change (exist_loop E img 1 1 s) with (self_check_element_exist E self img 1 1 s)
      in Hone.
    destruct (self_check_kinds E self img 1 1 s) as (_ & _ & added1 & Ht1 & Hall1).
    pose proof (keys_of_only K_check added1 eq_refl eq_refl eq_refl Hall1) as Hk1.
    destruct (self_check_element_exist E self img 1 1 s) as [o s1] eqn:Hcheck.
    cbn in Ht1.
    destruct Hone as [(j & Hj & _ & _ & Hres & Hn) | (_ & Hres & Hn)];
      cbn in Hres, Hn; subst o; rewrite (bind_run _ _ _ _ _ Hcheck).
    + assert (j = 0)%nat by lia. subst j.
      exists (added1 ++ [Log INFO "Composer已成功打开"]), 0%nat.
      unfold logger, bind, emit. cbn.
      split; [rewrite Ht1; by rewrite <- app_assoc|].
      split; [rewrite keys_of_app, Hk1; reflexivity|lia].
    + unfold logger.
      rewrite (bind_run _ _ _ _ _ (eq_refl : emit _ s1 = (Ret tt, with_event s1 _))).
      destruct (open_gesture_keys (open_composer_loop E self n)
                  (with_event s1
                     (Log INFO ("未检测到Composer界面，重试中 (剩余" +:+ pretty n +:+ "次)..."))))
        as (s2 & added2 & Hcap & Ht2 & Hk2 & Heq).
      rewrite Heq.
      destruct (IH s2) as (added3 & c & Ht3 & Hk3 & Hn3).
      exists (added1 ++
              [Log INFO ("未检测到Composer界面，重试中 (剩余" +:+ pretty n +:+ "次)...")] ++
              added2 ++ added3), (S c).
      split.
      * rewrite Ht3, Ht2. cbn. rewrite Ht1. by rewrite <- !app_assoc.
      * split.
        -- rewrite !keys_of_app, Hk1, Hk2, Hk3. reflexivity.
        -- rewrite Hn3, Hcap. cbn. lia.
Qed.

Lemma open_composer_keys s :
  exists added c,
    trace (snd (open_composer E self s)) = trace s ++ added /\
    keys_of added = concat (replicate (S c) chord) /\
    captures (snd (open_composer E self s)) =
      (captures s + c + success_count (fst (open_composer E self s)))%nat.
Proof.
  unfold open_composer, logger.
  rewrite (bind_run _ _ _ _ _ (eq_refl : emit _ s = (Ret tt, with_event s _))).
  destruct (open_gesture_keys (open_composer_loop E self 3)
              (with_event s (Log INFO "正在打开Composer...")))
    as (s2 & added2 & Hcap & Ht2 & Hk2 & Heq).
  rewrite Heq.
  destruct (open_composer_loop_keys 3 s2) as (added3 & c & Ht3 & Hk3 & Hn3).
  exists ([Log INFO "正在打开Composer..."] ++ added2 ++ added3), c.
  split.
  - rewrite Ht3, Ht2. cbn. by rewrite <- !app_assoc.
  - split.
    + rewrite !keys_of_app, Hk2, Hk3. reflexivity.
    + rewrite Hn3, Hcap. reflexivity.
Qed.

End ChordCount.

(** X25: [open_composer] sends its chord once at the start and once more
    after every failed check, the last one included.  The key events it
    leaves are whole chords and nothing else, one more than the number of
    failed checks; so when it gives up after three failed checks it has
    sent the chord four times, the fourth without looking at what it
    did. *)
Theorem open_composer_chords E self hk tm ui k ks pause img s :
  config self !! "hotkeys" = Some (CDict hk) ->
  hk !! "open_composer" = Some (AList (k :: ks)) ->
  config self !! "wait_timeouts" = Some (CDict tm) ->
  tm !! "after_open" = Some (AInt pause) ->
  0 <= pause ->
  config self !! "ui_elements" = Some (CDict ui) ->
  ui !! "agent_mode" = Some img ->
  let r := open_composer E self s in
  let chord := chord_events (is_darwin (env_platform E)) k ks in
  exists added failed,
    trace (snd r) = trace s ++ added /\
    keys_of added = concat (replicate (S failed) chord) /\
    captures (snd r) = (captures s + failed + success_count (fst r))%nat /\
    (fst r = Ret false -> failed = 3%nat).
Proof.
  intros Hhk Hkeys Htm Hpause Hpos Hui Himg r chord. subst r chord.
  destruct (open_composer_keys E self hk tm ui k ks pause img
              Hhk Hkeys Htm Hpause Hpos Hui Himg s) as (added & c & Ht & Hk & Hn).
  exists added, c. split; [exact Ht|]. split; [exact Hk|]. split; [exact Hn|].
  intros Hres.
  destruct (open_composer_spec E self hk tm ui k ks pause img
              Hhk Hkeys Htm Hpause Hpos Hui Himg s)
    as [(j & _ & _ & _ & Htrue & _) | (_ & _ & Hcap)].
  - rewrite Hres in Htrue. discriminate.
  - rewrite Hcap, Hres in Hn. cbn in Hn. lia.
Qed.

Lemma open_composer_chords_witness :
  let E := demo_env Windows scene_blank (fun _ => true) in
  let r := open_composer E (Automator CONFIG) s0 in
  exists added failed,
    trace (snd r) = trace s0 ++ added /\
    keys_of added = concat (replicate (S failed) (chord_events false "ctrl" ["i"])) /\
    captures (snd r) = (captures s0 + failed + success_count (fst r))%nat /\
    (fst r = Ret false -> failed = 3%nat).
Proof.
  intros E r.
  exact (open_composer_chords E (Automator CONFIG) CONFIG_hotkeys CONFIG_timeouts
           CONFIG_ui "ctrl" ["i"] 1 (AStr "./images/windows/agent_mode.png") s0
           eq_refl eq_refl eq_refl eq_refl ltac:(lia) eq_refl eq_refl).
Defined.

Example open_composer_four_chords :
  keys_of (trace (snd (open_composer (demo_env Windows scene_blank (fun _ => true))
                         (Automator CONFIG) s0))) =
  concat (replicate 4 (chord_events false "ctrl" ["i"])).
Proof. reflexivity. Qed.

(** ** The focus check *)

Lemma bind_assoc3 {A B C D} (m1 : M A) (m2 : M B) (m3 : M C) (K : C -> M D) s :
  bind (bind m1 (fun _ => bind m2 (fun _ => m3))) K s =
  bind m1 (fun _ => bind m2 (fun _ => bind m3 K)) s.
Proof.
  unfold bind. destruct (m1 s) as [[a|e|] s1]; try reflexivity.
  destruct (m2 s1) as [[b|e|] s2]; reflexivity.
Qed.

Lemma execute_workflow_body_gate E self task files fuel s :
  execute_workflow_body E self task files fuel s =
  bind (workflow_until_gate E self)
       (fun _ =>
          success <- focus_window E self ;;
          if negb success then
            logger ERROR "无法获取窗口焦点，工作流中断" ;;
            ret false
          else workflow_after_gate E self task files fuel) s.
Proof.
  unfold workflow_until_gate, execute_workflow_body, workflow_after_gate,
    workflow_after_open.
  symmetry. apply bind_assoc3.
Qed.

Lemma runs_to_bind {A B} l1 l2 (v : A) (w : B) (m : M A) (k : A -> M B) :
  runs_to l1 v m -> runs_to l2 w (k v) -> runs_to (l1 ++ l2) w (bind m k).
Proof.
  intros Hm Hk s. destruct (Hm s) as (s1 & a1 & Heq & Ht1 & Hs1).
  destruct (Hk s1) as (s2 & a2 & Heq2 & Ht2 & Hs2).
  exists s2, (a1 ++ a2). rewrite (bind_run _ _ _ _ _ Heq). split; [exact Heq2|].
  split; [by rewrite Ht2, Ht1, app_assoc|].
  by rewrite steps_of_app, Hs1, Hs2.
Qed.

Lemma runs_to_bind_quiet {A B} l (w : B) (m : M A) (k : A -> M B) :
  runs_quietly m -> (forall a, runs_to l w (k a)) -> runs_to l w (bind m k).
Proof.
  intros Hm Hk s. destruct (Hm s) as (a & s1 & a1 & Heq & Ht1 & Hs1).
  destruct (Hk a s1) as (s2 & a2 & Heq2 & Ht2 & Hs2).
  exists s2, (a1 ++ a2). rewrite (bind_run _ _ _ _ _ Heq). split; [exact Heq2|].
  split; [by rewrite Ht2, Ht1, app_assoc|].
  by rewrite steps_of_app, Hs1, Hs2.
Qed.

Lemma runs_to_announce n msg :
  kind (Log INFO msg) = KStep n -> runs_to [n] tt (logger INFO msg).
Proof.
  intros Hk s. exists (with_event s (Log INFO msg)), [Log INFO msg].
  split; [reflexivity|]. split; [reflexivity|].
  cbn [steps_of]. by rewrite Hk.
Qed.

(** Whatever returns normally and produces no announcement runs quietly. *)
Lemma runs_quietly_kinds {A} K (m : M A) :
  emits (only K) m -> kinds_sub K K_silent = true ->
  (forall s, exists a, fst (m s) = Ret a) -> runs_quietly m.
Proof.
  intros Hm Hsub Hret s. destruct (Hret s) as [a Ha].
  destruct (Hm s) as (_ & _ & added & Ht & Hall).
  destruct (m s) as [o s1]. cbn in *. subst o.
  exists a, s1, added. split; [reflexivity|]. split; [exact Ht|].
  apply steps_of_silent. eapply Forall_impl; [exact Hall|].
  intros ev. apply kind_in_sub. exact Hsub.
Qed.

Lemma runs_to_quiet {A} (v : A) (m : M A) :
  runs_quietly m -> (forall s, fst (m s) = Ret v) -> runs_to [] v m.
Proof.
  intros Hm Hv s. destruct (Hm s) as (a & s1 & added & Heq & Ht & Hs).
  specialize (Hv s). rewrite Heq in Hv. cbn in Hv. injection Hv as ->.
  exists s1, added. done.
Qed.

Lemma time_sleep_quiet ms : 0 <= ms -> runs_quietly (time_sleep ms).
Proof.
  intros Hms. apply (runs_quietly_kinds []); [apply emits_sleep|reflexivity|].
  intros s. unfold time_sleep.
  assert (Hlt : (ms <? 0) = false) by (apply Z.ltb_ge; lia).
  rewrite Hlt. eauto.
Qed.

Lemma focus_window_quiet E self : runs_quietly (focus_window E self).
Proof.
  apply (runs_quietly_kinds K_window); [apply focus_window_kinds|reflexivity|].
  apply focus_window_returns.
Qed.

Lemma send_message_returns E self ui img s :
  config self !! "ui_elements" = Some (CDict ui) ->
  ui !! "send_button" = Some img ->
  exists b, fst (send_message E self s) = Ret b.
Proof.
  intros Hui Himg. unfold send_message, logger.
  rewrite (bind_run _ _ _ _ _ (eq_refl : emit _ s = (Ret tt, with_event s _))).
  rewrite (bind_run _ _ _ _ _ (cfg2_eval self _ _ _ _ _ Hui Himg)).
  match goal with
  | |- context [bind (safe_click E self img 3) ?K ?st] =>
      destruct (safe_click_returns E self img 3 st) as [b Hb];
      destruct (safe_click E self img 3 st) as [o s1] eqn:Hclick
  end.
  cbn in Hb. subst o. rewrite (bind_run _ _ _ _ _ Hclick).
  destruct b, (is_darwin (env_platform E)); eexists; reflexivity.
Qed.

Lemma input_prompt_returns E self ui img prompt s :
  config self !! "ui_elements" = Some (CDict ui) ->
  ui !! "send_button" = Some img ->
  exists a, fst (input_prompt E self prompt s) = Ret a.
Proof.
  intros Hui Himg. unfold input_prompt, logger.
  rewrite (bind_run _ _ _ _ _ (eq_refl : emit _ s = (Ret tt, with_event s _))).
  match goal with
  | |- context [bind (input_text E self prompt "zh") ?K ?st] =>
      pose proof (input_text_returns E self prompt "zh" st) as Hin;
      destruct (input_text E self prompt "zh" st) as [o s1] eqn:Htext
  end.
  cbn in Hin. subst o. rewrite (bind_run _ _ _ _ _ Htext).
  rewrite (bind_run _ _ _ _ _ (eq_refl : time_sleep 500 s1 = (Ret tt, advanced s1 500))).
  destruct (send_message_returns E self ui img (advanced s1 500) Hui Himg) as [b Hb].
  destruct (send_message E self (advanced s1 500)) as [o s2] eqn:Hsend.
  cbn in Hb. subst o. rewrite (bind_run _ _ _ _ _ Hsend). eexists. reflexivity.
Qed.

Section AfterTheGate.

Variable E : env.
Variable self : automator.
Variables (hk tm ui : gmap string atom).
Variables (k k' : string) (ks ks' : list string).
Variables (after_open per_file timeout : Z) (agent send gen : atom).
Hypothesis Hhk : config self !! "hotkeys" = Some (CDict hk).
Hypothesis Hoc : hk !! "open_composer" = Some (AList (k :: ks)).
Hypothesis Hns : hk !! "new_session" = Some (AList (k' :: ks')).
Hypothesis Htm : config self !! "wait_timeouts" = Some (CDict tm).
Hypothesis Hafter : tm !! "after_open" = Some (AInt after_open).
Hypothesis Hper : tm !! "per_file" = Some (AInt per_file).
Hypothesis Hexec : tm !! "execution" = Some (AInt timeout).
Hypothesis Hafter_pos : 0 <= after_open.
Hypothesis Hper_pos : 0 <= per_file.
Hypothesis Htimeout_pos : 0 < timeout.
Hypothesis Hui : config self !! "ui_elements" = Some (CDict ui).
Hypothesis Hagent : ui !! "agent_mode" = Some agent.
Hypothesis Hsend : ui !! "send_button" = Some send.
Hypothesis Hgen : ui !! "generating" = Some gen.
Hypothesis Hpbpaste :
  is_darwin (env_platform E) = true ->
  forall n, exists out, env_run E n (Exec ["pbpaste"]) = Ok out.
Hypothesis Hidle : forall n, attempt_ok E gen n = false.

Lemma new_session_quiet : runs_quietly (new_session E self).
Proof.
  apply (runs_quietly_kinds K_session); [apply new_session_kinds|reflexivity|].
  intros s. destruct (new_session_run E self hk k' ks' s Hhk Hns) as (s3 & Heq).
  rewrite Heq. eauto.
Qed.

Lemma link_files_quiet files : runs_quietly (link_files E self files).
Proof.
  apply (runs_quietly_kinds K_link); [apply link_files_kinds|reflexivity|].
  intros s. unfold link_files, logger.
  rewrite (bind_run _ _ _ _ _ (eq_refl : emit _ s = (Ret tt, with_event s _))).
  match goal with
  | |- context [bind (focus_window E self) ?K ?st] =>
      destruct (focus_then E self K st) as (b & s1 & _ & Heq)
  end.
  rewrite Heq.
  rewrite (bind_run _ _ _ _ _ (eq_refl : time_sleep 1000 s1 = (Ret tt, advanced s1 1000))).
  destruct (link_files_loop_run E self tm per_file Htm Hper Hper_pos Hpbpaste files
              (advanced s1 1000)) as (s' & added & Hrun & _).
  rewrite Hrun. eauto.
Qed.

Lemma input_prompt_quiet prompt : runs_quietly (input_prompt E self prompt).
Proof.
  apply (runs_quietly_kinds K_prompt); [apply input_prompt_kinds|reflexivity|].
  intros s. eapply input_prompt_returns; eauto.
Qed.

Lemma wait_execution_quiet fuel : runs_quietly (wait_execution E self None (S fuel)).
Proof.
  apply (runs_quietly_kinds K_check); [apply wait_execution_kinds|reflexivity|].
  intros s. unfold wait_execution.
  rewrite (bind_run _ _ _ _ _ (effective_timeout_none self tm timeout s Htm Hexec)).
  rewrite (bind_run _ _ _ _ _ (eq_refl : now E s = (Ret (wall E s), s))).
  destruct (wait_pass_clear E self ui gen timeout Hui Hgen (wall E s) fuel s)
    as (s1 & Heq & _).
  - unfold seconds. lia.
  - intros j _. apply Hidle.
  - rewrite Heq. eauto.
Qed.

Lemma accept_changes_accepts : runs_to [] true (accept_changes E self).
Proof.
  apply runs_to_quiet; [|reflexivity].
  apply (runs_quietly_kinds [KHotkey]); [apply accept_changes_kinds|reflexivity|].
  intros s. eexists. reflexivity.
Qed.

(** Once the panel is open the run goes through its remaining steps and
    returns True; nothing in it depends on what [focus_window] returns. *)
Lemma workflow_after_open_runs task files fuel :
  runs_to (tail (steps_announced task)) true
    (workflow_after_open E self task files (S fuel)).
Proof.
  unfold workflow_after_open, steps_announced.
  apply runs_to_bind_quiet; [by apply time_sleep_quiet|intros _].
  destruct (String.eqb task "") eqn:Htask; cbn [negb tail].
  - apply (runs_to_bind [2%nat] [3%nat] tt); [by apply runs_to_announce|].
    apply runs_to_bind_quiet; [apply new_session_quiet|intros _].
    apply runs_to_bind_quiet; [by apply time_sleep_quiet|intros _].
    apply (runs_to_bind [3%nat] [] tt); [by apply runs_to_announce|].
    apply runs_to_bind_quiet; [apply link_files_quiet|intros _].
    intros s. exists s, []. by rewrite app_nil_r.
  - apply (runs_to_bind [2%nat] [3; 4; 5; 6]%nat tt); [by apply runs_to_announce|].
    apply runs_to_bind_quiet; [apply new_session_quiet|intros _].
    apply runs_to_bind_quiet; [by apply time_sleep_quiet|intros _].
    apply (runs_to_bind [3%nat] [4; 5; 6]%nat tt); [by apply runs_to_announce|].
    apply runs_to_bind_quiet; [apply link_files_quiet|intros _].
    apply (runs_to_bind [4%nat] [5; 6]%nat tt); [by apply runs_to_announce|].
    apply runs_to_bind_quiet; [apply focus_window_quiet|intros _].
    apply runs_to_bind_quiet; [by apply time_sleep_quiet|intros _].
    apply runs_to_bind_quiet; [apply input_prompt_quiet|intros _].
    apply (runs_to_bind [5%nat] [6%nat] tt); [by apply runs_to_announce|].
    apply runs_to_bind_quiet; [apply wait_execution_quiet|intros _].
    apply (runs_to_bind [6%nat] [] tt); [by apply runs_to_announce|].
    apply accept_changes_accepts.
Qed.

(** Past the focus check: if the panel shows up in one of the three
    checks of [open_composer], the run announces its steps and returns
    True. *)
Lemma workflow_after_gate_runs task files fuel s :
  (exists j, (j < 3)%nat /\ attempt_ok E agent (captures s + j) = true) ->
  exists s' added,
    workflow_after_gate E self task files (S fuel) s = (Ret true, s') /\
    trace s' = trace s ++ added /\
    steps_of added = steps_announced task.
Proof.
  intros (j & Hj & Hok). unfold workflow_after_gate, logger.
  rewrite (bind_run _ _ _ _ _ (eq_refl : emit _ s = (Ret tt, with_event s _))).
  set (s1 := with_event s (Log INFO "步骤1: 打开Composer界面")).
  assert (Hopen : fst (open_composer E self s1) = Ret true).
  { destruct (open_composer_spec E self hk tm ui k ks after_open agent
                Hhk Hoc Htm Hafter Hafter_pos Hui Hagent s1)
      as [(i & _ & _ & _ & Hres & _) | (Hall & _ & _)]; [exact Hres|].
    specialize (Hall j Hj). cbn in Hall. rewrite Hok in Hall. discriminate. }
  destruct (open_composer_kinds E self s1) as (_ & _ & a1 & Ht1 & Hall1).
  destruct (open_composer E self s1) as [o s2] eqn:Hrun. cbn in Hopen, Ht1. subst o.
  rewrite (bind_run _ _ _ _ _ Hrun). cbn [negb].
  destruct (workflow_after_open_runs task files fuel s2) as (s' & a2 & Heq & Ht2 & Hs2).
  exists s', ([Log INFO "步骤1: 打开Composer界面"] ++ a1 ++ a2).
  split; [exact Heq|]. split.
  - rewrite Ht2, Ht1. cbn. by rewrite <- !app_assoc.
  - rewrite !steps_of_app, Hs2.
    rewrite (steps_of_silent a1).
    + unfold steps_announced. destruct (String.eqb task ""); reflexivity.
    + eapply Forall_impl; [exact Hall1|]. intros ev. by apply kind_in_sub.
Qed.

End AfterTheGate.

Lemma workflow_until_gate_quiet E self s s1 :
  workflow_until_gate E self s = (Ret tt, s1) ->
  evolves no_input s s1 /\
  captures s1 = captures s /\
  exists added, trace s1 = trace s ++ added /\ steps_of added = [].
Proof.
  intros Hpre.
  assert (Hkeep : keeps_captures (workflow_until_gate E self))
    by (unfold workflow_until_gate, logger; keeps_auto).
  specialize (Hkeep s). rewrite Hpre in Hkeep. cbn in Hkeep.
  assert (Hno : emits no_input (workflow_until_gate E self))
    by (unfold workflow_until_gate, logger; emits_auto).
  assert (Hk : emits (only K_window) (workflow_until_gate E self))
    by (unfold workflow_until_gate, logger; kinds_auto).
  specialize (Hno s). specialize (Hk s). rewrite Hpre in Hno, Hk. cbn in Hno, Hk.
  split; [exact Hno|]. split; [exact Hkeep|].
  destruct Hk as (_ & _ & added & Ht & Hall). exists added. split; [exact Ht|].
  apply steps_of_silent. eapply Forall_impl; [exact Hall|].
  intros ev. by apply kind_in_sub.
Qed.



(** In that run seven focus attempts fail after the check: three in
    [open_composer], two in [new_session], one in [link_files] and the
    one before step 4. *)
Example focus_failures_are_ignored :
  let E := demo_env Linux scene_late_panel (fun n => (n =? 0)%nat) in
  let r := execute_workflow E (Automator CONFIG) "task" [] 100 s0 in
  fst r = Ret true /\
  length (filter (fun ev => is_true
                    match ev with
                    | Log ERROR msg =>
                        String.eqb msg "激活目标窗口失败: list index out of range"
                    | _ => false
                    end)
            (trace (snd r))) = 7%nat.
Proof. split; vm_compute; reflexivity. Qed.

(** No window ever matches the title: the run ends at the focus check. *)
Example focus_check_fails :
  let E := demo_env Linux scene_idle (fun _ => false) in
  let r := execute_workflow E (Automator CONFIG) "task" ["a.py"] 100 s0 in
  fst r = Ret false /\
  trace (snd r) =
    [Log INFO "开始自动化工作流...";
     Run (Exec ["cursor"; "D:/fastapi-demo"]);
     Log ERROR "激活目标窗口失败: list index out of range";
     Log ERROR "无法获取窗口焦点，工作流中断"].
Proof. split; reflexivity. Qed.
